(** * Loss-prediction notebook: a shallow embedding of [LossPrediction.ipynb]

    The notebook is a linear pandas / scikit-learn script:
    [load_data], [clean_and_engineer], [encode_and_impute],
    [compare_models] and [main].  This file embeds those functions and
    proves the properties its specification states about them.

    Modelling conventions.
    - A float64 is a rational or one of the three special values
      ([PInf], [NInf], [NaN]).  Division and addition round to binary64
      (to nearest, ties to even) and overflow to an infinity; the two
      zeros are one value.  An int64 is an integer, and int64 addition
      wraps around.  NaN is the missing-value marker of pandas.
    - A DataFrame is an ordered list of named columns; a column is a list
      of dynamically typed cells.
    - Python exceptions are the [Err] results of an error monad; the
      DataFrames that are mutated in place live in a heap of objects and
      are passed by reference.
    - A file holds what [pd.read_csv] makes of its content: a table, or
      the exception it raises.  The estimator libraries may write files of
      their own while they fit.
    - Calls into library code whose result is not determined by the
      notebook (date parsing, text conversion of scalars, estimators, the
      shuffled split) are section variables.
    - The progress messages that the notebook prints are not modelled. *)

From Stdlib Require Import ZArith QArith Qreduction Qabs Qpower Lqa Lia.
From Stdlib Require Import List String Ascii Bool Permutation Sorted.
From Stdlib Require Import OrdersEx DecimalString.
Import ListNotations.

Local Close Scope Q_scope.
Local Open Scope string_scope.
Local Open Scope list_scope.

(** ** float64 values *)

Inductive float64 : Type :=
| Finite (q : Q)
| PInf
| NInf
| NaN.

(** [float('inf')] and [np.nan]. *)
Definition inf : float64 := PInf.
Definition nan : float64 := NaN.

Definition Qzerob (q : Q) : bool := Qeq_bool q 0.
Definition Qltb (a b : Q) : bool := negb (Qle_bool b a).

(** *** Rounding to binary64 *)

(** The non-negative rational [n / d] rounded to an integer: to nearest,
    ties to even. *)
Definition round_half_even (n d : Z) : Z :=
  let q := (n / d)%Z in
  let r := (n mod d)%Z in
  if (2 * r <? d)%Z then q
  else if (d <? 2 * r)%Z then (q + 1)%Z
  else if Z.even q then q else (q + 1)%Z.

(** [n / d < 2 ^ k] *)
Definition below_pow2 (n d k : Z) : bool :=
  if (0 <=? k)%Z then (n <? d * 2 ^ k)%Z else (n * 2 ^ (- k) <? d)%Z.

(** The exponent of the unit in the last place of a positive [n / d]:
    [p - 52] when [2 ^ p <= n / d < 2 ^ (p + 1)], and -1074 throughout
    the subnormal range. *)
Definition ulp_exponent (n d : Z) : Z :=
  let k := (Z.log2 n - Z.log2 d)%Z in
  let p := if below_pow2 n d k then (k - 1)%Z else k in
  Z.max (p - 52) (-1074).

(** The float with mantissa [m] and exponent [e]. *)
Definition scaled (m e : Z) : Q := Qred (inject_Z m * 2 ^ e)%Q.

(** A positive [n / d] rounded to binary64: the mantissa is [n / d] in
    units in the last place, rounded to an integer; a result of 2^1024 or
    more is an overflow. *)
Definition round64_pos (n d : Z) : float64 :=
  let e := ulp_exponent n d in
  let m := if (0 <=? e)%Z then round_half_even n (d * 2 ^ e)
           else round_half_even (n * 2 ^ (- e)) d in
  if ((0 <=? e) && (2 ^ 1024 <=? m * 2 ^ e))%Z%bool then PInf
  else Finite (scaled m e).

Definition f_neg (x : float64) : float64 :=
  match x with
  | Finite q => Finite (Qred (- q))
  | PInf => NInf
  | NInf => PInf
  | NaN => NaN
  end.

(** The float64 nearest to a rational. *)
Definition round64 (q : Q) : float64 :=
  match Qnum q with
  | Z0 => Finite 0
  | Zpos n => round64_pos (Zpos n) (Zpos (Qden q))
  | Zneg n => f_neg (round64_pos (Zpos n) (Zpos (Qden q)))
  end.

(** An operand as arithmetic receives it: at float64 precision (the
    conversion of an int64 operand; the identity on a float64). *)
Definition f_round (x : float64) : float64 :=
  match x with
  | Finite q => round64 q
  | _ => x
  end.

(** IEEE division, with a positive zero as the only zero: the quotient
    of the operands, correctly rounded. *)
Definition f_div (a b : float64) : float64 :=
  match f_round a, f_round b with
  | NaN, _ | _, NaN => NaN
  | Finite x, Finite y =>
      if Qzerob y then
        if Qzerob x then NaN else if Qltb 0 x then PInf else NInf
      else round64 (x / y)
  | Finite _, (PInf | NInf) => Finite 0
  | PInf, Finite y => if Qltb y 0 then NInf else PInf
  | NInf, Finite y => if Qltb y 0 then PInf else NInf
  | (PInf | NInf), (PInf | NInf) => NaN
  end.

(** IEEE addition: the sum of the operands, correctly rounded. *)
Definition f_add (a b : float64) : float64 :=
  match f_round a, f_round b with
  | NaN, _ | _, NaN => NaN
  | Finite x, Finite y => round64 (x + y)
  | PInf, NInf | NInf, PInf => NaN
  | PInf, _ | _, PInf => PInf
  | NInf, _ | _, NInf => NInf
  end.

(** [a < b] on floats: every comparison with NaN is false. *)
Definition f_ltb (a b : float64) : bool :=
  match a, b with
  | NaN, _ | _, NaN => false
  | Finite x, Finite y => Qltb x y
  | Finite _, PInf => true
  | Finite _, NInf => false
  | PInf, _ => false
  | NInf, NInf => false
  | NInf, _ => true
  end.

Definition of_int (z : Z) : float64 := Finite (inject_Z z).

(** ** Cells, columns and DataFrames *)

Inductive cell : Type :=
| VInt (z : Z)          (* int64 *)
| VFloat (x : float64)  (* float64; [VFloat NaN] is a missing value *)
| VStr (s : string)     (* Python str in an object column *)
| VTime (ns : Z)        (* Timestamp: nanoseconds since the epoch *)
| VDelta (ns : Z)       (* Timedelta: nanoseconds *)
| VNaT.                 (* missing Timestamp / Timedelta *)

Definition column : Type := list cell.
Definition DataFrame : Type := list (string * column).

(** [pd.isna] on a scalar. *)
Definition isna (c : cell) : bool :=
  match c with
  | VFloat NaN | VNaT => true
  | _ => false
  end.

(** The numeric view of a cell (what arithmetic sees). *)
Definition as_float (c : cell) : option float64 :=
  match c with
  | VInt z => Some (of_int z)
  | VFloat x => Some x
  | _ => None
  end.

(** ** Exceptions and the error monad *)

Inductive exn : Type :=
| KeyError (key : string)
| ValueError_length
| ValueError_unseen (label : string)
| ValueError_parse (c : cell)
| ValueError_split
| TypeError
| AttributeError
| FileNotFoundError (path : string)
| EmptyDataError
| ParserError
| LibraryError
| InvalidReference.

Inductive result (A : Type) : Type :=
| Ok (a : A)
| Err (e : exn).
Arguments Ok {A} a.
Arguments Err {A} e.

Definition rbind {A B} (r : result A) (k : A -> result B) : result B :=
  match r with
  | Ok a => k a
  | Err e => Err e
  end.

Declare Scope result_scope.
Delimit Scope result_scope with result.
Notation "x <- e ;; k" := (rbind e (fun x => k))
  (at level 61, e at next level, right associativity) : result_scope.
Notation "' p <- e ;; k" := (rbind e (fun x => match x with p => k end))
  (at level 61, p pattern, e at next level, right associativity) : result_scope.

Fixpoint mapM {A B} (f : A -> result B) (l : list A) : result (list B) :=
  match l with
  | [] => Ok []
  | a :: l' =>
      (b <- f a ;; bs <- mapM f l' ;; Ok (b :: bs))%result
  end.

(** Element-wise binary operation of two columns of one table. *)
Fixpoint zipWithM {A B C} (f : A -> B -> result C) (l1 : list A) (l2 : list B)
  : result (list C) :=
  match l1, l2 with
  | [], [] => Ok []
  | a :: l1', b :: l2' =>
      (c <- f a b ;; cs <- zipWithM f l1' l2' ;; Ok (c :: cs))%result
  | _, _ => Err ValueError_length
  end.

(** ** DataFrame access *)

Definition nrows (df : DataFrame) : nat :=
  match df with
  | [] => 0
  | (_, c) :: _ => List.length c
  end.

Definition columns (df : DataFrame) : list string := map fst df.

Fixpoint lookup_col (df : DataFrame) (col : string) : option column :=
  match df with
  | [] => None
  | (name, c) :: df' => if String.eqb name col then Some c else lookup_col df' col
  end.

(** [df[col]] *)
Definition getitem (df : DataFrame) (col : string) : result column :=
  match lookup_col df col with
  | Some c => Ok c
  | None => Err (KeyError col)
  end.

(** Replace the column in place, or append it when the name is new. *)
Fixpoint put_col (df : DataFrame) (col : string) (vals : column) : DataFrame :=
  match df with
  | [] => [(col, vals)]
  | (name, c) :: df' =>
      if String.eqb name col then (name, vals) :: df'
      else (name, c) :: put_col df' col vals
  end.

(** [df[col] = vals]: the values must have one entry per row. *)
Definition setitem (df : DataFrame) (col : string) (vals : column) : result DataFrame :=
  match df with
  | [] => Ok [(col, vals)]
  | _ => if Nat.eqb (List.length vals) (nrows df) then Ok (put_col df col vals)
         else Err ValueError_length
  end.

(** [df[cols]] with a list of names: a new table with those columns. *)
Definition select (df : DataFrame) (cols : list string) : result DataFrame :=
  mapM (fun col => (c <- getitem df col ;; Ok (col, c))%result) cols.

(** Positional row selection ([iloc] with a list of positions). *)
Definition take_cells (c : column) (idx : list nat) : result column :=
  mapM (fun i => match nth_error c i with
                 | Some v => Ok v
                 | None => Err InvalidReference
                 end) idx.

Definition take_rows (df : DataFrame) (idx : list nat) : result DataFrame :=
  mapM (fun '(name, c) => (c' <- take_cells c idx ;; Ok (name, c'))%result) df.

(** ** Calendar arithmetic on Timestamps *)

Definition ns_per_hour : Z := 3600 * 1000000000.
Definition ns_per_day : Z := 24 * ns_per_hour.

(** Month of the civil date of a day count since 1970-01-01. *)
Definition month_of_days (d : Z) : Z :=
  let z := (d + 719468)%Z in
  let era := (z / 146097)%Z in
  let doe := (z - era * 146097)%Z in
  let yoe := ((doe - doe / 1460 + doe / 36524 - doe / 146096) / 365)%Z in
  let doy := (doe - (365 * yoe + yoe / 4 - yoe / 100))%Z in
  let mp := ((5 * doy + 2) / 153)%Z in
  if (mp <? 10)%Z then (mp + 3)%Z else (mp - 9)%Z.

Definition ts_month (ns : Z) : Z := month_of_days (ns / ns_per_day).
Definition ts_hour (ns : Z) : Z := ((ns mod ns_per_day) / ns_per_hour)%Z.

(** [Timedelta.days]: the day component, rounded towards minus infinity. *)
Definition td_days (ns : Z) : Z := (ns / ns_per_day)%Z.

(** A nullable integer result is a float64 column as soon as one entry is
    missing, an int64 column otherwise. *)
Definition upcast (c : column) : column :=
  if existsb isna c then
    map (fun v => match v with VInt z => VFloat (of_int z) | _ => v end) c
  else c.

(** ** Element-wise operations on cells *)

(** [a - b] on datetime cells. *)
Definition cell_sub_time (a b : cell) : result cell :=
  match a, b with
  | VTime x, VTime y => Ok (VDelta (x - y))
  | VTime _, VNaT | VNaT, VTime _ | VNaT, VNaT => Ok VNaT
  | _, _ => Err TypeError
  end.

Definition cell_dt_days (c : cell) : result cell :=
  match c with
  | VDelta d => Ok (VInt (td_days d))
  | VNaT => Ok (VFloat NaN)
  | _ => Err AttributeError
  end.

Definition cell_dt_month (c : cell) : result cell :=
  match c with
  | VTime t => Ok (VInt (ts_month t))
  | VNaT => Ok (VFloat NaN)
  | _ => Err AttributeError
  end.

Definition cell_dt_hour (c : cell) : result cell :=
  match c with
  | VTime t => Ok (VInt (ts_hour t))
  | VNaT => Ok (VFloat NaN)
  | _ => Err AttributeError
  end.

(** [a / b]: true division, always a float. *)
Definition cell_div (a b : cell) : result cell :=
  match as_float a, as_float b with
  | Some x, Some y => Ok (VFloat (f_div x y))
  | _, _ => Err TypeError
  end.

(** An integer reduced to the range of int64, as two's complement
    arithmetic does. *)
Definition wrap_int64 (z : Z) : Z :=
  ((z + 2 ^ 63) mod 2 ^ 64 - 2 ^ 63)%Z.

(** [a + b]: integers stay integers (and wrap around without an error),
    text is concatenated. *)
Definition cell_add (a b : cell) : result cell :=
  match a, b with
  | VInt x, VInt y => Ok (VInt (wrap_int64 (x + y)))
  | VStr s, VStr t => Ok (VStr (s ++ t)%string)
  | _, _ =>
      match as_float a, as_float b with
      | Some x, Some y => Ok (VFloat (f_add x y))
      | _, _ => Err TypeError
      end
  end.

(** [c == 0] as [Series.replace(0, ...)] tests it. *)
Definition cell_is_zero (c : cell) : bool :=
  match c with
  | VInt z => Z.eqb z 0
  | VFloat (Finite q) => Qzerob q
  | _ => false
  end.

(** [s.replace(0, np.nan)] *)
Definition replace_0_nan (c : column) : column :=
  map (fun v => if cell_is_zero v then VFloat nan else v) c.

(** [.dt.days], [.dt.month], [.dt.hour] on a column. *)
Definition dt_days (c : column) : result column :=
  (r <- mapM cell_dt_days c ;; Ok (upcast r))%result.
Definition dt_month (c : column) : result column :=
  (r <- mapM cell_dt_month c ;; Ok (upcast r))%result.
Definition dt_hour (c : column) : result column :=
  (r <- mapM cell_dt_hour c ;; Ok (upcast r))%result.

(** ** Feature engineering *)

Section FeatureEngineer.

(** [pd.to_datetime] on one scalar that is neither missing nor already a
    Timestamp: the instant it denotes, or [None] when it is rejected. *)
Variable parse_datetime : cell -> option Z.

Definition to_datetime_cell (c : cell) : result cell :=
  match c with
  | VNaT | VFloat NaN => Ok VNaT
  | VTime t => Ok (VTime t)
  | _ => match parse_datetime c with
         | Some t => Ok (VTime t)
         | None => Err (ValueError_parse c)
         end
  end.

(** [pd.to_datetime(col)] with the default [errors='raise']. *)
Definition to_datetime (c : column) : result column :=
  mapM to_datetime_cell c.

(** The function works on [df.copy()], so its assignments are local and
    the caller's table is left alone: it is a function from tables to
    tables. *)
Definition clean_and_engineer (df : DataFrame) : result DataFrame :=
  (acc0 <- getitem df "DateTimeOfAccident" ;;
   acc <- to_datetime acc0 ;;
   df <- setitem df "DateTimeOfAccident" acc ;;
   rep0 <- getitem df "DateReported" ;;
   rep <- to_datetime rep0 ;;
   df <- setitem df "DateReported" rep ;;
   rep <- getitem df "DateReported" ;;
   acc <- getitem df "DateTimeOfAccident" ;;
   delta <- zipWithM cell_sub_time rep acc ;;
   days <- dt_days delta ;;
   df <- setitem df "ReportDelayDays" days ;;
   acc <- getitem df "DateTimeOfAccident" ;;
   month <- dt_month acc ;;
   df <- setitem df "AccidentMonth" month ;;
   acc <- getitem df "DateTimeOfAccident" ;;
   hour <- dt_hour acc ;;
   df <- setitem df "AccidentHour" hour ;;
   wages <- getitem df "WeeklyWages" ;;
   hours <- getitem df "HoursWorkedPerWeek" ;;
   wph <- zipWithM cell_div wages (replace_0_nan hours) ;;
   df <- setitem df "WagePerHour" wph ;;
   children <- getitem df "DependentChildren" ;;
   others <- getitem df "DependentsOther" ;;
   total <- zipWithM cell_add children others ;;
   df <- setitem df "DependentsTotal" total ;;
   Ok df)%result.

End FeatureEngineer.

Definition FEATURES : list string :=
  [ "Age"; "AccidentMonth"; "AccidentHour"; "ReportDelayDays";
    "WeeklyWages"; "HoursWorkedPerWeek"; "DaysWorkedPerWeek";
    "WagePerHour"; "DependentsTotal";
    "Gender"; "MaritalStatus"; "PartTimeFullTime" ].

(** ** Label encoding *)

(** [np.unique] on text: the distinct values in increasing order.  Text is
    compared character by character ([String_as_OT.compare]). *)
Fixpoint insert_class (s : string) (l : list string) : list string :=
  match l with
  | [] => [s]
  | h :: t =>
      match String_as_OT.compare s h with
      | Lt => s :: h :: t
      | Eq => h :: t
      | Gt => h :: insert_class s t
      end
  end.

Definition np_unique (y : list string) : list string :=
  fold_right insert_class [] y.

(** A fitted [LabelEncoder] is its [classes_] array. *)
Record LabelEncoder : Type := { classes_ : list string }.

Fixpoint index_of (s : string) (classes : list string) : option nat :=
  match classes with
  | [] => None
  | h :: t =>
      if String.eqb h s then Some 0
      else match index_of s t with
           | Some i => Some (S i)
           | None => None
           end
  end.

(** [le.fit(y)] *)
Definition fit (y : list string) : LabelEncoder :=
  {| classes_ := np_unique y |}.

(** [le.transform(y)]: the position of every value in [classes_]; a value
    that is not there raises. *)
Definition transform (le : LabelEncoder) (y : list string) : result column :=
  mapM (fun s => match index_of s (classes_ le) with
                 | Some i => Ok (VInt (Z.of_nat i))
                 | None => Err (ValueError_unseen s)
                 end) y.

(** [le.fit_transform(y)]: the classes together with the inverse index of
    [np.unique], which exists for every value of [y]. *)
Definition code_of (classes : list string) (s : string) : cell :=
  match index_of s classes with
  | Some i => VInt (Z.of_nat i)
  | None => VInt (Z.of_nat (List.length classes))
  end.

Definition fit_transform (y : list string) : LabelEncoder * column :=
  let le := fit y in (le, map (code_of (classes_ le)) y).

(** [df.fillna(0)] on a cell, a column and a table. *)
Definition fill0 (c : cell) : cell :=
  match c with
  | VFloat NaN => VFloat (Finite 0)
  | VNaT => VInt 0
  | _ => c
  end.

Definition fillna0 (df : DataFrame) : DataFrame :=
  map (fun '(name, c) => (name, map fill0 c)) df.

(** ** The object heap: DataFrames passed by reference *)

Definition ref : Type := nat.

(** What [pd.read_csv] makes of the content of a file: a table, or an
    exception (an empty file has no columns to parse, a malformed one
    cannot be tokenized, and so on). *)
Inductive csv : Type :=
| Table (df : DataFrame)
| Unreadable (e : exn).

Definition file_system : Type := list (string * csv).

Record world : Type := mkWorld {
  heap : list DataFrame;  (* live DataFrame objects *)
  files : file_system     (* the files, by path *)
}.

(** State that survives an exception: whatever was mutated before the
    raise stays mutated. *)
Definition M (A : Type) : Type := world -> result A * world.

Definition mret {A} (a : A) : M A := fun w => (Ok a, w).

Definition mbind {A B} (m : M A) (k : A -> M B) : M B :=
  fun w => match m w with
           | (Ok a, w') => k a w'
           | (Err e, w') => (Err e, w')
           end.

Definition lift {A} (r : result A) : M A := fun w => (r, w).

Declare Scope m_scope.
Delimit Scope m_scope with M.
Notation "x <- e ;; k" := (mbind e (fun x => k))
  (at level 61, e at next level, right associativity) : m_scope.
Notation "' p <- e ;; k" := (mbind e (fun x => match x with p => k end))
  (at level 61, p pattern, e at next level, right associativity) : m_scope.
Notation "e ;;; k" := (mbind e (fun _ => k))
  (at level 61, right associativity) : m_scope.

Fixpoint update {A} (l : list A) (i : nat) (x : A) : list A :=
  match l, i with
  | [], _ => []
  | _ :: t, O => x :: t
  | h :: t, S i' => h :: update t i' x
  end.

(** A new DataFrame object. *)
Definition new (df : DataFrame) : M ref :=
  fun w => (Ok (List.length (heap w)),
            mkWorld (heap w ++ [df]) (files w)).

Definition deref (r : ref) : M DataFrame :=
  fun w => match nth_error (heap w) r with
           | Some df => (Ok df, w)
           | None => (Err InvalidReference, w)
           end.

Definition assign (r : ref) (df : DataFrame) : M unit :=
  fun w => (Ok tt, mkWorld (update (heap w) r df) (files w)).

(** [obj[col] = vals] on the object behind a reference. *)
Definition df_setitem (r : ref) (col : string) (vals : column) : M unit :=
  (df <- deref r ;;
   df' <- lift (setitem df col vals) ;;
   assign r df')%M.

(** [obj[col]] on the object behind a reference. *)
Definition df_getitem (r : ref) (col : string) : M column :=
  (df <- deref r ;; lift (getitem df col))%M.

Fixpoint for_each {A} (l : list A) (body : A -> M unit) : M unit :=
  match l with
  | [] => mret tt
  | a :: l' => (body a ;;; for_each l' body)%M
  end.

(** ** Encoding and imputation *)

Definition cats : list string := ["Gender"; "MaritalStatus"; "PartTimeFullTime"].

Section Encoder.

(** [str(x)] for a scalar that is neither text nor missing. *)
Variable py_str : cell -> string.

Definition astype_str_cell (c : cell) : string :=
  match c with
  | VStr s => s
  | VFloat NaN => "nan"
  | VNaT => "NaT"
  | _ => py_str c
  end.

(** [col.astype(str)] *)
Definition astype_str (c : column) : list string := map astype_str_cell c.

(** One turn of the loop over [cats]. *)
Definition encode_col (X_train X_test : ref) (col : string) : M unit :=
  (c <- df_getitem X_train col ;;
   let '(le, codes) := fit_transform (astype_str c) in
   df_setitem X_train col codes ;;;
   c' <- df_getitem X_test col ;;
   codes' <- lift (transform le (astype_str c')) ;;
   df_setitem X_test col codes')%M.

(** Both arguments are mutated in place; the two results are new
    objects. *)
Definition encode_and_impute (X_train X_test : ref) : M (ref * ref) :=
  (for_each cats (encode_col X_train X_test) ;;;
   tr <- deref X_train ;;
   a <- new (fillna0 tr) ;;
   te <- deref X_test ;;
   b <- new (fillna0 te) ;;
   mret (a, b))%M.

End Encoder.

(** ** Model selection *)

Inductive algorithm : Type :=
| GradientBoostingRegressor
| RandomForestRegressor
| CatBoostRegressor.

(** An unfitted estimator as the notebook constructs it. *)
Record estimator : Type := { algo : algorithm; random_state : Z }.

Inductive param_value : Type :=
| PInt (z : Z)
| PFloat (q : Q)
| PNone.

Definition param_grid : Type := list (string * list param_value).

(** The dictionary [model_defs], in insertion order. *)
Definition model_defs : list (string * (estimator * param_grid)) :=
  [ ("GradientBoosting",
      ({| algo := GradientBoostingRegressor; random_state := 42 |},
       [ ("n_estimators", [PInt 100; PInt 200]);
         ("max_depth", [PInt 3; PInt 4]);
         ("learning_rate", [PFloat (5 # 100); PFloat (1 # 10)]) ]));
    ("RandomForest",
      ({| algo := RandomForestRegressor; random_state := 42 |},
       [ ("n_estimators", [PInt 100; PInt 200]);
         ("max_depth", [PNone; PInt 10]) ]));
    ("CatBoost",
      ({| algo := CatBoostRegressor; random_state := 42 |},
       [ ("iterations", [PInt 100; PInt 200]);
         ("depth", [PInt 4; PInt 6]);
         ("learning_rate", [PFloat (5 # 100); PFloat (1 # 10)]) ])) ].

(** [len(ParameterGrid(grid))] *)
Definition grid_size (g : param_grid) : nat :=
  fold_right (fun kv n => List.length (snd kv) * n) 1 g.

Fixpoint foldM {A S} (f : S -> A -> result S) (l : list A) (s : S) : result S :=
  match l with
  | [] => Ok s
  | a :: l' => (s' <- f s a ;; foldM f l' s')%result
  end.

Definition target : string := "UltimateIncurredClaimCost".

Section Pipeline.

Variable parse_datetime : cell -> option Z.
Variable py_str : cell -> string.

(** A fitted estimator. *)
Variable fitted : Type.

(** [GridSearchCV(estimator, grid, scoring='neg_root_mean_squared_error',
    cv=5, n_jobs=-1).fit(X, y).best_estimator_] *)
Variable GridSearchCV_fit :
  estimator -> param_grid -> DataFrame -> column -> result fitted.

(** [model.predict(X)] *)
Variable predict : fitted -> DataFrame -> result (list float64).

(** [np.sqrt(mean_squared_error(y_true, y_pred))] *)
Variable root_mean_squared_error : column -> list float64 -> result float64.

(** [model.fit(X, y)] on an already fitted estimator: same
    hyper-parameters, new data. *)
Variable refit : fitted -> DataFrame -> column -> result fitted.

(** The shuffled index split of [train_test_split(test_size=0.2,
    random_state=42)] for a number of samples: the training positions and
    the test positions, or [None] when a side would be empty. *)
Variable shuffle_split : nat -> option (list nat * list nat).

(** The files as the three grid searches, and as the final fit, leave
    them: an estimator may log its training to disk (CatBoost writes the
    directory [catboost_info] while it fits). *)
Variable search_writes : file_system -> file_system.
Variable refit_writes : file_system -> file_system.

(** The running best of the loop: [best_rmse], [best_model], [best_name]. *)
Definition best_state : Type := float64 * option fitted * option string.

(** The first half of the loop body: grid search on the training split,
    then the RMSE of the best estimator on the hold-out split. *)
Definition evaluate (X_tr : DataFrame) (y_tr : column)
    (X_val : DataFrame) (y_val : column)
    (est : estimator) (grid : param_grid) : result (fitted * float64) :=
  (search <- GridSearchCV_fit est grid X_tr y_tr ;;
   y_pred <- predict search X_val ;;
   rmse <- root_mean_squared_error y_val y_pred ;;
   Ok (search, rmse))%result.

(** The body of the loop over [model_defs.items()]. *)
Definition compare_step (X_tr : DataFrame) (y_tr : column)
    (X_val : DataFrame) (y_val : column)
    (st : best_state) (def : string * (estimator * param_grid))
  : result best_state :=
  let '(best_rmse, best_model, best_name) := st in
  let '(name, (est, grid)) := def in
  ('(search, rmse) <- evaluate X_tr y_tr X_val y_val est grid ;;
   if f_ltb rmse best_rmse
   then Ok (rmse, Some search, Some name)
   else Ok (best_rmse, best_model, best_name))%result.

Definition compare_loop (X_tr : DataFrame) (y_tr : column)
    (X_val : DataFrame) (y_val : column)
    (defs : list (string * (estimator * param_grid)))
  : result best_state :=
  foldM (compare_step X_tr y_tr X_val y_val) defs (inf, None, None).

Definition compare_models (X_tr : DataFrame) (y_tr : column)
    (X_val : DataFrame) (y_val : column)
  : result (option fitted * float64) :=
  ('(best_rmse, best_model, _) <-
     compare_loop X_tr y_tr X_val y_val model_defs ;;
   Ok (best_model, best_rmse))%result.

Definition train_test_split (X : DataFrame) (y : column)
  : result (DataFrame * DataFrame * column * column) :=
  if negb (Nat.eqb (List.length y) (nrows X)) then Err ValueError_length
  else
    match shuffle_split (nrows X) with
    | None => Err ValueError_split
    | Some (ind_train, ind_test) =>
        (X_tr <- take_rows X ind_train ;;
         X_val <- take_rows X ind_test ;;
         y_tr <- take_cells y ind_train ;;
         y_val <- take_cells y ind_test ;;
         Ok (X_tr, X_val, y_tr, y_val))%result
    end.

(** ** Files *)

(** The content of the file at a path; the latest write comes first. *)
Fixpoint find_content (fs : file_system) (path : string) : option csv :=
  match fs with
  | [] => None
  | (p, c) :: fs' => if String.eqb p path then Some c else find_content fs' path
  end.

(** The table of the file at a path, when there is a file that holds
    one. *)
Definition find_file (fs : file_system) (path : string) : option DataFrame :=
  match find_content fs path with
  | Some (Table df) => Some df
  | _ => None
  end.

(** [pd.read_csv(path)]: a new DataFrame object with the file's table.  A
    path without a file raises [FileNotFoundError]; a file that cannot be
    read as a table raises the parser's exception. *)
Definition read_csv (path : string) : M ref :=
  fun w => match find_content (files w) path with
           | Some (Table df) => new df w
           | Some (Unreadable e) => (Err e, w)
           | None => (Err (FileNotFoundError path), w)
           end.

(** [obj.to_csv(path, index=False)] *)
Definition to_csv (r : ref) (path : string) : M unit :=
  (df <- deref r ;;
   fun w => (Ok tt, mkWorld (heap w) ((path, Table df) :: files w)))%M.

(** A call into an estimator library: its result, and whatever it writes
    into the working directory on the way. *)
Definition library_call {A} (writes : file_system -> file_system)
    (r : result A) : M A :=
  fun w => (r, mkWorld (heap w) (writes (files w))).

Definition load_data (train_path test_path submission_path : string)
  : M (ref * ref * ref) :=
  (a <- read_csv train_path ;;
   b <- read_csv test_path ;;
   c <- read_csv submission_path ;;
   mret (a, b, c))%M.

(** A call of [clean_and_engineer]: the result is a new object. *)
Definition call_clean_and_engineer (r : ref) : M ref :=
  (df <- deref r ;;
   df' <- lift (clean_and_engineer parse_datetime df) ;;
   new df')%M.

(** [obj[cols]]: a new object. *)
Definition df_select (r : ref) (cols : list string) : M ref :=
  (df <- deref r ;;
   df' <- lift (select df cols) ;;
   new df')%M.

(** ** The pipeline driver *)

Definition main : M fitted :=
  ('(train, test, submission) <-
     load_data "train.csv" "test.csv" "sample_submission.csv" ;;
   train <- call_clean_and_engineer train ;;
   test <- call_clean_and_engineer test ;;
   X <- df_select train FEATURES ;;
   y <- df_getitem train target ;;
   X_test <- df_select test FEATURES ;;
   '(X, X_test) <- encode_and_impute py_str X X_test ;;
   Xd <- deref X ;;
   '(X_tr, X_val, y_tr, y_val) <- lift (train_test_split Xd y) ;;
   '(best_model, best_rmse) <-
     library_call search_writes (compare_models X_tr y_tr X_val y_val) ;;
   match best_model with
   | None => lift (Err AttributeError)
   | Some best =>
       Xd <- deref X ;;
       model <- library_call refit_writes (refit best Xd y) ;;
       Xt <- deref X_test ;;
       y_hat <- lift (predict model Xt) ;;
       df_setitem submission target (map VFloat y_hat) ;;;
       to_csv submission "submission.csv" ;;;
       mret model
   end)%M.

End Pipeline.


(** ** Concrete instances of the library calls, for running the model *)

(** Timestamps written [YYYY-MM-DDTHH:MM:SSZ], the format of the
    competition files. *)
Definition digit (a : ascii) : option Z :=
  let n := Z.of_nat (nat_of_ascii a) in
  if ((48 <=? n) && (n <=? 57))%Z then Some (n - 48)%Z else None.

Fixpoint number (l : list ascii) (acc : Z) : option Z :=
  match l with
  | [] => Some acc
  | a :: l' =>
      match digit a with
      | Some d => number l' (10 * acc + d)%Z
      | None => None
      end
  end.

Definition days_from_civil (y m d : Z) : Z :=
  let y' := if (m <=? 2)%Z then (y - 1)%Z else y in
  let era := (y' / 400)%Z in
  let yoe := (y' - era * 400)%Z in
  let mp := if (m <=? 2)%Z then (m + 9)%Z else (m - 3)%Z in
  let doy := ((153 * mp + 2) / 5 + d - 1)%Z in
  let doe := (yoe * 365 + yoe / 4 - yoe / 100 + doy)%Z in
  (era * 146097 + doe - 719468)%Z.

Definition iso_datetime (c : cell) : option Z :=
  match c with
  | VStr s =>
      match list_ascii_of_string s with
      | [y1; y2; y3; y4; "-"%char; m1; m2; "-"%char; d1; d2; "T"%char;
         h1; h2; ":"%char; n1; n2; ":"%char; s1; s2; "Z"%char] =>
          match number [y1; y2; y3; y4] 0, number [m1; m2] 0, number [d1; d2] 0,
                number [h1; h2] 0, number [n1; n2] 0, number [s1; s2] 0 with
          | Some y, Some m, Some d, Some h, Some n, Some sec =>
              if ((1 <=? m) && (m <=? 12) && (1 <=? d) && (d <=? 31)
                  && (h <=? 23) && (n <=? 59) && (sec <=? 59))%Z
              then Some ((days_from_civil y m d * 86400 + h * 3600 + n * 60 + sec)
                         * 1000000000)%Z
              else None
          | _, _, _, _, _, _ => None
          end
      | _ => None
      end
  | _ => None
  end.

(** Text of an integer; other scalars do not occur in the examples. *)
Definition decimal_str (c : cell) : string :=
  match c with
  | VInt z => DecimalString.NilZero.string_of_int (Z.to_int z)
  | _ => ""
  end.

(** A table with every column the pipeline reads. *)
Definition claims_table (accident reported : list string)
    (age wages hours days children others : list Z)
    (gender marital parttime : list string) : DataFrame :=
  [ ("DateTimeOfAccident", map VStr accident);
    ("DateReported", map VStr reported);
    ("Age", map VInt age);
    ("WeeklyWages", map VInt wages);
    ("HoursWorkedPerWeek", map VInt hours);
    ("DaysWorkedPerWeek", map VInt days);
    ("DependentChildren", map VInt children);
    ("DependentsOther", map VInt others);
    ("Gender", map VStr gender);
    ("MaritalStatus", map VStr marital);
    ("PartTimeFullTime", map VStr parttime) ].

(** The two training rows of the specification's first scenario. *)
Definition scenario_train : DataFrame :=
  claims_table
    ["2002-04-09T07:00:00Z"; "2002-04-10T09:30:00Z"]
    ["2002-07-05T00:00:00Z"; "2002-04-10T08:30:00Z"]
    [30; 45]%Z [600; 0]%Z [40; 0]%Z [5; 5]%Z [0; 1]%Z [0; 2]%Z
    ["M"; "F"] ["S"; "M"] ["F"; "P"].

Definition scenario_test : DataFrame :=
  claims_table
    ["2003-01-01T00:00:00Z"] ["2003-01-03T12:00:00Z"]
    [51]%Z [500]%Z [38]%Z [5]%Z [2]%Z [0]%Z
    ["F"] ["M"] ["F"].

(** Constant predictors as fitted estimators: the family and the value
    predicted for every row. *)
Definition const_model : Type := algorithm * Q.

Definition const_search (level : algorithm -> Q)
    (est : estimator) (_ : param_grid) (_ : DataFrame) (_ : column)
  : result const_model :=
  Ok (algo est, level (algo est)).

Definition const_predict (m : const_model) (X : DataFrame)
  : result (list float64) :=
  Ok (repeat (Finite (snd m)) (nrows X)).

Definition const_refit (m : const_model) (_ : DataFrame) (_ : column)
  : result const_model :=
  Ok m.

(** The root of a rational that is a square of a rational. *)
Definition exact_sqrt (q : Q) : option Q :=
  let r := Qred q in
  let n := Z.sqrt (Qnum r) in
  let d := Z.sqrt (Zpos (Qden r)) in
  if ((n * n =? Qnum r) && (d * d =? Zpos (Qden r)))%Z
  then Some (Qred (Qmake n (Z.to_pos d)))
  else None.

Fixpoint squared_errors (y : column) (p : list float64) : option Q :=
  match y, p with
  | [], [] => Some 0%Q
  | c :: y', Finite b :: p' =>
      match as_float c, squared_errors y' p' with
      | Some (Finite a), Some s => Some ((a - b) * (a - b) + s)%Q
      | _, _ => None
      end
  | _, _ => None
  end.

Definition exact_rmse (y : column) (p : list float64) : result float64 :=
  match y, squared_errors y p with
  | _ :: _, Some s =>
      match exact_sqrt (s / inject_Z (Z.of_nat (List.length y))) with
      | Some r => Ok (Finite r)
      | None => Err LibraryError
      end
  | _, _ => Err LibraryError
  end.

(** The first row is held out, the others train. *)
Definition head_split (n : nat) : option (list nat * list nat) :=
  if Nat.ltb n 2 then None else Some (seq 1 (n - 1), [0]).

(** Predictions of the three families in the examples. *)
Definition levels (a : algorithm) : Q :=
  match a with
  | GradientBoostingRegressor => 12
  | RandomForestRegressor => 10
  | CatBoostRegressor => 10
  end.

Definition toy_X : DataFrame := [("Age", [VInt 30; VInt 45; VInt 50])].
Definition toy_y : column := [VInt 9; VInt 14; VInt 11].

(** The files of one run. *)
Definition scenario_train_file : DataFrame :=
  scenario_train ++ [(target, [VInt 9; VInt 14])].

Definition scenario_submission : DataFrame :=
  [("ClaimNumber", [VStr "WC0001"]); (target, [VInt 0])].

Definition scenario_world : world :=
  mkWorld [] [ ("train.csv", Table scenario_train_file);
               ("test.csv", Table scenario_test);
               ("sample_submission.csv", Table scenario_submission) ].

(** The log that CatBoost leaves behind; it is not a table. *)
Definition catboost_log : string := "catboost_info/catboost_training.json".

Definition catboost_writes (fs : file_system) : file_system :=
  (catboost_log, Unreadable ParserError) :: fs.

(** ** The specification's wording of the report delay *)

(** A difference in whole days with the partial day cut off. *)
Definition truncated_days (ns : Z) : Z := Z.quot ns ns_per_day.

(** "ReportDelayDays is the difference in whole days, the partial day
    truncated, and negative whenever the report precedes the accident." *)
Definition report_delay_truncates (parse_datetime : cell -> option Z) : Prop :=
  forall (df df' : DataFrame) (acc rep : column) (i : nat) (a r : Z),
    clean_and_engineer parse_datetime df = Ok df' ->
    lookup_col df' "DateTimeOfAccident" = Some acc ->
    lookup_col df' "DateReported" = Some rep ->
    nth_error acc i = Some (VTime a) ->
    nth_error rep i = Some (VTime r) ->
    exists days v,
      lookup_col df' "ReportDelayDays" = Some days /\
      nth_error days i = Some v /\
      as_float v = Some (of_int (truncated_days (r - a))) /\
      ((r < a)%Z -> (truncated_days (r - a) < 0)%Z).

(** A cell that [pd.to_datetime] rejects: it is not missing, not already a
    Timestamp, and the parser has no instant for it. *)
Definition malformed (parse_datetime : cell -> option Z) (c : cell) : bool :=
  match c with
  | VNaT | VFloat NaN | VTime _ => false
  | _ => match parse_datetime c with
         | Some _ => false
         | None => true
         end
  end.

(** The engineered training table of the scenario. *)
Definition scenario_engineered : DataFrame :=
  Eval cbv in
    match clean_and_engineer iso_datetime scenario_train with
    | Ok df => df
    | Err _ => []
    end.

(** The feature matrices of the scenario, as [main] builds them, and a
    heap that holds them at references 0 and 1. *)
Definition scenario_X : DataFrame :=
  Eval cbv in
    match select scenario_engineered FEATURES with
    | Ok df => df
    | Err _ => []
    end.

Definition scenario_X_test : DataFrame :=
  Eval cbv in
    match (df <- clean_and_engineer iso_datetime scenario_test ;;
           select df FEATURES)%result with
    | Ok df => df
    | Err _ => []
    end.

Definition scenario_heap : world := mkWorld [scenario_X; scenario_X_test] [].

(** The scenario with a test row whose Gender the training rows do not
    have. *)
Definition scenario_X_test_unseen : DataFrame :=
  put_col scenario_X_test "Gender" [VStr "U"].

Definition scenario_heap_unseen : world :=
  mkWorld [scenario_X; scenario_X_test_unseen] [].

(** A one-row hold-out set for the constant predictors. *)
Definition toy_X_val : DataFrame := [("Age", [VInt 30])].
Definition toy_y_val : column := [VInt 9].

(** What each family scores on the hold-out row: errors 3, 1 and 1. *)
Definition toy_evals : list (const_model * Q) :=
  [ ((GradientBoostingRegressor, 12%Q), 3%Q);
    ((RandomForestRegressor, 10%Q), 1%Q);
    ((CatBoostRegressor, 10%Q), 1%Q) ].

(** A table whose second accident timestamp is not a timestamp. *)
Definition scenario_malformed : DataFrame :=
  claims_table
    ["2002-04-09T07:00:00Z"; "yesterday"]
    ["2002-07-05T00:00:00Z"; "2002-04-10T08:30:00Z"]
    [30; 45]%Z [600; 0]%Z [40; 0]%Z [5; 5]%Z [0; 1]%Z [0; 2]%Z
    ["M"; "F"] ["S"; "M"] ["F"; "P"].

(** An integer code of a label encoder. *)
Definition is_code (c : cell) : bool :=
  match c with
  | VInt z => (0 <=? z)%Z
  | _ => false
  end.

(** A table that has the three categorical columns, each with one entry
    per row. *)
Definition has_cats (df : DataFrame) : Prop :=
  forall col, In col cats ->
    exists c, lookup_col df col = Some c /\ List.length c = nrows df.

(** ** Shapes of tables *)

(** Every column has one entry per row. *)
Definition rectangular (df : DataFrame) : Prop :=
  Forall (fun p => List.length (snd p) = nrows df) df.

(** The columns that [clean_and_engineer] reads from its argument. *)
Definition required_columns : list string :=
  [ "DateTimeOfAccident"; "DateReported"; "WeeklyWages";
    "HoursWorkedPerWeek"; "DependentChildren"; "DependentsOther" ].

(** The columns that [clean_and_engineer] derives, in the order of its
    assignments. *)
Definition derived_columns : list string :=
  [ "ReportDelayDays"; "AccidentMonth"; "AccidentHour"; "WagePerHour";
    "DependentsTotal" ].

(** The table after the seven assignments of [clean_and_engineer]. *)
Definition engineered (df : DataFrame)
    (acc rep days month hour wph total : column) : DataFrame :=
  put_col
    (put_col
       (put_col
          (put_col
             (put_col
                (put_col (put_col df "DateTimeOfAccident" acc)
                   "DateReported" rep)
                "ReportDelayDays" days)
             "AccidentMonth" month)
          "AccidentHour" hour)
       "WagePerHour" wph)
    "DependentsTotal" total.

(** A table with a missing accident timestamp in its second row. *)
Definition scenario_missing : DataFrame :=
  put_col scenario_train "DateTimeOfAccident"
    [VStr "2002-04-09T07:00:00Z"; VFloat NaN].

(** The names that [clean_and_engineer] assigns. *)
Definition assigned_columns : list string :=
  "DateTimeOfAccident" :: "DateReported" :: derived_columns.

(** ** Effects of a computation on the world *)

(** Every run of [m], whether it returns or raises, relates the world
    before to the world after by [R]. *)
Definition preserves {A} (R : world -> world -> Prop) (m : M A) : Prop :=
  forall w r w', m w = (r, w') -> R w w'.

(** The files are as before. *)
Definition same_files (w w' : world) : Prop := files w' = files w.

(** No object was created, and the files and every object outside [P] are
    as before. *)
Definition frame_except (P : ref -> Prop) (w w' : world) : Prop :=
  files w' = files w /\
  List.length (heap w') = List.length (heap w) /\
  forall x, ~ P x -> nth_error (heap w') x = nth_error (heap w) x.

(** A grid search that fails for the random forest. *)
Definition forest_fails (level : algorithm -> Q)
    (est : estimator) (g : param_grid) (X : DataFrame) (y : column)
  : result const_model :=
  match algo est with
  | RandomForestRegressor => Err LibraryError
  | _ => const_search level est g X y
  end.

(** A metric that has overflowed to infinity. *)
Definition overflowed_rmse (_ : column) (_ : list float64) : result float64 :=
  Ok PInf.

(** The files outside the paths [lib] are as before. *)
Definition kept (lib : string -> Prop) (fs fs' : file_system) : Prop :=
  forall path, ~ lib path -> find_content fs' path = find_content fs path.

Definition keeps_files (lib : string -> Prop) (w w' : world) : Prop :=
  kept lib (files w) (files w').

(** What a run does to the files, given how it ended. *)
Definition file_effect {A}
    (Q : result A -> file_system -> file_system -> Prop) (m : M A) : Prop :=
  forall w r w', m w = (r, w') -> Q r (files w) (files w').

(** Outside the paths [lib], one file is written, and only when the run
    returns. *)
Definition writes_on_success {A} (lib : string -> Prop) (path : string)
    (r : result A) (fs fs' : file_system) : Prop :=
  match r with
  | Ok _ =>
      (exists out, find_content fs' path = Some (Table out)) /\
      forall p, ~ lib p -> p <> path -> find_content fs' p = find_content fs p
  | Err _ => kept lib fs fs'
  end.

(** A directory without the competition files, one where the test file
    is missing, and one where it is empty. *)
Definition empty_world : world := mkWorld [] [].

Definition no_test_world : world :=
  mkWorld [] [ ("train.csv", Table scenario_train_file);
               ("sample_submission.csv", Table scenario_submission) ].

Definition empty_test_world : world :=
  mkWorld [] [ ("train.csv", Table scenario_train_file);
               ("test.csv", Unreadable EmptyDataError);
               ("sample_submission.csv", Table scenario_submission) ].

(** ** The specification's wording of the selection rule *)

(** "For every sequence of per-family hold-out RMSE values, the returned
    model is the best estimator of the family with the lowest hold-out
    RMSE, and when two families have equal RMSE the family evaluated
    earlier is kept." *)
Definition selects_lowest_rmse (fitted : Type)
    (GridSearchCV_fit :
       estimator -> param_grid -> DataFrame -> column -> result fitted)
    (predict : fitted -> DataFrame -> result (list float64))
    (root_mean_squared_error : column -> list float64 -> result float64)
  : Prop :=
  forall (X_tr : DataFrame) (y_tr : column) (X_val : DataFrame) (y_val : column)
         (evals : list (fitted * float64)),
    Forall2
      (fun def ev =>
         evaluate fitted GridSearchCV_fit predict root_mean_squared_error
           X_tr y_tr X_val y_val (fst (snd def)) (snd (snd def)) = Ok ev)
      model_defs evals ->
    exists k m r,
      nth_error evals k = Some (m, r) /\
      compare_models fitted GridSearchCV_fit predict root_mean_squared_error
        X_tr y_tr X_val y_val = Ok (Some m, r) /\
      forall j m' r', nth_error evals j = Some (m', r') ->
        f_ltb r' r = false /\ (j < k -> f_ltb r r' = true).

(** * Properties *)

(** ** The error monad *)

Lemma rbind_Ok {A B} (r : result A) (k : A -> result B) (b : B) :
  rbind r k = Ok b -> exists a, r = Ok a /\ k a = Ok b.
Proof.
  destruct r as [a|e]; simpl; intros H; [eauto | discriminate].
Qed.

Ltac inv_result :=
  repeat match goal with
    | H : rbind _ _ = Ok _ |- _ =>
        let a := fresh "x" in
        let Ha := fresh "E" in
        apply rbind_Ok in H; destruct H as (a & Ha & H)
    | H : Ok _ = Ok _ |- _ => injection H as H; try subst
    | H : Err _ = Ok _ |- _ => discriminate H
    end.

Lemma mapM_nth {A B} (f : A -> result B) (l : list A) (l' : list B) :
  mapM f l = Ok l' ->
  forall i a, nth_error l i = Some a ->
    exists b, nth_error l' i = Some b /\ f a = Ok b.
Proof.
  revert l'; induction l as [|h t IH]; intros l' H i a Hi.
  - destruct i; discriminate.
  - simpl in H. inv_result.
    destruct i as [|i]; simpl in *.
    + injection Hi as ->. eauto.
    + eapply IH; eauto.
Qed.

Lemma mapM_length {A B} (f : A -> result B) (l : list A) (l' : list B) :
  mapM f l = Ok l' -> List.length l' = List.length l.
Proof.
  revert l'; induction l as [|h t IH]; intros l' H; simpl in H; inv_result.
  - reflexivity.
  - simpl. f_equal. eauto.
Qed.

Lemma mapM_In_Err {A B} (f : A -> result B) (l : list A) (a : A) (e : exn) :
  In a l -> f a = Err e -> exists e', mapM f l = Err e'.
Proof.
  induction l as [|h t IH]; intros Hin Hf; [destruct Hin|].
  simpl. destruct (f h) as [b|e0] eqn:Eh; simpl; [|eauto].
  destruct Hin as [->|Hin]; [congruence|].
  destruct (IH Hin Hf) as [e' ->]. simpl. eauto.
Qed.

Lemma zipWithM_nth {A B C} (f : A -> B -> result C) l1 l2 l3 :
  zipWithM f l1 l2 = Ok l3 ->
  forall i a b, nth_error l1 i = Some a -> nth_error l2 i = Some b ->
    exists c, nth_error l3 i = Some c /\ f a b = Ok c.
Proof.
  revert l2 l3; induction l1 as [|h t IH]; intros [|h2 t2] l3 H i a b H1 H2;
    simpl in H; try discriminate.
  - destruct i; discriminate.
  - inv_result. destruct i as [|i]; simpl in *.
    + injection H1 as ->. injection H2 as ->. eauto.
    + eapply IH; eauto.
Qed.

(** ** Columns of a table *)

Lemma lookup_put_col (df : DataFrame) (col col' : string) (v : column) :
  lookup_col (put_col df col v) col' =
  if String.eqb col col' then Some v else lookup_col df col'.
Proof.
  induction df as [|[name c] df IH]; simpl.
  - reflexivity.
  - destruct (String.eqb_spec name col) as [->|Hne]; simpl.
    + destruct (String.eqb col col'); reflexivity.
    + rewrite IH. destruct (String.eqb_spec name col') as [->|Hne'].
      * destruct (String.eqb_spec col col'); congruence.
      * reflexivity.
Qed.

Lemma setitem_put_col (df df' : DataFrame) (col : string) (v : column) :
  setitem df col v = Ok df' -> df' = put_col df col v.
Proof.
  unfold setitem. destruct df as [|p df].
  - intros H. injection H as <-. reflexivity.
  - destruct (Nat.eqb _ _); intros H; [injection H as <-; reflexivity | discriminate].
Qed.

Lemma lookup_setitem (df df' : DataFrame) (col col' : string) (v : column) :
  setitem df col v = Ok df' ->
  lookup_col df' col' = if String.eqb col col' then Some v else lookup_col df col'.
Proof.
  intros H. apply setitem_put_col in H. subst. apply lookup_put_col.
Qed.

Lemma getitem_Ok (df : DataFrame) (col : string) (c : column) :
  getitem df col = Ok c <-> lookup_col df col = Some c.
Proof.
  unfold getitem. destruct (lookup_col df col); split; congruence.
Qed.

Lemma upcast_nth (c : column) (i : nat) (v : cell) :
  nth_error c i = Some v ->
  exists v', nth_error (upcast c) i = Some v' /\ as_float v' = as_float v.
Proof.
  intros H. unfold upcast. destruct (existsb isna c).
  - rewrite nth_error_map, H. simpl. destruct v; eauto.
  - eauto.
Qed.

Lemma upcast_nth_float (c : column) (i : nat) (x : float64) :
  nth_error c i = Some (VFloat x) -> nth_error (upcast c) i = Some (VFloat x).
Proof.
  intros H. unfold upcast. destruct (existsb isna c); [|assumption].
  rewrite nth_error_map, H. reflexivity.
Qed.

(** ** Rounding to binary64 *)

Section Binary64Facts.

Local Open Scope Q_scope.

Lemma round_half_even_bounds (N D : Z) :
  (0 < D)%Z -> (0 <= N)%Z ->
  (0 <= round_half_even N D)%Z /\
  (- D <= 2 * (round_half_even N D * D) - 2 * N <= D)%Z.
Proof.
  intros HD HN. unfold round_half_even.
  pose proof (Z.div_mod N D ltac:(lia)) as E.
  pose proof (Z.mod_pos_bound N D HD) as B.
  pose proof (Z.div_pos N D HN HD) as P.
  set (q := (N / D)%Z) in *. set (r := (N mod D)%Z) in *.
  destruct (Z.ltb_spec (2 * r) D); [split; nia|].
  destruct (Z.ltb_spec D (2 * r)); [split; nia|].
  destruct (Z.even q); split; nia.
Qed.

Lemma round_half_even_error (N D : Z) :
  (0 < D)%Z -> (0 <= N)%Z ->
  (Qabs (inject_Z (round_half_even N D) - inject_Z N / inject_Z D) <= 1 # 2)%Q.
Proof.
  intros HD HN.
  destruct (round_half_even_bounds N D HD HN) as [_ [L U]].
  set (m := round_half_even N D) in *.
  assert (DQ : (0 < inject_Z D)%Q) by (rewrite <- (Zlt_Qlt 0); exact HD).
  assert (LQ : (- inject_Z D <= 2 * (inject_Z m * inject_Z D) - 2 * inject_Z N)%Q).
  { rewrite <- inject_Z_mult, <- !(inject_Z_mult 2), <- inject_Z_opp.
    unfold Qminus. rewrite <- inject_Z_opp, <- inject_Z_plus.
    rewrite <- Zle_Qle. lia. }
  assert (UQ : (2 * (inject_Z m * inject_Z D) - 2 * inject_Z N <= inject_Z D)%Q).
  { rewrite <- inject_Z_mult, <- !(inject_Z_mult 2).
    unfold Qminus. rewrite <- inject_Z_opp, <- inject_Z_plus.
    rewrite <- Zle_Qle. lia. }
  set (y := (inject_Z N / inject_Z D)%Q).
  assert (Y : (y * inject_Z D == inject_Z N)%Q).
  { unfold y. field. intros H. rewrite H in DQ. discriminate DQ. }
  rewrite <- Y in LQ, UQ.
  apply Qabs_Qle_condition. split.
  - apply (Qmult_le_r _ _ (inject_Z D) DQ). lra.
  - apply (Qmult_le_r _ _ (inject_Z D) DQ). lra.
Qed.


Lemma pow2_pos (k : Z) : 0 < 2 ^ k.
Proof. apply Qpower_0_lt. reflexivity. Qed.

Lemma pow2_succ (k : Z) : 2 ^ (k + 1) == 2 * 2 ^ k.
Proof. rewrite Qpower_plus by discriminate. simpl (2 ^ 1). ring. Qed.

Lemma pow2_pred (k : Z) : 2 * 2 ^ (k - 1) == 2 ^ k.
Proof.
  rewrite <- pow2_succ. replace (k - 1 + 1)%Z with k by lia. reflexivity.
Qed.

Lemma pow2_inject (k : Z) : (0 <= k)%Z -> inject_Z (2 ^ k) == 2 ^ k.
Proof. intros H. apply (Zpower_Qpower 2 k H). Qed.

Lemma pow2_opp (k : Z) : 2 ^ k * 2 ^ (- k) == 1.
Proof.
  rewrite <- Qpower_plus by discriminate.
  replace (k + - k)%Z with 0%Z by lia. reflexivity.
Qed.

Lemma log2_bounds (n : Z) :
  (0 < n)%Z -> 2 ^ Z.log2 n <= inject_Z n /\ inject_Z n < 2 * 2 ^ Z.log2 n.
Proof.
  intros H. destruct (Z.log2_spec n H) as [L U].
  pose proof (Z.log2_nonneg n) as P.
  split.
  - rewrite <- pow2_inject by exact P. rewrite <- Zle_Qle. exact L.
  - rewrite <- pow2_succ. rewrite <- pow2_inject by lia.
    rewrite <- Zlt_Qlt. exact U.
Qed.

Lemma inject_pos (d : Z) : (0 < d)%Z -> 0 < inject_Z d.
Proof. intros H. rewrite <- (Zlt_Qlt 0). exact H. Qed.

Lemma below_pow2_true (n d k : Z) :
  (0 < d)%Z -> below_pow2 n d k = true -> inject_Z n / inject_Z d < 2 ^ k.
Proof.
  intros Hd. unfold below_pow2. pose proof (inject_pos d Hd) as DQ.
  destruct (Z.leb_spec 0 k) as [Hk|Hk]; intros H; apply Z.ltb_lt in H.
  - apply Qlt_shift_div_r; [exact DQ|].
    rewrite <- pow2_inject by exact Hk. rewrite <- inject_Z_mult, <- Zlt_Qlt. lia.
  - apply Qlt_shift_div_r; [exact DQ|].
    apply (Qmult_lt_r _ _ (2 ^ (- k)) (pow2_pos _)).
    setoid_replace (2 ^ k * inject_Z d * 2 ^ (- k)) with (inject_Z d)
      by (rewrite <- (Qmult_1_l (inject_Z d)) at 2; rewrite <- (pow2_opp k); ring).
    rewrite <- pow2_inject by lia. rewrite <- inject_Z_mult, <- Zlt_Qlt. exact H.
Qed.

Lemma below_pow2_false (n d k : Z) :
  (0 < d)%Z -> below_pow2 n d k = false -> 2 ^ k <= inject_Z n / inject_Z d.
Proof.
  intros Hd. unfold below_pow2. pose proof (inject_pos d Hd) as DQ.
  destruct (Z.leb_spec 0 k) as [Hk|Hk]; intros H; apply Z.ltb_ge in H.
  - apply Qle_shift_div_l; [exact DQ|].
    rewrite <- pow2_inject by exact Hk. rewrite <- inject_Z_mult, <- Zle_Qle. lia.
  - apply Qle_shift_div_l; [exact DQ|].
    apply (Qmult_le_r _ _ (2 ^ (- k)) (pow2_pos _)).
    setoid_replace (2 ^ k * inject_Z d * 2 ^ (- k)) with (inject_Z d)
      by (rewrite <- (Qmult_1_l (inject_Z d)) at 2; rewrite <- (pow2_opp k); ring).
    rewrite <- pow2_inject by lia. rewrite <- inject_Z_mult, <- Zle_Qle. exact H.
Qed.

(** The binade of a positive rational. *)
Lemma binade_bounds (n d : Z) :
  (0 < n)%Z -> (0 < d)%Z ->
  let k := (Z.log2 n - Z.log2 d)%Z in
  let p := if below_pow2 n d k then (k - 1)%Z else k in
  2 ^ p <= inject_Z n / inject_Z d /\ inject_Z n / inject_Z d < 2 * 2 ^ p.
Proof.
  intros Hn Hd k p. pose proof (inject_pos d Hd) as DQ.
  destruct (log2_bounds n Hn) as [Ln Un]. destruct (log2_bounds d Hd) as [Ld Ud].
  assert (K : 2 ^ Z.log2 n == 2 ^ k * 2 ^ Z.log2 d).
  { rewrite <- Qpower_plus by discriminate. unfold k.
    replace (Z.log2 n - Z.log2 d + Z.log2 d)%Z with (Z.log2 n) by lia. reflexivity. }
  pose proof (pow2_pos k) as Kp. pose proof (pow2_pos (Z.log2 d)) as Bp.
  set (x := inject_Z n / inject_Z d).
  assert (X : x * inject_Z d == inject_Z n).
  { unfold x. field. intros H. rewrite H in DQ. discriminate DQ. }
  unfold p. destruct (below_pow2 n d k) eqn:E.
  - apply below_pow2_true in E; [|exact Hd]. fold x in E.
    rewrite pow2_pred. split; [|exact E].
    apply (Qmult_le_r _ _ (inject_Z d) DQ). rewrite X.
    apply (Qmult_le_l _ _ 2); [reflexivity|].
    setoid_replace (2 * (2 ^ (k - 1) * inject_Z d)) with (2 ^ k * inject_Z d)
      by (rewrite <- (pow2_pred k); ring).
    apply Qle_trans with (2 ^ k * (2 * 2 ^ Z.log2 d)).
    + apply Qmult_le_l; [exact Kp | apply Qlt_le_weak; exact Ud].
    + rewrite K in Ln. lra.
  - apply below_pow2_false in E; [|exact Hd]. fold x in E.
    split; [exact E|].
    apply (Qmult_lt_r _ _ (inject_Z d) DQ). rewrite X.
    apply Qlt_le_trans with (2 * 2 ^ Z.log2 n); [exact Un|].
    rewrite K.
    setoid_replace (2 * (2 ^ k * 2 ^ Z.log2 d)) with (2 * 2 ^ k * 2 ^ Z.log2 d) by ring.
    apply Qmult_le_l; [lra | exact Ld].
Qed.

(** The mantissa is the scaled value rounded to an integer. *)
Lemma mantissa_error (n d : Z) (e : Z) :
  (0 < n)%Z -> (0 < d)%Z ->
  let m := if (0 <=? e)%Z then round_half_even n (d * 2 ^ e)
           else round_half_even (n * 2 ^ (- e)) d in
  (0 <= m)%Z /\
  Qabs (inject_Z m * 2 ^ e - inject_Z n / inject_Z d) <= (1 # 2) * 2 ^ e.
Proof.
  intros Hn Hd m. pose proof (inject_pos d Hd) as DQ.
  pose proof (pow2_pos e) as Ep.
  assert (Dnz : ~ inject_Z d == 0) by (intros H; rewrite H in DQ; discriminate DQ).
  assert (Enz : ~ 2 ^ e == 0) by (intros H; rewrite H in Ep; discriminate Ep).
  assert (G : exists N D, (0 < D)%Z /\ (0 <= N)%Z /\ m = round_half_even N D /\
                inject_Z N / inject_Z D == inject_Z n / inject_Z d / 2 ^ e).
  { unfold m. destruct (Z.leb_spec 0 e) as [He|He].
    - exists n, (d * 2 ^ e)%Z.
      assert (0 < 2 ^ e)%Z by (apply Z.pow_pos_nonneg; lia).
      split; [nia|]. split; [lia|]. split; [reflexivity|].
      rewrite inject_Z_mult, pow2_inject by exact He. field. split; assumption.
    - exists (n * 2 ^ (- e))%Z, d.
      assert (0 < 2 ^ (- e))%Z by (apply Z.pow_pos_nonneg; lia).
      split; [exact Hd|]. split; [nia|]. split; [reflexivity|].
      rewrite inject_Z_mult, pow2_inject by lia.
      assert (O := pow2_opp e).
      setoid_replace (2 ^ (- e)) with (/ 2 ^ e)
        by (apply (Qmult_inj_l _ _ (2 ^ e) Enz); rewrite O; field; exact Enz).
      field. split; assumption. }
  destruct G as (N & D & HD & HN & -> & Hy).
  destruct (round_half_even_bounds N D HD HN) as [M0 _].
  split; [exact M0|].
  pose proof (round_half_even_error N D HD HN) as Herr. rewrite Hy in Herr.
  set (M := inject_Z (round_half_even N D)) in *.
  set (x := inject_Z n / inject_Z d) in *.
  setoid_replace (M * 2 ^ e - x) with ((M - x / 2 ^ e) * 2 ^ e)
    by (field; exact Enz).
  rewrite Qabs_Qmult, (Qabs_pos (2 ^ e)) by (apply Qlt_le_weak; exact Ep).
  apply Qmult_le_compat_r; [exact Herr | apply Qlt_le_weak; exact Ep].
Qed.

Lemma scaled_value (m e : Z) : scaled m e == inject_Z m * 2 ^ e.
Proof. unfold scaled. apply Qred_correct. Qed.

(** The error of rounding a positive rational: half a unit in the last
    place, which is a relative error of 2^-53 outside the subnormal range. *)
Lemma round64_pos_error (n d : Z) :
  (0 < n)%Z -> (0 < d)%Z ->
  let x := inject_Z n / inject_Z d in
  match round64_pos n d with
  | Finite q =>
      0 <= q /\
      (Qabs (q - x) <= x * 2 ^ (-53) \/ Qabs (q - x) <= 2 ^ (-1075))
  | PInf => 2 ^ 1024 - 2 ^ 970 <= x
  | NInf | NaN => False
  end.
Proof.
  intros Hn Hd x. unfold round64_pos.
  destruct (binade_bounds n d Hn Hd) as [Lx Ux]. fold x in Lx, Ux.
  set (p := if below_pow2 n d (Z.log2 n - Z.log2 d)
            then (Z.log2 n - Z.log2 d - 1)%Z else (Z.log2 n - Z.log2 d)%Z) in *.
  assert (He : ulp_exponent n d = Z.max (p - 52) (-1074)) by reflexivity.
  set (e := ulp_exponent n d) in *.
  destruct (mantissa_error n d e Hn Hd) as [M0 Herr]. fold x in Herr.
  set (m := if (0 <=? e)%Z then round_half_even n (d * 2 ^ e)
            else round_half_even (n * 2 ^ (- e)) d) in *.
  pose proof (pow2_pos e) as Ep.
  assert (MQ : 0 <= inject_Z m) by (rewrite <- (Zle_Qle 0); exact M0).
  destruct ((0 <=? e)%Z && (2 ^ 1024 <=? m * 2 ^ e)%Z) eqn:Ov.
  - apply andb_prop in Ov. destruct Ov as [E0 Ov].
    apply Z.leb_le in E0. apply Z.leb_le in Ov.
    assert (OvQ : 2 ^ 1024 <= inject_Z m * 2 ^ e).
    { rewrite <- (pow2_inject e E0), <- inject_Z_mult.
      rewrite <- (pow2_inject 1024) by lia. rewrite <- Zle_Qle. exact Ov. }
    apply Qabs_Qle_condition in Herr. destruct Herr as [_ Herr].
    destruct (Z.le_gt_cases e 971) as [Hs|Hb].
    + assert (H1 : 2 * 2 ^ (e - 1) == 2 ^ e) by apply pow2_pred.
      assert (H2 : 2 ^ (e - 1) <= 2 ^ 970)
        by (apply Qpower_le_compat_l; [lia | discriminate]).
      set (t := inject_Z m * 2 ^ e) in *. set (u := 2 ^ e) in *.
      set (v := 2 ^ (e - 1)) in *. set (a := 2 ^ 1024) in *.
      set (b := 2 ^ 970) in *. lra.
    + assert (Hp : (p - 52 = e)%Z) by lia.
      assert (H1 : 2 ^ 1024 <= 2 ^ p)
        by (apply Qpower_le_compat_l; [lia | discriminate]).
      assert (H2 : 0 < 2 ^ 970) by apply pow2_pos.
      set (v := 2 ^ p) in *. set (a := 2 ^ 1024) in *.
      set (b := 2 ^ 970) in *. lra.
  - rewrite scaled_value.
    split; [apply Qmult_le_0_compat; [exact MQ | apply Qlt_le_weak; exact Ep]|].
    destruct (Z.eq_dec e (-1074)) as [Es|En].
    + right. rewrite Es in Herr. rewrite Es.
      assert (H1 : 2 * 2 ^ (-1074 - 1) == 2 ^ (-1074)) by apply pow2_pred.
      change (-1074 - 1)%Z with (-1075)%Z in H1.
      set (u := 2 ^ (-1074)) in *. set (v := 2 ^ (-1075)) in *.
      set (t := Qabs (inject_Z m * 2 ^ (-1074) - x)) in *. lra.
    + left. assert (Hp : (e = p - 52)%Z) by lia.
      assert (P : 2 ^ p == 2 ^ e * 2 ^ 52).
      { rewrite <- Qpower_plus by discriminate.
        replace (e + 52)%Z with p by lia. reflexivity. }
      assert (C : 2 ^ 52 * 2 ^ (-53) == 1 # 2) by reflexivity.
      apply Qle_trans with ((1 # 2) * 2 ^ e); [exact Herr|].
      apply Qle_trans with (2 ^ p * 2 ^ (-53)).
      * rewrite P. rewrite <- C. apply Qle_lteq. right. ring.
      * apply Qmult_le_compat_r; [exact Lx | apply Qlt_le_weak, pow2_pos].
Qed.

(** Rounding a rational to binary64: the result is within half a unit in
    the last place (a relative error of 2^-53, or 2^-1075 in the subnormal
    range), and an infinity only when the value is beyond the largest
    float64 by half a unit in the last place. *)
Lemma round64_error (x : Q) :
  match round64 x with
  | Finite q =>
      Qabs (q - x) <= Qabs x * 2 ^ (-53) \/ Qabs (q - x) <= 2 ^ (-1075)
  | PInf => 2 ^ 1024 - 2 ^ 970 <= x
  | NInf => x <= - (2 ^ 1024 - 2 ^ 970)
  | NaN => False
  end.
Proof.
  destruct x as [n d]. unfold round64. cbn [Qnum Qden].
  destruct n as [|n|n].
  - right. setoid_replace (0 - (0 # d)) with 0 by reflexivity.
    apply Qlt_le_weak, pow2_pos.
  - pose proof (round64_pos_error (Z.pos n) (Z.pos d) eq_refl eq_refl) as H.
    cbv zeta in H.
    destruct (round64_pos (Z.pos n) (Z.pos d)) as [q| | |]; try contradiction;
      rewrite <- (Qmake_Qdiv (Z.pos n) d) in H; [|exact H].
    destruct H as [_ H]. rewrite (Qabs_pos (Z.pos n # d)) by discriminate.
    exact H.
  - pose proof (round64_pos_error (Z.pos n) (Z.pos d) eq_refl eq_refl) as H.
    cbv zeta in H.
    assert (N : Z.neg n # d == - (Z.pos n # d)) by reflexivity.
    destruct (round64_pos (Z.pos n) (Z.pos d)) as [q| | |]; cbn [f_neg];
      try contradiction; rewrite <- (Qmake_Qdiv (Z.pos n) d) in H.
    + destruct H as [_ H]. rewrite Qred_correct, N.
      setoid_replace (- q - - (Z.pos n # d)) with (- (q - (Z.pos n # d))) by ring.
      rewrite !Qabs_opp. rewrite (Qabs_pos (Z.pos n # d)) by discriminate.
      exact H.
    + rewrite N. apply Qopp_le_compat. exact H.
Qed.

End Binary64Facts.

(** ** Feature engineering *)

Section FeatureEngineerFacts.

Variable parse_datetime : cell -> option Z.

(** What a successful call has computed, column by column. *)
Lemma clean_and_engineer_inv (df df' : DataFrame) :
  clean_and_engineer parse_datetime df = Ok df' ->
  exists acc0 acc rep0 rep delta days wages hours wph,
    lookup_col df "DateTimeOfAccident" = Some acc0 /\
    to_datetime parse_datetime acc0 = Ok acc /\
    lookup_col df "DateReported" = Some rep0 /\
    to_datetime parse_datetime rep0 = Ok rep /\
    zipWithM cell_sub_time rep acc = Ok delta /\
    dt_days delta = Ok days /\
    lookup_col df "WeeklyWages" = Some wages /\
    lookup_col df "HoursWorkedPerWeek" = Some hours /\
    zipWithM cell_div wages (replace_0_nan hours) = Ok wph /\
    lookup_col df' "DateTimeOfAccident" = Some acc /\
    lookup_col df' "DateReported" = Some rep /\
    lookup_col df' "ReportDelayDays" = Some days /\
    lookup_col df' "WagePerHour" = Some wph.
Proof.
  unfold clean_and_engineer. intros H. inv_result.
  repeat match goal with
    | H : getitem _ _ = Ok _ |- _ => apply getitem_Ok in H
    | H : setitem ?d ?c ?v = Ok ?d' |- _ =>
        let L := fresh "L" in
        assert (L : forall col', lookup_col d' col' =
                      if String.eqb c col' then Some v else lookup_col d col')
          by (intros col'; apply lookup_setitem; exact H);
        clear H
    end.
  repeat match goal with
    | L : forall col', lookup_col ?d col' = _, H : lookup_col ?d _ = Some _ |- _ =>
        rewrite L in H; cbn in H
    end.
  repeat match goal with
    | H : Some _ = Some _ |- _ => injection H as H; subst
    end.
  do 9 eexists.
  repeat split; try eassumption;
    repeat match goal with
      | L : forall col', lookup_col ?d col' = _ |- lookup_col ?d _ = _ =>
          rewrite L; cbn
      end; reflexivity.
Qed.


Lemma Qltb_zero_not_zero (q : Q) : Qltb 0 q = true -> Qzerob q = false.
Proof.
  unfold Qltb, Qzerob. intros H.
  destruct (Qeq_bool q 0) eqn:E; [|reflexivity].
  apply Qeq_bool_iff in E.
  assert (L : Qle_bool q 0 = true) by (apply Qle_bool_iff; rewrite E; apply Qle_refl).
  rewrite L in H. discriminate.
Qed.

Lemma positive_not_zero (h : cell) (y : float64) :
  as_float h = Some y -> f_ltb (Finite 0) y = true -> cell_is_zero h = false.
Proof.
  destruct h as [z|x|s|t|d|]; simpl; try discriminate.
  - intros [= <-]. simpl. intros H. apply Qltb_zero_not_zero in H.
    destruct (Z.eqb_spec z 0) as [->|]; [discriminate H | reflexivity].
  - intros [= ->]. destruct y; simpl; try reflexivity.
    apply Qltb_zero_not_zero.
Qed.

Lemma f_div_nan_r (x : float64) : f_div x NaN = NaN.
Proof. unfold f_div. destruct (f_round x); reflexivity. Qed.

Lemma Qltb_true (a b : Q) : (a < b)%Q -> Qltb a b = true.
Proof.
  intros H. unfold Qltb. destruct (Qle_bool b a) eqn:L; [|reflexivity].
  apply Qle_bool_iff in L. exfalso. apply (Qlt_not_le _ _ H L).
Qed.

(** On two float64 values with a positive divisor, the division is the
    exact quotient rounded. *)
Lemma f_div_rounds (a b : Q) :
  (0 < b)%Q -> round64 a = Finite a -> round64 b = Finite b ->
  f_div (Finite a) (Finite b) = round64 (a / b).
Proof.
  intros Hb Ra Rb. unfold f_div, f_round. rewrite Ra, Rb.
  rewrite (Qltb_zero_not_zero b (Qltb_true _ _ Hb)). reflexivity.
Qed.

(** A cell that is numerically zero is what [replace(0, ...)] replaces. *)
Lemma zero_cell_is_zero (h : cell) (z : Q) :
  as_float h = Some (Finite z) -> (z == 0)%Q -> cell_is_zero h = true.
Proof.
  destruct h as [n|[q| | |]|s|t|d|]; simpl; try discriminate.
  - intros [= <-] H. apply Z.eqb_eq.
    unfold Qeq in H. simpl in H. lia.
  - intros [= ->] H. unfold Qzerob. apply Qeq_bool_iff. exact H.
Qed.

Lemma replace_0_nan_nth (hours : column) (i : nat) (h : cell) :
  nth_error hours i = Some h ->
  nth_error (replace_0_nan hours) i =
  Some (if cell_is_zero h then VFloat nan else h).
Proof.
  intros H. unfold replace_0_nan. rewrite nth_error_map, H. reflexivity.
Qed.

(** C2.  In the table that [clean_and_engineer] returns, a row with a
    positive HoursWorkedPerWeek has WagePerHour = WeeklyWages /
    HoursWorkedPerWeek as float64 division: for two float64 values it is
    the exact quotient rounded to the nearest float64, so within a relative
    error of 2^-53 of it (an absolute error of 2^-1075 in the subnormal
    range), and an infinity only when the quotient overflows.  A row whose
    HoursWorkedPerWeek is zero, as an integer or as a float, has the
    missing value NaN, whatever its wages: not an infinity, and the call
    does not raise. *)
Theorem wage_per_hour_spec (df df' : DataFrame) (wages hours : column)
    (i : nat) (w h : cell) :
  clean_and_engineer parse_datetime df = Ok df' ->
  lookup_col df "WeeklyWages" = Some wages ->
  lookup_col df "HoursWorkedPerWeek" = Some hours ->
  nth_error wages i = Some w ->
  nth_error hours i = Some h ->
  exists wph x v,
    lookup_col df' "WagePerHour" = Some wph /\
    as_float w = Some x /\
    nth_error wph i = Some v /\
    (forall y, as_float h = Some y -> f_ltb (Finite 0) y = true ->
       v = VFloat (f_div x y)) /\
    (forall a b, x = Finite a -> as_float h = Some (Finite b) -> (0 < b)%Q ->
       round64 a = Finite a -> round64 b = Finite b ->
       match round64 (a / b) with
       | Finite q =>
           v = VFloat (Finite q) /\
           (Qabs (q - a / b) <= Qabs (a / b) * 2 ^ (-53) \/
            Qabs (q - a / b) <= 2 ^ (-1075))%Q
       | PInf => v = VFloat PInf /\ (2 ^ 1024 - 2 ^ 970 <= a / b)%Q
       | NInf => v = VFloat NInf /\ (a / b <= - (2 ^ 1024 - 2 ^ 970))%Q
       | NaN => False
       end) /\
    (forall z, as_float h = Some (Finite z) -> (z == 0)%Q ->
       v = VFloat NaN /\ isna v = true).
Proof.
  intros Hrun Hw Hh Hwi Hhi.
  destruct (clean_and_engineer_inv _ _ Hrun)
    as (acc0 & acc & rep0 & rep & delta & days & wages' & hours' & wph &
        _ & _ & _ & _ & _ & _ & Hw' & Hh' & Hdiv & _ & _ & _ & Hout).
  rewrite Hw in Hw'. injection Hw' as <-.
  rewrite Hh in Hh'. injection Hh' as <-.
  pose proof (replace_0_nan_nth _ _ _ Hhi) as Hrep.
  destruct (zipWithM_nth _ _ _ _ Hdiv _ _ _ Hwi Hrep) as (v & Hv & Hcell).
  unfold cell_div in Hcell.
  destruct (as_float w) as [x|] eqn:Ex; [|discriminate].
  exists wph, x, v. split; [exact Hout|]. split; [reflexivity|].
  split; [exact Hv|].
  assert (Hpos : forall y, as_float h = Some y -> f_ltb (Finite 0) y = true ->
            v = VFloat (f_div x y)).
  { intros y Ey Hy. rewrite (positive_not_zero _ _ Ey Hy) in Hcell.
    rewrite Ey in Hcell. injection Hcell as <-. reflexivity. }
  split; [exact Hpos|]. split.
  - intros a b -> Eb Hb Ra Rb.
    pose proof (Hpos _ Eb (Qltb_true _ _ Hb)) as Hq.
    rewrite (f_div_rounds a b Hb Ra Rb) in Hq.
    pose proof (round64_error (a / b)) as Herr.
    destruct (round64 (a / b)) as [q| | |]; [split; assumption ..|exact Herr].
  - intros z Ez Hz. rewrite (zero_cell_is_zero _ _ Ez Hz) in Hcell.
    simpl in Hcell. rewrite f_div_nan_r in Hcell. injection Hcell as <-.
    split; reflexivity.
Qed.

Lemma td_days_floor (ns : Z) :
  (ns_per_day * td_days ns <= ns < ns_per_day * (td_days ns + 1))%Z.
Proof.
  unfold td_days.
  assert (P : (0 < ns_per_day)%Z) by reflexivity.
  pose proof (Z.div_mod ns ns_per_day ltac:(lia)) as D.
  pose proof (Z.mod_pos_bound ns ns_per_day P) as B.
  lia.
Qed.

Lemma td_days_negative (ns : Z) : (ns < 0)%Z -> (td_days ns < 0)%Z.
Proof.
  intros H. unfold td_days. apply Z.div_lt_upper_bound; [reflexivity | lia].
Qed.

Lemma td_days_truncated (ns : Z) : (0 <= ns)%Z -> td_days ns = truncated_days ns.
Proof.
  intros H. unfold td_days, truncated_days.
  symmetry. apply Z.quot_div_nonneg; [exact H | reflexivity].
Qed.

(** C3 (amended).  ReportDelayDays is the difference report - accident
    in whole days rounded towards minus infinity: the largest [d] with
    [d] days <= difference.  It is negative whenever the report precedes
    the accident, and it is the truncated day count whenever the
    difference is not negative. *)
Theorem report_delay_days_floor (df df' : DataFrame) (acc rep : column)
    (i : nat) (a r : Z) :
  clean_and_engineer parse_datetime df = Ok df' ->
  lookup_col df' "DateTimeOfAccident" = Some acc ->
  lookup_col df' "DateReported" = Some rep ->
  nth_error acc i = Some (VTime a) ->
  nth_error rep i = Some (VTime r) ->
  exists days v d,
    lookup_col df' "ReportDelayDays" = Some days /\
    nth_error days i = Some v /\
    as_float v = Some (of_int d) /\
    d = td_days (r - a) /\
    (ns_per_day * d <= r - a < ns_per_day * (d + 1))%Z /\
    ((r < a)%Z -> (d < 0)%Z) /\
    ((a <= r)%Z -> d = truncated_days (r - a)).
Proof.
  intros Hrun Hacc Hrep Ha Hr.
  destruct (clean_and_engineer_inv _ _ Hrun)
    as (acc0 & acc' & rep0 & rep' & delta & days & wages & hours & wph &
        _ & _ & _ & _ & Hsub & Hdays & _ & _ & _ & Hacc' & Hrep' & Hout & _).
  rewrite Hacc in Hacc'. injection Hacc' as <-.
  rewrite Hrep in Hrep'. injection Hrep' as <-.
  destruct (zipWithM_nth _ _ _ _ Hsub _ _ _ Hr Ha) as (c & Hc & Hcell).
  simpl in Hcell. injection Hcell as <-.
  unfold dt_days in Hdays. inv_result.
  destruct (mapM_nth _ _ _ E _ _ Hc) as (v0 & Hv0 & Hcell).
  simpl in Hcell. injection Hcell as <-.
  destruct (upcast_nth _ _ _ Hv0) as (v & Hv & Hfl).
  exists (upcast x), v, (td_days (r - a)).
  repeat split; try assumption.
  - apply td_days_floor.
  - apply td_days_floor.
  - intros Hlt. apply td_days_negative. lia.
  - intros Hle. apply td_days_truncated. lia.
Qed.

(** C8.  A malformed cell in either timestamp column makes
    [clean_and_engineer] raise: the result is an exception, never a table. *)
Theorem malformed_timestamp_is_fatal (df : DataFrame) (col : string)
    (cells : column) (c : cell) :
  col = "DateTimeOfAccident" \/ col = "DateReported" ->
  lookup_col df col = Some cells ->
  In c cells ->
  malformed parse_datetime c = true ->
  exists e, clean_and_engineer parse_datetime df = Err e.
Proof.
  intros Hcol Hlook Hin Hbad.
  assert (Hcell : to_datetime_cell parse_datetime c = Err (ValueError_parse c)).
  { unfold malformed in Hbad. unfold to_datetime_cell.
    destruct c as [z|[q| | |]|s|t|d|]; try discriminate Hbad;
      destruct (parse_datetime _); try discriminate Hbad; reflexivity. }
  destruct (mapM_In_Err _ _ _ _ Hin Hcell) as [e He].
  fold (to_datetime parse_datetime cells) in He.
  unfold clean_and_engineer.
  destruct Hcol as [-> | ->].
  - apply getitem_Ok in Hlook. rewrite Hlook. simpl. rewrite He. simpl. eauto.
  - destruct (getitem df "DateTimeOfAccident") as [acc0|e0]; simpl; [|eauto].
    destruct (to_datetime parse_datetime acc0) as [acc|e0]; simpl; [|eauto].
    destruct (setitem df "DateTimeOfAccident" acc) as [df1|e0] eqn:Eset; simpl; [|eauto].
    assert (Hrep : getitem df1 "DateReported" = Ok cells).
    { apply getitem_Ok. rewrite (lookup_setitem _ _ _ _ _ Eset). exact Hlook. }
    rewrite Hrep. simpl. rewrite He. simpl. eauto.
Qed.

End FeatureEngineerFacts.

(** *** The scenario of the specification, run through the model *)

Lemma scenario_engineered_ok :
  clean_and_engineer iso_datetime scenario_train = Ok scenario_engineered.
Proof. reflexivity. Qed.

(** Row 0 has 600 / 40 = 15, row 1 (zero hours) has NaN. *)
Lemma wage_per_hour_spec_witness :
  exists wph,
    lookup_col scenario_engineered "WagePerHour" = Some wph /\
    nth_error wph 0 = Some (VFloat (Finite 15)) /\
    nth_error wph 1 = Some (VFloat NaN).
Proof.
  destruct (wage_per_hour_spec iso_datetime scenario_train scenario_engineered
              (map VInt [600; 0]%Z) (map VInt [40; 0]%Z) 0 (VInt 600) (VInt 40)
              eq_refl eq_refl eq_refl eq_refl eq_refl)
    as (wph & x & v & Hout & Hx & Hv & _ & Hquot & _).
  destruct (wage_per_hour_spec iso_datetime scenario_train scenario_engineered
              (map VInt [600; 0]%Z) (map VInt [40; 0]%Z) 1 (VInt 0) (VInt 0)
              eq_refl eq_refl eq_refl eq_refl eq_refl)
    as (wph' & x' & v' & Hout' & _ & Hv' & _ & _ & Hzero).
  exists wph. split; [exact Hout|]. split.
  - injection Hx as <-.
    rewrite Hv. f_equal.
    exact (proj1 (Hquot 600%Q 40%Q eq_refl eq_refl eq_refl eq_refl eq_refl)).
  - rewrite Hout in Hout'. injection Hout' as <-.
    rewrite Hv'. f_equal. exact (proj1 (Hzero 0%Q eq_refl (Qeq_refl 0))).
Defined.

(** 500 / 38 is not a float64: the test row of the scenario gets the
    nearest one, 13.157894736842104. *)
Lemma wage_per_hour_rounded_example :
  exists df' wph,
    clean_and_engineer iso_datetime scenario_test = Ok df' /\
    lookup_col df' "WagePerHour" = Some wph /\
    nth_error wph 0 =
    Some (VFloat (Finite (7407236229227789 # 562949953421312))).
Proof. vm_compute. eauto. Qed.

(** Row 0 is reported 86 days and 17 hours after the accident, row 1 one
    hour before it. *)
Lemma report_delay_days_floor_witness :
  exists days,
    lookup_col scenario_engineered "ReportDelayDays" = Some days /\
    (exists v, nth_error days 0 = Some v /\ as_float v = Some (of_int 86)) /\
    (exists v, nth_error days 1 = Some v /\ as_float v = Some (of_int (-1))).
Proof.
  destruct (report_delay_days_floor iso_datetime scenario_train scenario_engineered
              [VTime 1018335600000000000; VTime 1018431000000000000]
              [VTime 1025827200000000000; VTime 1018427400000000000]
              0 1018335600000000000%Z 1025827200000000000%Z
              eq_refl eq_refl eq_refl eq_refl eq_refl)
    as (days & v & d & Hout & Hv & Hfl & Hd & _).
  destruct (report_delay_days_floor iso_datetime scenario_train scenario_engineered
              [VTime 1018335600000000000; VTime 1018431000000000000]
              [VTime 1025827200000000000; VTime 1018427400000000000]
              1 1018431000000000000%Z 1018427400000000000%Z
              eq_refl eq_refl eq_refl eq_refl eq_refl)
    as (days' & v' & d' & Hout' & Hv' & Hfl' & Hd' & _).
  exists days. split; [exact Hout|]. split.
  - exists v. split; [exact Hv|]. rewrite Hfl, Hd. reflexivity.
  - rewrite Hout in Hout'. injection Hout' as <-.
    exists v'. split; [exact Hv'|]. rewrite Hfl', Hd'. reflexivity.
Defined.

(** The claim as worded (truncation) fails on row 1 of the scenario: the
    report is one hour before the accident, the code stores -1, and the
    truncated day count of minus one hour is 0. *)
Lemma report_delay_truncates_counterexample :
  ~ report_delay_truncates iso_datetime.
Proof.
  intros H.
  destruct (H scenario_train scenario_engineered
              [VTime 1018335600000000000; VTime 1018431000000000000]
              [VTime 1025827200000000000; VTime 1018427400000000000]
              1 1018431000000000000%Z 1018427400000000000%Z
              eq_refl eq_refl eq_refl eq_refl eq_refl)
    as (days & v & Hout & Hv & Hfl & _).
  injection Hout as <-. injection Hv as <-. discriminate Hfl.
Qed.

Lemma malformed_timestamp_is_fatal_witness :
  exists e, clean_and_engineer iso_datetime scenario_malformed = Err e.
Proof.
  apply (malformed_timestamp_is_fatal iso_datetime scenario_malformed
           "DateTimeOfAccident"
           (map VStr ["2002-04-09T07:00:00Z"; "yesterday"])
           (VStr "yesterday")).
  - left; reflexivity.
  - reflexivity.
  - right; left; reflexivity.
  - reflexivity.
Defined.

(** ** Label encoding *)

Lemma insert_class_In (s x : string) (l : list string) :
  In x (insert_class s l) <-> x = s \/ In x l.
Proof.
  induction l as [|h t IH]; simpl.
  - intuition.
  - destruct (String_as_OT.compare_spec s h) as [E|L|G]; simpl.
    + unfold String_as_OT.eq in E. subst. intuition.
    + intuition.
    + rewrite IH. intuition.
Qed.

Lemma insert_class_sorted (s : string) (l : list string) :
  StronglySorted String_as_OT.lt l ->
  StronglySorted String_as_OT.lt (insert_class s l).
Proof.
  induction 1 as [|h t Hs IH Hall]; simpl.
  - constructor; constructor.
  - destruct (String_as_OT.compare_spec s h) as [E|L|G].
    + constructor; assumption.
    + constructor; [constructor; assumption|].
      constructor; [exact L|].
      eapply Forall_impl; [|exact Hall].
      intros a Ha. etransitivity; eassumption.
    + constructor; [exact IH|].
      apply Forall_forall. intros x Hx.
      apply insert_class_In in Hx. destruct Hx as [->|Hx]; [exact G|].
      rewrite Forall_forall in Hall. auto.
Qed.

Lemma np_unique_In (y : list string) (x : string) :
  In x (np_unique y) <-> In x y.
Proof.
  induction y as [|h t IH]; simpl; [reflexivity|].
  rewrite insert_class_In, IH. intuition.
Qed.

Lemma np_unique_sorted (y : list string) :
  StronglySorted String_as_OT.lt (np_unique y).
Proof.
  induction y as [|h t IH]; simpl; [constructor|].
  apply insert_class_sorted, IH.
Qed.

(** A strictly increasing list is determined by its elements. *)
Lemma sorted_same_elements (l1 l2 : list string) :
  StronglySorted String_as_OT.lt l1 ->
  StronglySorted String_as_OT.lt l2 ->
  (forall x, In x l1 <-> In x l2) ->
  l1 = l2.
Proof.
  intros S1; revert l2.
  induction S1 as [|a t1 S1 IH A1]; intros l2 S2 Hiff.
  - destruct l2 as [|b t2]; [reflexivity|].
    exfalso. apply (proj2 (Hiff b)). left; reflexivity.
  - destruct S2 as [|b t2 S2 A2].
    + exfalso. apply (proj1 (Hiff a)). left; reflexivity.
    + rewrite Forall_forall in A1, A2.
      assert (Hab : a = b).
      { destruct (proj1 (Hiff a) (or_introl eq_refl)) as [E|Ha]; [congruence|].
        destruct (proj2 (Hiff b) (or_introl eq_refl)) as [E|Hb]; [congruence|].
        exfalso. apply (irreflexivity (R := String_as_OT.lt) (x := a)).
        etransitivity; [apply A1, Hb | apply A2, Ha]. }
      subst b. f_equal. apply IH; [exact S2|].
      intros x; split; intros Hx.
      * destruct (proj1 (Hiff x) (or_intror Hx)) as [E|H]; [|exact H].
        subst x. exfalso.
        exact (irreflexivity (R := String_as_OT.lt) (A1 _ Hx)).
      * destruct (proj2 (Hiff x) (or_intror Hx)) as [E|H]; [|exact H].
        subst x. exfalso.
        exact (irreflexivity (R := String_as_OT.lt) (A2 _ Hx)).
Qed.

(** C7.  The fitted encoder is a function of the set of categories in the
    training column: two columns with the same values (in any order, any
    number of times) give the same [classes_], hence the same code for
    every category and the same outcome of [transform] on every column. *)
Theorem label_encoding_depends_on_category_set (y1 y2 : list string) :
  (forall s, In s y1 <-> In s y2) ->
  fst (fit_transform y1) = fst (fit_transform y2) /\
  (forall s, code_of (classes_ (fst (fit_transform y1))) s =
             code_of (classes_ (fst (fit_transform y2))) s) /\
  (forall t, transform (fst (fit_transform y1)) t =
             transform (fst (fit_transform y2)) t).
Proof.
  intros Hset.
  assert (E : fst (fit_transform y1) = fst (fit_transform y2)).
  { simpl. unfold fit. f_equal.
    apply sorted_same_elements; try apply np_unique_sorted.
    intros x. rewrite !np_unique_In. apply Hset. }
  rewrite E. repeat split; reflexivity.
Qed.

Lemma label_encoding_depends_on_category_set_witness :
  fst (fit_transform ["b"; "a"; "b"]) = fst (fit_transform ["a"; "b"]) /\
  transform (fst (fit_transform ["b"; "a"; "b"])) ["b"; "a"] = Ok [VInt 1; VInt 0].
Proof.
  destruct (label_encoding_depends_on_category_set ["b"; "a"; "b"] ["a"; "b"])
    as (E & _ & T).
  - intros s; simpl; intuition.
  - split; [exact E|]. rewrite T. reflexivity.
Defined.

(** ** The object heap *)

Lemma mbind_Ok {A B} (m : M A) (k : A -> M B) (w w' : world) (b : B) :
  mbind m k w = (Ok b, w') ->
  exists a w1, m w = (Ok a, w1) /\ k a w1 = (Ok b, w').
Proof.
  unfold mbind. destruct (m w) as [[a|e] w1]; intros H; [eauto | discriminate].
Qed.

Lemma deref_Ok (r : ref) (w w' : world) (df : DataFrame) :
  deref r w = (Ok df, w') -> w' = w /\ nth_error (heap w) r = Some df.
Proof.
  unfold deref. destruct (nth_error (heap w) r); intros H; inversion H; auto.
Qed.

Lemma lift_Ok {A} (r : result A) (w w' : world) (a : A) :
  lift r w = (Ok a, w') -> r = Ok a /\ w' = w.
Proof. unfold lift. intros H; inversion H; auto. Qed.

Lemma new_Ok (df : DataFrame) (w w' : world) (r : ref) :
  new df w = (Ok r, w') ->
  r = List.length (heap w) /\ w' = mkWorld (heap w ++ [df]) (files w).
Proof. unfold new. intros H; inversion H; auto. Qed.

Ltac inv_M :=
  repeat match goal with
    | H : mbind _ _ _ = (Ok _, _) |- _ =>
        let a := fresh "x" in
        let w := fresh "w" in
        let Ha := fresh "E" in
        apply mbind_Ok in H; destruct H as (a & w & Ha & H)
    | H : deref _ _ = (Ok _, _) |- _ =>
        apply deref_Ok in H; destruct H as [? H]; subst
    | H : lift _ _ = (Ok _, _) |- _ =>
        apply lift_Ok in H; destruct H as [H ?]; subst
    | H : new _ _ = (Ok _, _) |- _ =>
        apply new_Ok in H; destruct H as [? H]; subst
    | H : mret _ _ = (Ok _, _) |- _ =>
        unfold mret in H; inversion H; subst; clear H
    end.

Lemma update_length {A} (l : list A) (i : nat) (x : A) :
  List.length (update l i x) = List.length l.
Proof.
  revert i; induction l as [|h t IH]; intros [|i]; simpl; auto.
Qed.

Lemma nth_update_eq {A} (l : list A) (i : nat) (x y : A) :
  nth_error l i = Some y -> nth_error (update l i x) i = Some x.
Proof.
  revert i; induction l as [|h t IH]; intros [|i]; simpl; try discriminate; auto.
Qed.

Lemma nth_update_ne {A} (l : list A) (i j : nat) (x : A) :
  i <> j -> nth_error (update l i x) j = nth_error l j.
Proof.
  revert i j; induction l as [|h t IH]; intros [|i] [|j] H; simpl; auto.
  congruence.
Qed.

(** ** Encoding and imputation *)

Lemma index_of_In (s : string) (classes : list string) (i : nat) :
  index_of s classes = Some i -> In s classes.
Proof.
  revert i; induction classes as [|h t IH]; intros i; simpl; [discriminate|].
  destruct (String.eqb_spec h s) as [->|Hne]; [auto|].
  destruct (index_of s t); [|discriminate]. eauto.
Qed.

Lemma transform_seen (le : LabelEncoder) (y : list string) (codes : column) :
  transform le y = Ok codes -> forall s, In s y -> In s (classes_ le).
Proof.
  unfold transform. revert codes; induction y as [|h t IH]; intros codes H s Hs.
  - destruct Hs.
  - simpl in H. inv_result.
    destruct Hs as [<-|Hs]; [|eauto].
    destruct (index_of h (classes_ le)) eqn:Ei; [|discriminate].
    eapply index_of_In; eauto.
Qed.

Lemma transform_codes (le : LabelEncoder) (y : list string) (codes : column) :
  transform le y = Ok codes -> forallb is_code codes = true.
Proof.
  unfold transform. revert codes; induction y as [|h t IH]; intros codes H;
    simpl in H; inv_result; [reflexivity|].
  destruct (index_of h (classes_ le)); [|discriminate].
  injection E as <-. simpl. rewrite (IH _ E0).
  rewrite andb_true_r. apply Z.leb_le. lia.
Qed.

Lemma fit_transform_codes (y : list string) :
  forallb is_code (snd (fit_transform y)) = true.
Proof.
  unfold fit_transform. cbn [snd]. generalize (classes_ (fit y)) as cl. intros cl.
  induction y as [|h t IH]; simpl; [reflexivity|].
  rewrite IH, andb_true_r. unfold code_of.
  destruct (index_of h cl); apply Z.leb_le; lia.
Qed.

Section EncoderFacts.

Variable py_str : cell -> string.

(** One turn of the loop, step by step. *)
Lemma encode_col_inv (a b : ref) (col : string) (w w' : world) :
  encode_col py_str a b col w = (Ok tt, w') ->
  exists ta c tb c' codes',
    nth_error (heap w) a = Some ta /\
    lookup_col ta col = Some c /\
    nth_error
      (update (heap w) a
         (put_col ta col (snd (fit_transform (astype_str py_str c))))) b
      = Some tb /\
    lookup_col tb col = Some c' /\
    transform (fst (fit_transform (astype_str py_str c)))
      (astype_str py_str c') = Ok codes' /\
    w' = mkWorld
           (update
              (update (heap w) a
                 (put_col ta col (snd (fit_transform (astype_str py_str c)))))
              b (put_col tb col codes'))
           (files w).
Proof.
  unfold encode_col, df_getitem, df_setitem. intros H. inv_M.
  destruct (fit_transform (astype_str py_str x)) as [le codes] eqn:Efit.
  inv_M.
  unfold assign in *.
  repeat match goal with
    | H : (Ok tt, _) = (Ok _, _) |- _ => inversion H; subst; clear H
    | H : getitem _ _ = Ok _ |- _ => apply getitem_Ok in H
    | H : setitem _ _ _ = Ok _ |- _ => apply setitem_put_col in H; subst
    end.
  repeat match goal with
    | H1 : ?t = Some ?u, H2 : ?t = Some ?v |- _ =>
        rewrite H1 in H2; injection H2 as <-
    end.
  cbn [heap files] in *.
  exists x0, x, x6, x2, x3.
  rewrite Efit. cbn [fst snd]. repeat split; assumption || reflexivity.
Qed.


(** The effect of one turn on every object of the heap. *)
Lemma encode_col_effect (a b : ref) (col : string) (w w' : world) :
  encode_col py_str a b col w = (Ok tt, w') ->
  files w' = files w /\
  List.length (heap w') = List.length (heap w) /\
  a < List.length (heap w) /\ b < List.length (heap w) /\
  forall r t, nth_error (heap w) r = Some t ->
    exists t', nth_error (heap w') r = Some t' /\
      (r <> a -> r <> b -> t' = t) /\
      (forall col', col' <> col -> lookup_col t' col' = lookup_col t col') /\
      (r = a \/ r = b ->
       exists codes, lookup_col t' col = Some codes /\
                     forallb is_code codes = true).
Proof.
  intros H.
  destruct (encode_col_inv _ _ _ _ _ H)
    as (ta & c & tb & c' & codes' & Ha & Hc & Hb & Hc' & Htr & ->).
  cbn [heap files].
  assert (La : a < List.length (heap w))
    by (apply nth_error_Some; congruence).
  assert (Lb : b < List.length (heap w)).
  { rewrite <- (update_length (heap w) a
                  (put_col ta col (snd (fit_transform (astype_str py_str c))))).
    apply nth_error_Some; congruence. }
  split; [reflexivity|]. split; [rewrite !update_length; reflexivity|].
  split; [exact La|]. split; [exact Lb|].
  assert (Hne : forall col', col' <> col -> String.eqb col col' = false).
  { intros col' N. apply String.eqb_neq. congruence. }
  intros r t Hr.
  destruct (Nat.eq_dec r b) as [->|Nb].
  - rewrite (nth_update_eq _ _ _ _ Hb).
    eexists; split; [reflexivity|]. split; [congruence|]. split.
    + intros col' N. rewrite lookup_put_col, (Hne _ N).
      destruct (Nat.eq_dec a b) as [->|Nab].
      * rewrite (nth_update_eq _ _ _ _ Ha) in Hb. injection Hb as <-.
        rewrite lookup_put_col, (Hne _ N). congruence.
      * rewrite nth_update_ne in Hb by exact Nab. congruence.
    + intros _. exists codes'. rewrite lookup_put_col, String.eqb_refl.
      split; [reflexivity | eapply transform_codes; eauto].
  - rewrite nth_update_ne by congruence.
    destruct (Nat.eq_dec r a) as [->|Na].
    + rewrite (nth_update_eq _ _ _ _ Ha).
      eexists; split; [reflexivity|]. split; [congruence|]. split.
      * intros col' N. rewrite lookup_put_col, (Hne _ N). congruence.
      * intros _. eexists. rewrite lookup_put_col, String.eqb_refl.
        split; [reflexivity | apply fit_transform_codes].
    + rewrite nth_update_ne by congruence.
      exists t. split; [exact Hr|]. split; [reflexivity|]. split; [reflexivity|].
      intros [?|?]; congruence.
Qed.

(** The effect of the whole loop, for any list of column names. *)
Lemma encode_loop_effect (a b : ref) (cols : list string) :
  forall w w',
  for_each cols (encode_col py_str a b) w = (Ok tt, w') ->
  files w' = files w /\
  List.length (heap w') = List.length (heap w) /\
  (cols <> [] -> a < List.length (heap w) /\ b < List.length (heap w)) /\
  forall r t, nth_error (heap w) r = Some t ->
    exists t', nth_error (heap w') r = Some t' /\
      (r <> a -> r <> b -> t' = t) /\
      (forall col', ~ In col' cols -> lookup_col t' col' = lookup_col t col') /\
      (r = a \/ r = b ->
       forall col, In col cols ->
       exists codes, lookup_col t' col = Some codes /\
                     forallb is_code codes = true).
Proof.
  induction cols as [|c cs IH]; intros w w' H.
  - simpl in H. inv_M. repeat split; try congruence.
    intros r t Hr. exists t. repeat split; auto. intros _ col [].
  - simpl in H. inv_M. destruct x.
    destruct (encode_col_effect _ _ _ _ _ E) as (F1 & L1 & La & Lb & S1).
    destruct (IH _ _ H) as (F2 & L2 & _ & S2).
    split; [congruence|]. split; [congruence|]. split; [auto|].
    intros r t Hr.
    destruct (S1 _ _ Hr) as (t1 & Hr1 & K1 & C1 & I1).
    destruct (S2 _ _ Hr1) as (t2 & Hr2 & K2 & C2 & I2).
    exists t2. split; [exact Hr2|]. split.
    { intros Na Nb. rewrite (K2 Na Nb). auto. }
    split.
    { intros col' N. rewrite C2 by (intros X; apply N; right; exact X).
      apply C1. intros X; apply N; left; auto. }
    intros Hab col Hin.
    destruct (in_dec String.string_dec col cs) as [Hcs|Hcs].
    + apply I2; assumption.
    + destruct Hin as [<-|Hin]; [|contradiction].
      rewrite (C2 _ Hcs). apply I1, Hab.
Qed.

(** A successful call, step by step: the loop mutates the two arguments,
    then two new objects receive the zero-filled tables. *)
Lemma encode_and_impute_inv (a b ra rb : ref) (w w' : world) :
  encode_and_impute py_str a b w = (Ok (ra, rb), w') ->
  exists w1 ea eb,
    for_each cats (encode_col py_str a b) w = (Ok tt, w1) /\
    nth_error (heap w1) a = Some ea /\
    nth_error (heap w1) b = Some eb /\
    ra = List.length (heap w1) /\
    rb = S (List.length (heap w1)) /\
    w' = mkWorld (heap w1 ++ [fillna0 ea; fillna0 eb]) (files w1).
Proof.
  unfold encode_and_impute. intros H. inv_M. destruct x.
  cbn [heap files] in *.
  destruct (encode_loop_effect _ _ _ _ _ E) as (_ & L & B & _).
  destruct B as [_ Lb]; [discriminate|].
  rewrite nth_error_app1 in E2 by lia.
  exists w0, x0, x2. repeat split; try assumption.
  - rewrite length_app. simpl. lia.
  - rewrite <- app_assoc. reflexivity.
Qed.


Lemma lookup_fillna0 (df : DataFrame) (name : string) :
  lookup_col (fillna0 df) name = option_map (map fill0) (lookup_col df name).
Proof.
  induction df as [|[n c] df IH]; simpl; [reflexivity|].
  destruct (String.eqb n name); [reflexivity | exact IH].
Qed.

Lemma fill0_not_missing (v : cell) : isna (fill0 v) = false.
Proof. destruct v as [z|[q| | |]|s|t|d|]; reflexivity. Qed.

Lemma fill0_present (v : cell) : isna v = false -> fill0 v = v.
Proof.
  destruct v as [z|[q| | |]|s|t|d|]; simpl; intros H;
    try discriminate H; reflexivity.
Qed.

Lemma fill0_missing (v : cell) :
  isna v = true -> as_float (fill0 v) = Some (Finite 0).
Proof.
  destruct v as [z|[q| | |]|s|t|d|]; simpl; intros H;
    try discriminate H; reflexivity.
Qed.

Lemma fillna0_no_missing (df : DataFrame) (name : string) (col : column) (v : cell) :
  In (name, col) (fillna0 df) -> In v col -> isna v = false.
Proof.
  unfold fillna0. intros Hin Hv.
  apply in_map_iff in Hin. destruct Hin as ([n c] & E & _).
  injection E as _ <-.
  apply in_map_iff in Hv. destruct Hv as (v0 & <- & _).
  apply fill0_not_missing.
Qed.

(** The zero-filled copy of a table, cell by cell. *)
Lemma fillna0_cells (df : DataFrame) :
  columns (fillna0 df) = columns df /\
  (forall name col v, In (name, col) (fillna0 df) -> In v col -> isna v = false) /\
  (forall name col i v,
     lookup_col df name = Some col -> nth_error col i = Some v ->
     exists col',
       lookup_col (fillna0 df) name = Some col' /\
       nth_error col' i = Some (fill0 v) /\
       (isna v = false -> fill0 v = v) /\
       (isna v = true -> as_float (fill0 v) = Some (Finite 0))).
Proof.
  split; [|split].
  - unfold columns, fillna0. rewrite map_map. apply map_ext. intros [n c]; reflexivity.
  - apply fillna0_no_missing.
  - intros name col i v Hl Hv. exists (map fill0 col).
    rewrite lookup_fillna0, Hl. split; [reflexivity|].
    rewrite nth_error_map, Hv. split; [reflexivity|].
    split; [apply fill0_present | apply fill0_missing].
Qed.

(** C9.  A successful [encode_and_impute a b] works in place: [a] and
    [b] are existing objects, and afterwards the same two objects hold
    integer codes in the three categorical columns (so a table that held
    anything else there is no longer the table the caller passed), every
    other column and every other object is as before, and the two results
    are objects that did not exist before the call, holding the
    zero-filled copies. *)
Theorem encode_and_impute_mutates_arguments (a b ra rb : ref) (w w' : world) :
  encode_and_impute py_str a b w = (Ok (ra, rb), w') ->
  a < List.length (heap w) /\ b < List.length (heap w) /\
  ra = List.length (heap w) /\ rb = S (List.length (heap w)) /\
  List.length (heap w') = List.length (heap w) + 2 /\
  (forall r t, nth_error (heap w) r = Some t ->
     exists t', nth_error (heap w') r = Some t' /\
       (r <> a -> r <> b -> t' = t) /\
       (forall col, ~ In col cats -> lookup_col t' col = lookup_col t col) /\
       (r = a \/ r = b ->
        (forall col, In col cats ->
           exists codes, lookup_col t' col = Some codes /\
                         forallb is_code codes = true) /\
        (forall col c v, In col cats -> lookup_col t col = Some c ->
           In v c -> is_code v = false -> t' <> t))) /\
  exists ea eb,
    nth_error (heap w') a = Some ea /\ nth_error (heap w') b = Some eb /\
    nth_error (heap w') ra = Some (fillna0 ea) /\
    nth_error (heap w') rb = Some (fillna0 eb).
Proof.
  intros H.
  destruct (encode_and_impute_inv _ _ _ _ _ _ H)
    as (w1 & ea & eb & Hloop & Ha & Hb & -> & -> & ->).
  destruct (encode_loop_effect _ _ _ _ _ Hloop) as (F & L & B & St).
  destruct B as [La Lb]; [discriminate|].
  cbn [heap files].
  assert (La1 : a < List.length (heap w1)) by lia.
  assert (Lb1 : b < List.length (heap w1)) by lia.
  repeat split; try lia.
  - rewrite length_app. simpl. lia.
  - intros r t Hr. destruct (St _ _ Hr) as (t' & Hr' & K & C & I).
    exists t'. split.
    { rewrite nth_error_app1; [exact Hr'|]. apply nth_error_Some. congruence. }
    split; [exact K|]. split; [exact C|].
    intros Hab. split; [apply I, Hab|].
    intros col c v Hin Hc Hv Hcode E. subst t'.
    destruct (I Hab col Hin) as (codes & Hcodes & Hall).
    rewrite Hc in Hcodes. injection Hcodes as <-.
    rewrite forallb_forall in Hall. rewrite (Hall _ Hv) in Hcode. discriminate.
  - exists ea, eb. rewrite !nth_error_app1 by assumption.
    split; [exact Ha|]. split; [exact Hb|]. split.
    + rewrite nth_error_app2 by lia. rewrite Nat.sub_diag. reflexivity.
    + rewrite nth_error_app2 by lia.
      replace (S (List.length (heap w1)) - List.length (heap w1)) with 1 by lia.
      reflexivity.
Qed.

(** The two returned tables are the zero-filled copies of the encoded
    arguments. *)
Lemma encode_and_impute_results (a b ra rb : ref) (w w' : world) :
  encode_and_impute py_str a b w = (Ok (ra, rb), w') ->
  exists ea eb,
    nth_error (heap w') a = Some ea /\ nth_error (heap w') b = Some eb /\
    nth_error (heap w') ra = Some (fillna0 ea) /\
    nth_error (heap w') rb = Some (fillna0 eb).
Proof.
  intros H.
  destruct (encode_and_impute_inv _ _ _ _ _ _ H)
    as (w1 & ea & eb & Hloop & Ha & Hb & -> & -> & ->).
  destruct (encode_loop_effect _ _ _ _ _ Hloop) as (F & L & B & St).
  destruct B as [La Lb]; [discriminate|].
  cbn [heap files].
  exists ea, eb. rewrite !nth_error_app1 by lia.
  split; [exact Ha|]. split; [exact Hb|]. split.
  - rewrite nth_error_app2 by lia. rewrite Nat.sub_diag. reflexivity.
  - rewrite nth_error_app2 by lia.
    replace (S (List.length (heap w1)) - List.length (heap w1)) with 1 by lia.
    reflexivity.
Qed.

End EncoderFacts.

(** C5.  After the categorical columns are encoded, the two tables that
    [encode_and_impute] returns are the encoded tables with every missing
    value replaced by zero and every other value kept: same columns, no
    missing value left.  In the scenario of the specification, engineered
    and reduced to the feature columns, the row with 600 / 40 ends with
    WagePerHour 15.0 and the row with zero hours, whose WagePerHour was
    NaN, ends with 0.0. *)
Theorem encode_and_impute_fills_missing_with_zero :
  (forall py_str a b ra rb w w',
     encode_and_impute py_str a b w = (Ok (ra, rb), w') ->
     exists ea eb ta tb,
       nth_error (heap w') a = Some ea /\ nth_error (heap w') b = Some eb /\
       nth_error (heap w') ra = Some ta /\ nth_error (heap w') rb = Some tb /\
       forall t e, (t = ta /\ e = ea) \/ (t = tb /\ e = eb) ->
         columns t = columns e /\
         (forall name col v, In (name, col) t -> In v col -> isna v = false) /\
         (forall name col i v,
            lookup_col e name = Some col -> nth_error col i = Some v ->
            exists col',
              lookup_col t name = Some col' /\
              nth_error col' i = Some (fill0 v) /\
              (isna v = false -> fill0 v = v) /\
              (isna v = true -> as_float (fill0 v) = Some (Finite 0)))) /\
  ((df <- clean_and_engineer iso_datetime scenario_train ;;
    select df FEATURES)%result = Ok scenario_X /\
   lookup_col scenario_X "WagePerHour" = Some [VFloat (Finite 15); VFloat NaN] /\
   exists w' t,
     encode_and_impute decimal_str 0 1 scenario_heap = (Ok (2, 3), w') /\
     nth_error (heap w') 2 = Some t /\
     lookup_col t "WagePerHour" = Some [VFloat (Finite 15); VFloat (Finite 0)]).
Proof.
  split.
  - intros py_str a b ra rb w w' H.
    destruct (encode_and_impute_results _ _ _ _ _ _ _ H)
      as (ea & eb & Ha & Hb & Hra & Hrb).
    exists ea, eb, (fillna0 ea), (fillna0 eb).
    repeat (split; [assumption|]).
    intros t e [[-> ->]|[-> ->]]; apply fillna0_cells.
  - split; [reflexivity|]. split; [reflexivity|].
    eexists; eexists. split; [reflexivity|]. split; reflexivity.
Qed.

Lemma encode_and_impute_fills_missing_with_zero_witness :
  exists ta,
    nth_error
      (heap (snd (encode_and_impute decimal_str 0 1 scenario_heap))) 2 = Some ta /\
    forall name col v, In (name, col) ta -> In v col -> isna v = false.
Proof.
  destruct (proj1 encode_and_impute_fills_missing_with_zero
              decimal_str 0 1 2 3 scenario_heap
              (snd (encode_and_impute decimal_str 0 1 scenario_heap)) eq_refl)
    as (ea & eb & ta & tb & _ & _ & Hra & _ & Hall).
  exists ta. split; [exact Hra|].
  exact (proj1 (proj2 (Hall ta ea (or_introl (conj eq_refl eq_refl))))).
Defined.

Lemma encode_and_impute_mutates_arguments_witness :
  exists t',
    nth_error
      (heap (snd (encode_and_impute decimal_str 0 1 scenario_heap))) 0 = Some t' /\
    t' <> scenario_X.
Proof.
  destruct (encode_and_impute_mutates_arguments decimal_str 0 1 2 3 scenario_heap
              (snd (encode_and_impute decimal_str 0 1 scenario_heap)) eq_refl)
    as (_ & _ & _ & _ & _ & Hmut & _).
  destruct (Hmut 0 scenario_X eq_refl) as (t' & Ht' & _ & _ & Hchg).
  exists t'. split; [exact Ht'|].
  apply (proj2 (Hchg (or_introl eq_refl))
           "Gender" [VStr "M"; VStr "F"] (VStr "M")).
  - left; reflexivity.
  - reflexivity.
  - left; reflexivity.
  - reflexivity.
Defined.

(** ** Categories that the encoder has not seen *)

Section UnseenCategory.

Variable py_str : cell -> string.

Lemma fit_transform_classes (y : list string) (s : string) :
  In s (classes_ (fst (fit_transform y))) <-> In s y.
Proof. simpl. apply np_unique_In. Qed.

(** The loop raises when a test column of some turn holds a value that the
    training column does not. *)
Lemma encode_loop_unseen (a b : ref) (Hab : a <> b) (cols : list string) :
  forall w ta tb col c c' v,
    nth_error (heap w) a = Some ta ->
    nth_error (heap w) b = Some tb ->
    In col cols ->
    lookup_col ta col = Some c ->
    lookup_col tb col = Some c' ->
    In v (astype_str py_str c') ->
    ~ In v (astype_str py_str c) ->
    exists e w', for_each cols (encode_col py_str a b) w = (Err e, w').
Proof.
  induction cols as [|c0 cs IH]; intros w ta tb col c c' v Ha Hb Hin Hc Hc' Hv Hn.
  - destruct Hin.
  - simpl. unfold mbind.
    destruct (encode_col py_str a b c0 w) as [[[]|e] w1] eqn:E; [|eauto].
    destruct (String.string_dec c0 col) as [->|Hne].
    + exfalso.
      destruct (encode_col_inv _ _ _ _ _ _ E)
        as (ta0 & x & tb0 & x' & codes' & Ha0 & Hx & Hb0 & Hx' & Htr & _).
      rewrite nth_update_ne in Hb0 by exact Hab.
      assert (ta0 = ta) by congruence. assert (tb0 = tb) by congruence. subst.
      assert (x = c) by congruence. assert (x' = c') by congruence. subst.
      apply Hn. apply fit_transform_classes.
      eapply transform_seen; eauto.
    + destruct Hin as [->|Hin]; [congruence|].
      destruct (encode_col_effect _ _ _ _ _ _ E) as (_ & _ & _ & _ & St).
      destruct (St _ _ Ha) as (ta1 & Ha1 & _ & Ca & _).
      destruct (St _ _ Hb) as (tb1 & Hb1 & _ & Cb & _).
      apply (IH w1 ta1 tb1 col c c' v); auto.
      * rewrite Ca by congruence. exact Hc.
      * rewrite Cb by congruence. exact Hc'.
Qed.

Lemma transform_Err (le : LabelEncoder) (y : list string) (e : exn) :
  transform le y = Err e -> exists u, e = ValueError_unseen u /\ In u y.
Proof.
  unfold transform. induction y as [|h t IH]; simpl; [discriminate|].
  destruct (index_of h (classes_ le)); simpl.
  - destruct (mapM _ t) as [l|e0]; simpl; [discriminate|].
    intros [= <-]. destruct IH as (u & -> & Hu); [reflexivity|]. eauto.
  - intros [= <-]. eauto.
Qed.

Lemma has_cats_put_col (df : DataFrame) (col : string) (c codes : column) :
  has_cats df ->
  lookup_col df col = Some c ->
  List.length codes = List.length c ->
  List.length c = nrows df ->
  has_cats (put_col df col codes) /\ nrows (put_col df col codes) = nrows df.
Proof.
  intros W Hc Hl Hn.
  assert (N : nrows (put_col df col codes) = nrows df).
  { destruct df as [|[n0 c0] df]; [discriminate|]. simpl in *.
    destruct (String.eqb n0 col); simpl; [|reflexivity].
    injection Hc as ->. congruence. }
  split; [|exact N].
  intros col' Hin. rewrite lookup_put_col, N.
  destruct (String.eqb col col'); [|apply W, Hin].
  exists codes. split; [reflexivity | congruence].
Qed.

(** On tables that have the categorical columns, a turn of the loop either
    succeeds and keeps them so, or raises for an unseen label. *)
Lemma encode_col_total (a b : ref) (Hab : a <> b) (col : string) (w : world)
    (ta tb : DataFrame) :
  nth_error (heap w) a = Some ta ->
  nth_error (heap w) b = Some tb ->
  has_cats ta -> has_cats tb -> In col cats ->
  (exists w' ta' tb',
     encode_col py_str a b col w = (Ok tt, w') /\
     nth_error (heap w') a = Some ta' /\ nth_error (heap w') b = Some tb' /\
     has_cats ta' /\ has_cats tb') \/
  (exists u w', encode_col py_str a b col w = (Err (ValueError_unseen u), w')).
Proof.
  intros Ha Hb Wa Wb Hin.
  destruct (Wa col Hin) as (c & Hc & Lc).
  destruct (Wb col Hin) as (c' & Hc' & Lc').
  assert (Sa : setitem ta col (snd (fit_transform (astype_str py_str c)))
               = Ok (put_col ta col (snd (fit_transform (astype_str py_str c))))).
  { unfold setitem. destruct ta as [|p ta]; [discriminate|].
    simpl. unfold astype_str. rewrite !length_map, Lc. simpl.
    rewrite Nat.eqb_refl. reflexivity. }
  unfold encode_col, df_getitem, df_setitem, mbind, deref, lift, assign.
  rewrite Ha. apply getitem_Ok in Hc as Gc. rewrite Gc.
  destruct (fit_transform (astype_str py_str c)) as [le codes] eqn:Efit.
  cbn [snd] in Sa. cbn [heap files]. rewrite Ha, Sa. cbn [heap files].
  rewrite nth_update_ne by exact Hab. rewrite Hb.
  apply getitem_Ok in Hc' as Gc'. rewrite Gc'.
  destruct (transform le (astype_str py_str c')) as [codes'|e] eqn:Etr.
  - left.
    assert (Lcodes' : List.length codes' = List.length c').
    { unfold transform in Etr. apply mapM_length in Etr.
      unfold astype_str in Etr. rewrite length_map in Etr. exact Etr. }
    assert (Sb : setitem tb col codes' = Ok (put_col tb col codes')).
    { unfold setitem. destruct tb as [|p tb]; [discriminate|].
      rewrite Lcodes', Lc', Nat.eqb_refl. reflexivity. }
    cbn [heap files]. rewrite nth_update_ne by exact Hab. rewrite Hb, Sb.
    cbn [heap files].
    assert (Lcodes : List.length codes = List.length c).
    { replace codes with (snd (fit_transform (astype_str py_str c)))
        by (rewrite Efit; reflexivity).
      simpl. unfold astype_str. rewrite !length_map. reflexivity. }
    eexists; eexists; eexists. split; [reflexivity|]. cbn [heap files].
    split; [rewrite nth_update_ne by congruence; eapply nth_update_eq; exact Ha|].
    split; [eapply nth_update_eq; rewrite nth_update_ne by exact Hab; exact Hb|].
    split.
    + eapply has_cats_put_col; eauto.
    + eapply has_cats_put_col; eauto.
  - right. apply transform_Err in Etr. destruct Etr as (u & -> & _). eauto.
Qed.

Lemma encode_loop_total (a b : ref) (Hab : a <> b) (cols : list string) :
  (forall col, In col cols -> In col cats) ->
  forall w ta tb e w',
    nth_error (heap w) a = Some ta ->
    nth_error (heap w) b = Some tb ->
    has_cats ta -> has_cats tb ->
    for_each cols (encode_col py_str a b) w = (Err e, w') ->
    exists u, e = ValueError_unseen u.
Proof.
  induction cols as [|c0 cs IH]; intros Hsub w ta tb e w' Ha Hb Wa Wb H.
  - discriminate.
  - simpl in H. unfold mbind in H.
    destruct (encode_col_total a b Hab c0 w ta tb Ha Hb Wa Wb
                (Hsub _ (or_introl eq_refl)))
      as [(w1 & ta1 & tb1 & E & Ha1 & Hb1 & Wa1 & Wb1) | (u & w1 & E)];
      rewrite E in H.
    + eapply (IH (fun col Hc => Hsub col (or_intror Hc))); eauto.
    + injection H as <- _. eauto.
Qed.

(** C4.  When a test row holds, in one of the three categorical columns,
    a value (as text) that the training column does not hold,
    [encode_and_impute] raises and returns no table; on tables that have
    the three columns the exception is the encoder's error for a label
    that was not seen during fitting. *)
Theorem unseen_category_raises (a b : ref) (w : world) (ta tb : DataFrame)
    (col : string) (c c' : column) (v : string) :
  nth_error (heap w) a = Some ta ->
  nth_error (heap w) b = Some tb ->
  In col cats ->
  lookup_col ta col = Some c ->
  lookup_col tb col = Some c' ->
  In v (astype_str py_str c') ->
  ~ In v (astype_str py_str c) ->
  (exists e w', encode_and_impute py_str a b w = (Err e, w')) /\
  (has_cats ta -> has_cats tb ->
   exists u w', encode_and_impute py_str a b w = (Err (ValueError_unseen u), w')).
Proof.
  intros Ha Hb Hin Hc Hc' Hv Hn.
  assert (Hab : a <> b).
  { intros ->. apply Hn. assert (ta = tb) by congruence. subst.
    assert (c = c') by congruence. subst. exact Hv. }
  destruct (encode_loop_unseen a b Hab cats w ta tb col c c' v
              Ha Hb Hin Hc Hc' Hv Hn) as (e & w' & E).
  split.
  - exists e, w'. unfold encode_and_impute, mbind. rewrite E. reflexivity.
  - intros Wa Wb.
    destruct (encode_loop_total a b Hab cats (fun _ H => H) w ta tb e w'
                Ha Hb Wa Wb E) as (u & ->).
    exists u, w'. unfold encode_and_impute, mbind. rewrite E. reflexivity.
Qed.

End UnseenCategory.

Lemma unseen_category_raises_witness :
  exists u w',
    encode_and_impute decimal_str 0 1 scenario_heap_unseen
    = (Err (ValueError_unseen u), w').
Proof.
  apply (proj2 (unseen_category_raises decimal_str 0 1 scenario_heap_unseen
                  scenario_X scenario_X_test_unseen "Gender"
                  [VStr "M"; VStr "F"] [VStr "U"] "U"
                  eq_refl eq_refl (or_introl eq_refl) eq_refl eq_refl
                  (or_introl eq_refl)
                  (fun H => match H with
                            | or_introl E => ltac:(discriminate E)
                            | or_intror (or_introl E) => ltac:(discriminate E)
                            | or_intror (or_intror F) => F
                            end))).
  - intros col [<-|[<-|[<-|[]]]]; eexists; split; reflexivity.
  - intros col [<-|[<-|[<-|[]]]]; eexists; split; reflexivity.
Defined.

(** ** Model selection *)

Lemma Qltb_lt (a b : Q) : Qltb a b = true <-> (a < b)%Q.
Proof.
  unfold Qltb. rewrite negb_true_iff. split; intros H.
  - apply Qnot_le_lt. intros L. apply Qle_bool_iff in L. congruence.
  - destruct (Qle_bool b a) eqn:E; [|reflexivity].
    apply Qle_bool_iff in E. exfalso. exact (Qlt_not_le _ _ H E).
Qed.

Lemma Qltb_ge (a b : Q) : Qltb a b = false <-> (b <= a)%Q.
Proof.
  unfold Qltb. rewrite negb_false_iff. apply Qle_bool_iff.
Qed.

Lemma f_ltb_irrefl (a : float64) : f_ltb a a = false.
Proof.
  destruct a as [q| | |]; simpl; try reflexivity.
  apply Qltb_ge. apply Qle_refl.
Qed.

Lemma f_ltb_trans (a b c : float64) :
  f_ltb a b = true -> f_ltb b c = true -> f_ltb a c = true.
Proof.
  destruct a as [x| | |], b as [y| | |], c as [z| | |]; simpl;
    try discriminate; try reflexivity.
  intros H1 H2. apply Qltb_lt. apply Qltb_lt in H1. apply Qltb_lt in H2.
  eapply Qlt_trans; eauto.
Qed.

Lemma f_ltb_not_below (r a b : float64) :
  f_ltb r b = false -> f_ltb a b = true \/ a = b -> f_ltb r a = false.
Proof.
  intros Hr [Hab| ->]; [|exact Hr].
  destruct (f_ltb r a) eqn:E; [|reflexivity].
  rewrite (f_ltb_trans _ _ _ E Hab) in Hr. discriminate.
Qed.

Lemma f_ltb_not_nan (a b : float64) : f_ltb a b = true -> a <> NaN /\ b <> NaN.
Proof. destruct a, b; simpl; intros H; try discriminate H; split; discriminate. Qed.

(** The comparison is total on the values that are not NaN. *)
Lemma f_ltb_lt_le (a b c : float64) :
  f_ltb a b = true -> f_ltb c b = false -> c <> NaN -> f_ltb a c = true.
Proof.
  destruct a as [x| | |], b as [y| | |], c as [z| | |]; simpl;
    try discriminate; try reflexivity; try congruence.
  intros H1 H2 _. apply Qltb_lt. apply Qltb_lt in H1. apply Qltb_ge in H2.
  eapply Qlt_le_trans; eauto.
Qed.

Section ModelSelectorFacts.

Variable fitted : Type.
Variable GridSearchCV_fit :
  estimator -> param_grid -> DataFrame -> column -> result fitted.
Variable predict : fitted -> DataFrame -> result (list float64).
Variable root_mean_squared_error : column -> list float64 -> result float64.

Variable X_tr : DataFrame.
Variable y_tr : column.
Variable X_val : DataFrame.
Variable y_val : column.

Let evaluate_def (def : string * (estimator * param_grid))
  : result (fitted * float64) :=
  evaluate fitted GridSearchCV_fit predict root_mean_squared_error
    X_tr y_tr X_val y_val (fst (snd def)) (snd (snd def)).

Let step :=
  compare_step fitted GridSearchCV_fit predict root_mean_squared_error
    X_tr y_tr X_val y_val.

(** The loop from any running best that is not NaN: either no family
    beats it, or the result is the first family with the least RMSE, which
    beats it. *)
Lemma compare_loop_from (defs : list (string * (estimator * param_grid)))
    (evals : list (fitted * float64)) :
  Forall2 (fun def ev => evaluate_def def = Ok ev) defs evals ->
  forall (best_rmse : float64) (best_model : option fitted)
         (best_name : option string),
  best_rmse <> NaN ->
  exists st,
    foldM step defs (best_rmse, best_model, best_name) = Ok st /\
    ((st = (best_rmse, best_model, best_name) /\
      forall j m r, nth_error evals j = Some (m, r) ->
        f_ltb r best_rmse = false) \/
     (exists k m r name,
        nth_error evals k = Some (m, r) /\
        st = (r, Some m, Some name) /\
        f_ltb r best_rmse = true /\
        forall j m' r', nth_error evals j = Some (m', r') ->
          f_ltb r' r = false /\ (j < k -> r' <> NaN -> f_ltb r r' = true))).
Proof.
  induction 1 as [|def [m0 r0] defs evals Hev _ IH];
    intros best_rmse best_model best_name Hnan.
  - eexists; split; [reflexivity|]. left. split; [reflexivity|].
    intros [|j]; discriminate.
  - destruct def as [name [est grid]].
    unfold evaluate_def in Hev. cbn [fst snd] in Hev.
    cbn [foldM]. unfold step at 1, compare_step. rewrite Hev. cbn [rbind].
    destruct (f_ltb r0 best_rmse) eqn:Hlt; cbn [rbind].
    + destruct (IH r0 (Some m0) (Some name) (proj1 (f_ltb_not_nan _ _ Hlt)))
        as (st & Hst & [[-> Hno] | (k & m & r & n & Hk & -> & Hr & Hmin)]).
      * exists (r0, Some m0, Some name). split; [exact Hst|].
        right. exists 0, m0, r0, name.
        split; [reflexivity|]. split; [reflexivity|]. split; [exact Hlt|].
        intros [|j] m' r' Hj; simpl in Hj.
        -- injection Hj as _ <-. split; [apply f_ltb_irrefl | lia].
        -- split; [eapply Hno; exact Hj | lia].
      * exists (r, Some m, Some n). split; [exact Hst|].
        right. exists (S k), m, r, n.
        split; [exact Hk|]. split; [reflexivity|].
        split; [eapply f_ltb_trans; eauto|].
        intros [|j] m' r' Hj; simpl in Hj.
        -- injection Hj as _ <-. split; [|intros _ _; exact Hr].
           destruct (f_ltb r0 r) eqn:Ex; [|reflexivity].
           rewrite <- (f_ltb_irrefl r). symmetry. eapply f_ltb_trans; eauto.
        -- destruct (Hmin _ _ _ Hj) as [Hle Hbefore].
           split; [exact Hle|]. intros Hjk. apply Hbefore. lia.
    + destruct (IH best_rmse best_model best_name Hnan)
        as (st & Hst & [[-> Hno] | (k & m & r & n & Hk & -> & Hr & Hmin)]).
      * eexists. split; [exact Hst|]. left. split; [reflexivity|].
        intros [|j] m r Hj; simpl in Hj; [|eauto].
        injection Hj as _ <-. exact Hlt.
      * eexists. split; [exact Hst|].
        right. exists (S k), m, r, n.
        split; [exact Hk|]. split; [reflexivity|]. split; [exact Hr|].
        intros [|j] m' r' Hj; simpl in Hj.
        -- injection Hj as _ <-. split.
           ++ eapply f_ltb_not_below; [exact Hlt | left; exact Hr].
           ++ intros _ Hn0. eapply f_ltb_lt_le; eauto.
        -- destruct (Hmin _ _ _ Hj) as [Hle Hbefore].
           split; [exact Hle|]. intros Hjk. apply Hbefore. lia.
Qed.

(** C1 (amended).  The three families are evaluated in the order
    GradientBoosting, RandomForest, CatBoost.  Whatever their hold-out
    RMSE values are, when none of them is below infinity (each is NaN or
    +infinity) [compare_models] returns no estimator, [(None, inf)];
    otherwise it returns the best estimator and the RMSE of a family whose
    RMSE is below infinity and has no RMSE strictly below it, and every
    family evaluated before it has a strictly larger RMSE or a NaN: among
    equal RMSEs the family evaluated first is kept. *)
Theorem compare_models_selects_first_minimum (evals : list (fitted * float64)) :
  Forall2 (fun def ev => evaluate_def def = Ok ev) model_defs evals ->
  map fst model_defs = ["GradientBoosting"; "RandomForest"; "CatBoost"] /\
  (((forall j m r, nth_error evals j = Some (m, r) -> f_ltb r inf = false) /\
    compare_models fitted GridSearchCV_fit predict root_mean_squared_error
      X_tr y_tr X_val y_val = Ok (None, inf)) \/
   (exists k m r,
      nth_error evals k = Some (m, r) /\
      f_ltb r inf = true /\
      compare_models fitted GridSearchCV_fit predict root_mean_squared_error
        X_tr y_tr X_val y_val = Ok (Some m, r) /\
      forall j m' r', nth_error evals j = Some (m', r') ->
        f_ltb r' r = false /\ (j < k -> r' <> NaN -> f_ltb r r' = true))).
Proof.
  intros Hev. split; [reflexivity|].
  destruct (compare_loop_from _ _ Hev inf None None ltac:(discriminate))
    as (st & Hst & [[-> Hno] | (k & m & r & n & Hk & -> & Hr & Hmin)]).
  - left. split; [exact Hno|].
    unfold compare_models, compare_loop. fold step. rewrite Hst. reflexivity.
  - right. exists k, m, r. split; [exact Hk|]. split; [exact Hr|].
    split; [|exact Hmin].
    unfold compare_models, compare_loop. fold step. rewrite Hst. reflexivity.
Qed.

End ModelSelectorFacts.

(** RandomForest and CatBoost tie on the hold-out row, and RandomForest,
    evaluated first, is kept. *)
Lemma compare_models_selects_first_minimum_witness :
  exists k m r,
    nth_error toy_evals k = Some (m, r) /\
    compare_models const_model (const_search levels) const_predict exact_rmse
      toy_X toy_y toy_X_val toy_y_val = Ok (Some m, Finite r) /\
    forall j m' r', nth_error toy_evals j = Some (m', r') ->
      f_ltb (Finite r') (Finite r) = false /\
      (j < k -> f_ltb (Finite r) (Finite r') = true).
Proof.
  destruct (proj2 (compare_models_selects_first_minimum const_model
                     (const_search levels) const_predict exact_rmse
                     toy_X toy_y toy_X_val toy_y_val
                     (map (fun ev => (fst ev, Finite (snd ev))) toy_evals)
                     ltac:(repeat constructor)))
    as [[_ Hnone] | (k & m & r & Hk & _ & Hrun & Hmin)];
    [discriminate Hnone|].
  rewrite nth_error_map in Hk.
  destruct (nth_error toy_evals k) as [[m0 r0]|] eqn:Ek; [|discriminate Hk].
  cbn [option_map fst snd] in Hk. injection Hk as <- <-.
  exists k, m0, r0. split; [exact Ek|]. split; [exact Hrun|].
  intros j m' r' Hj.
  destruct (Hmin j m' (Finite r')) as [Hle Hfirst].
  { rewrite nth_error_map, Hj. reflexivity. }
  split; [exact Hle|]. intros Hjk. apply Hfirst; [exact Hjk | discriminate].
Defined.

(** The claim as worded fails when every hold-out RMSE is infinite: no
    family is below the initial [inf], so no estimator is returned. *)
Lemma selects_lowest_rmse_counterexample :
  ~ selects_lowest_rmse const_model (const_search levels) const_predict
      overflowed_rmse.
Proof.
  intros H.
  destruct (H toy_X toy_y toy_X_val toy_y_val
              [ ((GradientBoostingRegressor, 12%Q), PInf);
                ((RandomForestRegressor, 10%Q), PInf);
                ((CatBoostRegressor, 10%Q), PInf) ]
              ltac:(repeat constructor))
    as (k & m & r & _ & Hrun & _).
  discriminate Hrun.
Qed.

Lemma compare_models_tie_example :
  compare_models const_model (const_search levels) const_predict exact_rmse
    toy_X toy_y toy_X_val toy_y_val
  = Ok (Some (RandomForestRegressor, 10%Q), Finite 1).
Proof. reflexivity. Qed.

(** ** The pipeline driver *)

Lemma nth_error_app_last {A} (l : list A) (x : A) :
  nth_error (l ++ [x]) (List.length l) = Some x.
Proof.
  rewrite nth_error_app2 by lia. rewrite Nat.sub_diag. reflexivity.
Qed.

Lemma nth_error_app_old {A} (l l' : list A) (r : nat) (t : A) :
  nth_error l r = Some t -> nth_error (l ++ l') r = Some t.
Proof.
  intros H. rewrite nth_error_app1; [exact H|].
  apply nth_error_Some. congruence.
Qed.

Lemma nth_error_lt {A} (l : list A) (r : nat) (t : A) :
  nth_error l r = Some t -> r < List.length l.
Proof. intros H. apply nth_error_Some. congruence. Qed.

Lemma read_csv_Ok (path : string) (w w' : world) (r : ref) :
  read_csv path w = (Ok r, w') ->
  exists df,
    find_file (files w) path = Some df /\
    r = List.length (heap w) /\
    w' = mkWorld (heap w ++ [df]) (files w).
Proof.
  unfold read_csv, find_file.
  destruct (find_content (files w) path) as [[df|e]|]; try discriminate.
  intros H. apply new_Ok in H. destruct H as [-> ->]. eauto.
Qed.

Lemma df_setitem_Ok (r : ref) (col : string) (vals : column) (w w' : world) :
  df_setitem r col vals w = (Ok tt, w') ->
  exists df,
    nth_error (heap w) r = Some df /\
    setitem df col vals = Ok (put_col df col vals) /\
    w' = mkWorld (update (heap w) r (put_col df col vals)) (files w).
Proof.
  unfold df_setitem. intros H. inv_M. unfold assign in H.
  injection H as <-. exists x. split; [assumption|].
  pose proof (setitem_put_col _ _ _ _ E0) as ->. auto.
Qed.

Lemma to_csv_Ok (r : ref) (path : string) (w w' : world) :
  to_csv r path w = (Ok tt, w') ->
  exists df,
    nth_error (heap w) r = Some df /\
    w' = mkWorld (heap w) ((path, Table df) :: files w).
Proof.
  unfold to_csv. intros H. inv_M. injection H as <-. eauto.
Qed.

(** Objects other than the two arguments, and the files, are as before a
    successful [encode_and_impute]. *)
Lemma encode_and_impute_frame (py_str : cell -> string) (a b ra rb : ref)
    (w w' : world) :
  encode_and_impute py_str a b w = (Ok (ra, rb), w') ->
  files w' = files w /\
  forall r t, r <> a -> r <> b ->
    nth_error (heap w) r = Some t -> nth_error (heap w') r = Some t.
Proof.
  intros H.
  destruct (encode_and_impute_inv _ _ _ _ _ _ _ H)
    as (w1 & ea & eb & Hloop & _ & _ & _ & _ & ->).
  destruct (encode_loop_effect _ _ _ _ _ _ Hloop) as (F & _ & _ & St).
  split; [exact F|].
  intros r t Na Nb Hr. cbn [heap].
  destruct (St _ _ Hr) as (t' & Hr' & K & _).
  rewrite (K Na Nb) in Hr'. apply nth_error_app_old. exact Hr'.
Qed.

(** Positional selection. *)
Lemma take_cells_map (c : column) (idx : list nat) (out : column) :
  take_cells c idx = Ok out ->
  out = map (fun i => nth i c VNaT) idx /\ Forall (fun i => i < List.length c) idx.
Proof.
  unfold take_cells. revert out. induction idx as [|i idx IH]; intros out H;
    simpl in H; inv_result; [split; [reflexivity | constructor]|].
  destruct (nth_error c i) as [v|] eqn:Ei; [|discriminate].
  injection E as <-. destruct (IH _ E0) as [-> Hall].
  split.
  - simpl. f_equal. symmetry. apply nth_error_nth. exact Ei.
  - constructor; [eapply nth_error_lt; eauto | exact Hall].
Qed.

Lemma map_nth_seq (c : column) :
  map (fun i => nth i c VNaT) (seq 0 (List.length c)) = c.
Proof.
  induction c as [|v c IH]; [reflexivity|].
  simpl. f_equal. rewrite <- seq_shift, map_map. exact IH.
Qed.

Lemma take_cells_split_perm (c : column) (i1 i2 : list nat) (o1 o2 : column) :
  Permutation (i1 ++ i2) (seq 0 (List.length c)) ->
  take_cells c i1 = Ok o1 ->
  take_cells c i2 = Ok o2 ->
  Permutation (o1 ++ o2) c.
Proof.
  intros P H1 H2.
  apply take_cells_map in H1. apply take_cells_map in H2.
  destruct H1 as [-> _]. destruct H2 as [-> _].
  rewrite <- map_app.
  eapply Permutation_trans; [apply Permutation_map; exact P|].
  rewrite map_nth_seq. apply Permutation_refl.
Qed.

Lemma take_rows_lookup (df df' : DataFrame) (idx : list nat) (name : string)
    (c : column) :
  take_rows df idx = Ok df' ->
  lookup_col df name = Some c ->
  exists c', lookup_col df' name = Some c' /\ take_cells c idx = Ok c'.
Proof.
  unfold take_rows. revert df'. induction df as [|[n c0] df IH]; intros df' H Hl.
  - discriminate.
  - simpl in H. inv_result. simpl in Hl. simpl.
    destruct (String.eqb n name).
    + injection Hl as <-. eauto.
    + eauto.
Qed.

Lemma nrows_put_col (df : DataFrame) (col : string) (v : column) :
  df <> [] -> List.length v = nrows df -> nrows (put_col df col v) = nrows df.
Proof.
  destruct df as [|[n c] df]; [congruence|]. intros _ H. simpl in *.
  destruct (String.eqb n col); simpl; auto.
Qed.

Lemma columns_put_col (df : DataFrame) (col : string) (v : column) :
  In col (columns df) -> columns (put_col df col v) = columns df.
Proof.
  unfold columns. induction df as [|[n c] df IH]; simpl; [intros []|].
  intros Hin. destruct (String.eqb_spec n col) as [->|Hne]; simpl; [reflexivity|].
  f_equal. apply IH. destruct Hin; [contradiction|assumption].
Qed.

Lemma setitem_length (df df' : DataFrame) (col : string) (v : column) :
  setitem df col v = Ok df' -> df <> [] -> List.length v = nrows df.
Proof.
  unfold setitem. destruct df as [|p df]; [congruence|]. intros H _.
  destruct (Nat.eqb_spec (List.length v) (nrows (p :: df))); [assumption|discriminate].
Qed.

(** [clean_and_engineer] leaves the columns it does not assign as they
    are. *)
Lemma clean_and_engineer_frame (parse_datetime : cell -> option Z)
    (df df' : DataFrame) (col : string) :
  clean_and_engineer parse_datetime df = Ok df' ->
  ~ In col ["DateTimeOfAccident"; "DateReported"; "ReportDelayDays";
            "AccidentMonth"; "AccidentHour"; "WagePerHour";
            "DependentsTotal"] ->
  lookup_col df' col = lookup_col df col.
Proof.
  unfold clean_and_engineer. intros H Hn. inv_result.
  repeat match goal with
    | H : setitem ?d ?c ?v = Ok ?d' |- _ =>
        let L := fresh "L" in
        assert (L : lookup_col d' col = lookup_col d col);
        [ rewrite (lookup_setitem _ _ _ col _ H);
          destruct (String.eqb_spec c col) as [<-|_];
          [ exfalso; apply Hn; simpl; tauto | reflexivity ]
        | clear H ]
    end.
  congruence.
Qed.

Section SplitFacts.

Variable shuffle_split : nat -> option (list nat * list nat).

(** The split puts every position on exactly one side. *)
Hypothesis shuffle_split_partition :
  forall n ind_train ind_test,
    shuffle_split n = Some (ind_train, ind_test) ->
    Permutation (ind_train ++ ind_test) (seq 0 n).

(** The two sides of the split are the rows of the table that was split. *)
Lemma train_test_split_partition (X X_tr X_val : DataFrame)
    (y y_tr y_val : column) :
  train_test_split shuffle_split X y = Ok (X_tr, X_val, y_tr, y_val) ->
  Permutation (y_tr ++ y_val) y /\
  forall name c, lookup_col X name = Some c -> List.length c = nrows X ->
    exists c1 c2,
      lookup_col X_tr name = Some c1 /\ lookup_col X_val name = Some c2 /\
      Permutation (c1 ++ c2) c.
Proof.
  unfold train_test_split.
  destruct (Nat.eqb_spec (List.length y) (nrows X)) as [Ly|]; [|discriminate].
  cbn [negb].
  destruct (shuffle_split (nrows X)) as [[i1 i2]|] eqn:Es; [|discriminate].
  intros H. inv_result.
  pose proof (shuffle_split_partition _ _ _ Es) as P.
  split.
  - eapply take_cells_split_perm; eauto. rewrite Ly. exact P.
  - intros name c Hc Lc.
    destruct (take_rows_lookup _ _ _ _ _ E Hc) as (c1 & H1 & T1).
    destruct (take_rows_lookup _ _ _ _ _ E0 Hc) as (c2 & H2 & T2).
    exists c1, c2. split; [exact H1|]. split; [exact H2|].
    eapply take_cells_split_perm; eauto. rewrite Lc. exact P.
Qed.

End SplitFacts.

(** The constant predictors and the head split meet the two assumptions. *)
Lemma const_predict_rows (m : const_model) (X : DataFrame) (y_hat : list float64) :
  const_predict m X = Ok y_hat -> List.length y_hat = nrows X.
Proof.
  unfold const_predict. intros [= <-]. apply repeat_length.
Qed.

Lemma head_split_partition (n : nat) (ind_train ind_test : list nat) :
  head_split n = Some (ind_train, ind_test) ->
  Permutation (ind_train ++ ind_test) (seq 0 n).
Proof.
  unfold head_split. destruct (Nat.ltb_spec n 2) as [|Hn]; [discriminate|].
  intros [= <- <-].
  destruct n as [|n]; [lia|].
  simpl. rewrite Nat.sub_0_r.
  apply Permutation_sym, Permutation_cons_append.
Qed.

(** The grids hold 8, 4 and 8 combinations, as the notebook reports. *)
Lemma model_defs_grid_sizes :
  map (fun def => grid_size (snd (snd def))) model_defs = [8; 4; 8].
Proof. reflexivity. Qed.

(** * Further properties of the notebook's functions *)

(** ** Tables *)

Lemma lookup_col_nonempty (df : DataFrame) (col : string) (c : column) :
  lookup_col df col = Some c -> df <> [].
Proof. destruct df; [discriminate | congruence]. Qed.

Lemma put_col_nonempty (df : DataFrame) (col : string) (v : column) :
  put_col df col v <> [].
Proof.
  destruct df as [|[n c] df]; simpl; [discriminate|].
  destruct (String.eqb n col); discriminate.
Qed.

Lemma lookup_col_In_columns (df : DataFrame) (col : string) (c : column) :
  lookup_col df col = Some c -> In col (columns df).
Proof.
  unfold columns. induction df as [|[n c0] df IH]; simpl; [discriminate|].
  destruct (String.eqb_spec n col) as [->|]; [auto|]. intros H. right. auto.
Qed.

Lemma columns_put_col_new (df : DataFrame) (col : string) (v : column) :
  ~ In col (columns df) -> columns (put_col df col v) = columns df ++ [col].
Proof.
  unfold columns. induction df as [|[n c] df IH]; simpl; [reflexivity|].
  intros Hn. destruct (String.eqb_spec n col) as [->|_].
  - exfalso. apply Hn. left; reflexivity.
  - simpl. f_equal. apply IH. intros H. apply Hn. right; exact H.
Qed.

Lemma put_col_same (df : DataFrame) (col : string) (v : column) :
  lookup_col df col = Some v -> put_col df col v = df.
Proof.
  induction df as [|[n c] df IH]; simpl; [discriminate|].
  destruct (String.eqb_spec n col) as [->|_].
  - intros [= ->]. reflexivity.
  - intros H. f_equal. apply IH, H.
Qed.

Lemma setitem_same (df : DataFrame) (col : string) (v : column) :
  lookup_col df col = Some v -> List.length v = nrows df ->
  setitem df col v = Ok df.
Proof.
  intros Hl Hn. unfold setitem. destruct df as [|p df]; [discriminate|].
  rewrite Hn, Nat.eqb_refl, (put_col_same _ _ _ Hl). reflexivity.
Qed.

Lemma setitem_inv (df df' : DataFrame) (col : string) (v : column) :
  setitem df col v = Ok df' -> df <> [] ->
  df' = put_col df col v /\ List.length v = nrows df /\ nrows df' = nrows df.
Proof.
  intros H Hne. pose proof (setitem_put_col _ _ _ _ H) as ->.
  pose proof (setitem_length _ _ _ _ H Hne) as L.
  split; [reflexivity|]. split; [exact L|]. apply nrows_put_col; assumption.
Qed.

Lemma rectangular_put_col (df : DataFrame) (col : string) (v : column) :
  rectangular df -> List.length v = nrows df -> df <> [] ->
  rectangular (put_col df col v).
Proof.
  unfold rectangular. intros R L Hne.
  rewrite (nrows_put_col _ col _ Hne L).
  generalize dependent (nrows df). intros n R L. clear Hne.
  induction df as [|[c0 x] df IH]; simpl.
  - constructor; [exact L | constructor].
  - inversion R as [|? ? Hx R']; subst.
    destruct (String.eqb c0 col); constructor; simpl; auto.
Qed.

Lemma zipWithM_length {A B C} (f : A -> B -> result C) l1 l2 l3 :
  zipWithM f l1 l2 = Ok l3 ->
  List.length l1 = List.length l3 /\ List.length l2 = List.length l3.
Proof.
  revert l2 l3; induction l1 as [|h t IH]; intros [|h2 t2] l3 H;
    simpl in H; try discriminate; inv_result.
  - auto.
  - destruct (IH _ _ E0). simpl. auto.
Qed.

(** ** Feature engineering, step by step *)

Lemma wrap_int64_range (z : Z) : (- 2 ^ 63 <= wrap_int64 z < 2 ^ 63)%Z.
Proof.
  unfold wrap_int64.
  pose proof (Z.mod_pos_bound (z + 2 ^ 63) (2 ^ 64) eq_refl) as B.
  change (2 ^ 64)%Z with (2 * 2 ^ 63)%Z in *. lia.
Qed.

Lemma wrap_int64_small (z : Z) :
  (- 2 ^ 63 <= z < 2 ^ 63)%Z -> wrap_int64 z = z.
Proof.
  intros H. unfold wrap_int64. rewrite Z.mod_small; [lia|].
  change (2 ^ 64)%Z with (2 * 2 ^ 63)%Z. lia.
Qed.

Lemma wrap_int64_congruent (z : Z) : ((z - wrap_int64 z) mod 2 ^ 64 = 0)%Z.
Proof.
  unfold wrap_int64.
  pose proof (Z.div_mod (z + 2 ^ 63) (2 ^ 64) ltac:(discriminate)) as E.
  replace (z - ((z + 2 ^ 63) mod 2 ^ 64 - 2 ^ 63))%Z
    with ((z + 2 ^ 63) / 2 ^ 64 * 2 ^ 64)%Z by lia.
  apply Z.mod_mul. discriminate.
Qed.

Lemma f_add_nan_l (x : float64) : f_add NaN x = NaN.
Proof. reflexivity. Qed.

Lemma f_add_nan_r (x : float64) : f_add x NaN = NaN.
Proof. unfold f_add. destruct (f_round x); reflexivity. Qed.

Section FeatureEngineerSteps.

Variable parse_datetime : cell -> option Z.

(** Everything a successful call has computed, and the table it returns
    as the argument with seven columns assigned. *)
Lemma clean_and_engineer_steps (df df' : DataFrame) :
  clean_and_engineer parse_datetime df = Ok df' ->
  exists acc0 acc rep0 rep delta days month hour wages hours wph
         children others total,
    lookup_col df "DateTimeOfAccident" = Some acc0 /\
    to_datetime parse_datetime acc0 = Ok acc /\
    lookup_col df "DateReported" = Some rep0 /\
    to_datetime parse_datetime rep0 = Ok rep /\
    zipWithM cell_sub_time rep acc = Ok delta /\
    dt_days delta = Ok days /\
    dt_month acc = Ok month /\
    dt_hour acc = Ok hour /\
    lookup_col df "WeeklyWages" = Some wages /\
    lookup_col df "HoursWorkedPerWeek" = Some hours /\
    zipWithM cell_div wages (replace_0_nan hours) = Ok wph /\
    lookup_col df "DependentChildren" = Some children /\
    lookup_col df "DependentsOther" = Some others /\
    zipWithM cell_add children others = Ok total /\
    df' = engineered df acc rep days month hour wph total /\
    Forall (fun v => List.length v = nrows df)
      [acc; rep; days; month; hour; wph; total].
Proof.
  unfold clean_and_engineer. intros H. inv_result.
  match goal with
  | H : getitem df _ = Ok _ |- _ =>
      pose proof (lookup_col_nonempty _ _ _ (proj1 (getitem_Ok _ _ _) H)) as Hne
  end.
  repeat match goal with
    | H : setitem ?d ?c ?v = Ok ?d' |- _ =>
        let Hd := fresh "Hd" in
        let HL := fresh "HL" in
        let HN := fresh "HN" in
        first
          [ destruct (setitem_inv _ _ _ _ H Hne) as (Hd & HL & HN)
          | destruct (setitem_inv _ _ _ _ H
                        ltac:(subst; apply put_col_nonempty)) as (Hd & HL & HN) ];
        clear H; subst d'
    end.
  repeat match goal with
    | H : getitem _ _ = Ok _ |- _ =>
        apply getitem_Ok in H; rewrite ?lookup_put_col in H; cbn in H
    end.
  repeat match goal with
    | H : Some _ = Some _ |- _ => injection H as H; subst
    end.
  do 14 eexists.
  repeat (split; [eassumption|]).
  split; [reflexivity|].
  repeat constructor; congruence.
Qed.


Lemma lookup_engineered (df : DataFrame)
    (acc rep days month hour wph total : column) (col : string) :
  lookup_col (engineered df acc rep days month hour wph total) col =
  if String.eqb "DependentsTotal" col then Some total
  else if String.eqb "WagePerHour" col then Some wph
  else if String.eqb "AccidentHour" col then Some hour
  else if String.eqb "AccidentMonth" col then Some month
  else if String.eqb "ReportDelayDays" col then Some days
  else if String.eqb "DateReported" col then Some rep
  else if String.eqb "DateTimeOfAccident" col then Some acc
  else lookup_col df col.
Proof. unfold engineered. rewrite !lookup_put_col. reflexivity. Qed.

(** X1.  DependentsTotal is the row-wise sum DependentChildren +
    DependentsOther: for two integer counts it is their int64 sum, which
    is their sum whenever that lies in the int64 range and wraps around
    otherwise, and when one of the two is missing (NaN) and the other is a
    number it is missing. *)
Theorem dependents_total_spec (df df' : DataFrame) (children others : column)
    (i : nat) (c o : cell) :
  clean_and_engineer parse_datetime df = Ok df' ->
  lookup_col df "DependentChildren" = Some children ->
  lookup_col df "DependentsOther" = Some others ->
  nth_error children i = Some c ->
  nth_error others i = Some o ->
  exists total v,
    lookup_col df' "DependentsTotal" = Some total /\
    nth_error total i = Some v /\
    (forall x y, c = VInt x -> o = VInt y ->
       v = VInt (wrap_int64 (x + y)) /\
       (- 2 ^ 63 <= wrap_int64 (x + y) < 2 ^ 63)%Z /\
       ((x + y - wrap_int64 (x + y)) mod 2 ^ 64 = 0)%Z /\
       ((- 2 ^ 63 <= x + y < 2 ^ 63)%Z -> v = VInt (x + y))) /\
    (forall x, c = VFloat NaN -> as_float o = Some x -> v = VFloat NaN) /\
    (forall x, as_float c = Some x -> o = VFloat NaN -> v = VFloat NaN).
Proof.
  intros Hrun Hc Ho Hci Hoi.
  destruct (clean_and_engineer_steps _ _ Hrun)
    as (acc0 & acc & rep0 & rep & delta & days & month & hour & wages & hours &
        wph & children' & others' & total & _ & _ & _ & _ & _ & _ & _ & _ &
        _ & _ & _ & Hc' & Ho' & Hadd & -> & _).
  rewrite Hc in Hc'. injection Hc' as <-.
  rewrite Ho in Ho'. injection Ho' as <-.
  destruct (zipWithM_nth _ _ _ _ Hadd _ _ _ Hci Hoi) as (v & Hv & Hcell).
  exists total, v. split; [rewrite lookup_engineered; reflexivity|].
  split; [exact Hv|]. split; [|split].
  - intros x y -> ->. cbn [cell_add] in Hcell. injection Hcell as <-.
    split; [reflexivity|]. split; [apply wrap_int64_range|].
    split; [apply wrap_int64_congruent|].
    intros Hr. rewrite (wrap_int64_small _ Hr). reflexivity.
  - intros x -> Hx. destruct o as [z|y|s|t|d|]; try discriminate Hx;
      cbn [cell_add as_float] in Hcell; rewrite f_add_nan_l in Hcell;
      congruence.
  - intros x Hx ->.
    destruct c as [z|y|s|t|d|]; try discriminate Hx;
      cbn [cell_add as_float] in Hcell; rewrite f_add_nan_r in Hcell;
      congruence.
Qed.

End FeatureEngineerSteps.

Lemma dependents_total_spec_witness :
  exists total,
    lookup_col scenario_engineered "DependentsTotal" = Some total /\
    nth_error total 1 = Some (VInt 3).
Proof.
  destruct (dependents_total_spec iso_datetime scenario_train
              scenario_engineered (map VInt [0; 1]%Z) (map VInt [0; 2]%Z)
              1 (VInt 1) (VInt 2) eq_refl eq_refl eq_refl eq_refl eq_refl)
    as (total & v & Hl & Hv & Hint & _).
  exists total. split; [exact Hl|].
  rewrite Hv. f_equal.
  destruct (Hint 1%Z 2%Z eq_refl eq_refl) as (_ & _ & _ & Hsmall).
  apply Hsmall. split; [discriminate | reflexivity].
Defined.

(** The largest int64 plus one is the smallest int64. *)
Lemma cell_add_wraps_example :
  cell_add (VInt 9223372036854775807) (VInt 1)
  = Ok (VInt (-9223372036854775808)).
Proof. reflexivity. Qed.

(** ** Calendar fields *)

(** The day of the year that [month_of_days] derives from the day of the
    400-year era lies in a year. *)
Lemma day_of_year_range (doe : Z) :
  (0 <= doe < 146097)%Z ->
  (0 <= doe - (365 * ((doe - doe / 1460 + doe / 36524 - doe / 146096) / 365)
               + (doe - doe / 1460 + doe / 36524 - doe / 146096) / 365 / 4
               - (doe - doe / 1460 + doe / 36524 - doe / 146096) / 365 / 100)
     <= 365)%Z.
Proof.
  intros H. Z.to_euclidean_division_equations; lia.
Qed.

Lemma month_of_days_range (d : Z) : (1 <= month_of_days d <= 12)%Z.
Proof.
  unfold month_of_days. cbv zeta.
  set (doe := ((d + 719468) - (d + 719468) / 146097 * 146097)%Z).
  assert (Hdoe : (0 <= doe < 146097)%Z).
  { subst doe.
    pose proof (Z.div_mod (d + 719468) 146097 ltac:(lia)) as D.
    pose proof (Z.mod_pos_bound (d + 719468) 146097 ltac:(lia)) as B.
    lia. }
  pose proof (day_of_year_range doe Hdoe) as Hdoy.
  set (doy := (doe - _)%Z) in *.
  assert (Hmp : (0 <= (5 * doy + 2) / 153 <= 11)%Z).
  { split.
    - apply Z.div_pos; lia.
    - assert ((5 * doy + 2) / 153 < 12)%Z; [|lia].
      apply Z.div_lt_upper_bound; lia. }
  destruct (Z.ltb_spec ((5 * doy + 2) / 153) 10); lia.
Qed.

Lemma ts_month_range (ns : Z) : (1 <= ts_month ns <= 12)%Z.
Proof. apply month_of_days_range. Qed.

Lemma ts_hour_range (ns : Z) : (0 <= ts_hour ns <= 23)%Z.
Proof.
  unfold ts_hour.
  assert (P : (0 < ns_per_day)%Z) by reflexivity.
  assert (Q : (0 < ns_per_hour)%Z) by reflexivity.
  pose proof (Z.mod_pos_bound ns ns_per_day P) as B.
  split.
  - apply Z.div_pos; lia.
  - assert ((ns mod ns_per_day) / ns_per_hour < 24)%Z; [|lia].
    apply Z.div_lt_upper_bound; [exact Q|].
    change (ns_per_hour * 24)%Z with ns_per_day. lia.
Qed.

(** ** More on feature engineering *)

Lemma to_datetime_cell_missing (parse_datetime : cell -> option Z) (c : cell) :
  isna c = true -> to_datetime_cell parse_datetime c = Ok VNaT.
Proof.
  destruct c as [z|[q| | |]|s|t|d|]; simpl; intros H;
    try discriminate H; reflexivity.
Qed.

Lemma to_datetime_cell_parsed (parse_datetime : cell -> option Z) (c c' : cell) :
  to_datetime_cell parse_datetime c = Ok c' ->
  c' = VNaT \/ exists t, c' = VTime t.
Proof.
  unfold to_datetime_cell.
  destruct c as [z|[q| | |]|s|t|d|];
    try (destruct (parse_datetime _); intros H; [|discriminate H]);
    try intros H; injection H as <-; eauto.
Qed.

Section FeatureEngineerMore.

Variable parse_datetime : cell -> option Z.

(** X2.  A row whose accident timestamp is missing gets a missing
    AccidentMonth, AccidentHour and ReportDelayDays, and a row whose report
    timestamp is missing gets a missing ReportDelayDays: a missing
    timestamp is propagated, it does not make the call raise. *)
Theorem missing_timestamp_propagates (df df' : DataFrame) (acc0 rep0 : column)
    (i : nat) (a r : cell) :
  clean_and_engineer parse_datetime df = Ok df' ->
  lookup_col df "DateTimeOfAccident" = Some acc0 ->
  lookup_col df "DateReported" = Some rep0 ->
  nth_error acc0 i = Some a ->
  nth_error rep0 i = Some r ->
  exists days month hour,
    lookup_col df' "ReportDelayDays" = Some days /\
    lookup_col df' "AccidentMonth" = Some month /\
    lookup_col df' "AccidentHour" = Some hour /\
    (isna a = true \/ isna r = true -> nth_error days i = Some (VFloat NaN)) /\
    (isna a = true ->
     nth_error month i = Some (VFloat NaN) /\
     nth_error hour i = Some (VFloat NaN)).
Proof.
  intros Hrun Hacc0 Hrep0 Ha Hr.
  destruct (clean_and_engineer_steps _ _ _ Hrun)
    as (acc0' & acc & rep0' & rep & delta & days & month & hour & wages &
        hours & wph & children & others & total & Hacc0' & Hacc & Hrep0' &
        Hrep & Hsub & Hdays & Hmonth & Hhour & _ & _ & _ & _ & _ & _ & -> & _).
  rewrite Hacc0 in Hacc0'. injection Hacc0' as <-.
  rewrite Hrep0 in Hrep0'. injection Hrep0' as <-.
  destruct (mapM_nth _ _ _ Hacc _ _ Ha) as (a' & Ha' & Hta).
  destruct (mapM_nth _ _ _ Hrep _ _ Hr) as (r' & Hr' & Htr).
  destruct (zipWithM_nth _ _ _ _ Hsub _ _ _ Hr' Ha') as (dl & Hdl & Hcell).
  unfold dt_days in Hdays. unfold dt_month in Hmonth. unfold dt_hour in Hhour.
  inv_result.
  match goal with
  | Hd : mapM cell_dt_days delta = Ok ?xd,
    Hm : mapM cell_dt_month acc = Ok ?xm,
    Hh : mapM cell_dt_hour acc = Ok ?xh |- _ =>
      destruct (mapM_nth _ _ _ Hd _ _ Hdl) as (vd & Hvd & Hcd);
      destruct (mapM_nth _ _ _ Hm _ _ Ha') as (vm & Hvm & Hcm);
      destruct (mapM_nth _ _ _ Hh _ _ Ha') as (vh & Hvh & Hch);
      exists (upcast xd), (upcast xm), (upcast xh)
  end.
  rewrite !lookup_engineered. cbn.
  repeat (split; [reflexivity|]).
  split.
  - intros Hmiss. apply upcast_nth_float.
    assert (Hd : dl = VNaT).
    { destruct (to_datetime_cell_parsed _ _ _ Hta) as [->|[ta ->]];
        destruct (to_datetime_cell_parsed _ _ _ Htr) as [->|[tr ->]];
        simpl in Hcell; try congruence.
      destruct Hmiss as [Hm|Hm].
      - rewrite (to_datetime_cell_missing _ _ Hm) in Hta. discriminate.
      - rewrite (to_datetime_cell_missing _ _ Hm) in Htr. discriminate. }
    subst dl. simpl in Hcd. congruence.
  - intros Hm. rewrite (to_datetime_cell_missing _ _ Hm) in Hta.
    injection Hta as <-. simpl in Hcm, Hch.
    split; apply upcast_nth_float; congruence.
Qed.

(** X3.  For every row that has an accident timestamp, AccidentMonth is
    the month of that timestamp, between 1 and 12, and AccidentHour is its
    hour, between 0 and 23. *)
Theorem accident_month_hour_range (df df' : DataFrame) (acc : column)
    (i : nat) (t : Z) :
  clean_and_engineer parse_datetime df = Ok df' ->
  lookup_col df' "DateTimeOfAccident" = Some acc ->
  nth_error acc i = Some (VTime t) ->
  exists month hour vm vh,
    lookup_col df' "AccidentMonth" = Some month /\
    lookup_col df' "AccidentHour" = Some hour /\
    nth_error month i = Some vm /\
    nth_error hour i = Some vh /\
    as_float vm = Some (of_int (ts_month t)) /\
    as_float vh = Some (of_int (ts_hour t)) /\
    (1 <= ts_month t <= 12)%Z /\
    (0 <= ts_hour t <= 23)%Z.
Proof.
  intros Hrun Hacc Ht.
  destruct (clean_and_engineer_steps _ _ _ Hrun)
    as (acc0' & acc' & rep0' & rep & delta & days & month & hour & wages &
        hours & wph & children & others & total & _ & _ & _ &
        _ & _ & _ & Hmonth & Hhour & _ & _ & _ & _ & _ & _ & -> & _).
  rewrite lookup_engineered in Hacc. cbn in Hacc. injection Hacc as <-.
  unfold dt_month in Hmonth. unfold dt_hour in Hhour. inv_result.
  match goal with
  | Hm : mapM cell_dt_month _ = Ok ?xm,
    Hh : mapM cell_dt_hour _ = Ok ?xh |- _ =>
      destruct (mapM_nth _ _ _ Hm _ _ Ht) as (vm0 & Hvm0 & Hcm);
      destruct (mapM_nth _ _ _ Hh _ _ Ht) as (vh0 & Hvh0 & Hch);
      simpl in Hcm, Hch; injection Hcm as <-; injection Hch as <-;
      destruct (upcast_nth _ _ _ Hvm0) as (vm & Hvm & Hfm);
      destruct (upcast_nth _ _ _ Hvh0) as (vh & Hvh & Hfh);
      exists (upcast xm), (upcast xh), vm, vh
  end.
  rewrite !lookup_engineered. cbn.
  repeat (split; [reflexivity || assumption|]).
  split; [apply ts_month_range | apply ts_hour_range].
Qed.

(** X4.  When one of the six columns that the function reads is absent
    from the table, the call raises; when DateTimeOfAccident is the absent
    one, the exception is the KeyError for that name. *)
Theorem missing_column_raises (df : DataFrame) (col : string) :
  In col required_columns ->
  lookup_col df col = None ->
  (exists e, clean_and_engineer parse_datetime df = Err e) /\
  (col = "DateTimeOfAccident" ->
   clean_and_engineer parse_datetime df = Err (KeyError "DateTimeOfAccident")).
Proof.
  intros Hin Hnone. split.
  - destruct (clean_and_engineer parse_datetime df) as [df'|e] eqn:E; [|eauto].
    exfalso.
    destruct (clean_and_engineer_steps _ _ _ E)
      as (acc0 & acc & rep0 & rep & delta & days & month & hour & wages &
          hours & wph & children & others & total & H1 & _ & H2 & _ & _ & _ &
          _ & _ & H3 & H4 & _ & H5 & H6 & _).
    simpl in Hin.
    destruct Hin as [<-|[<-|[<-|[<-|[<-|[<-|[]]]]]]]; congruence.
  - intros ->. unfold clean_and_engineer, getitem. rewrite Hnone. reflexivity.
Qed.

End FeatureEngineerMore.

Lemma missing_timestamp_propagates_witness :
  exists df' days month,
    clean_and_engineer iso_datetime scenario_missing = Ok df' /\
    lookup_col df' "ReportDelayDays" = Some days /\
    lookup_col df' "AccidentMonth" = Some month /\
    nth_error days 1 = Some (VFloat NaN) /\
    nth_error month 1 = Some (VFloat NaN).
Proof.
  destruct (clean_and_engineer iso_datetime scenario_missing) as [df'|e] eqn:E;
    [|discriminate E].
  destruct (missing_timestamp_propagates iso_datetime scenario_missing df'
              [VStr "2002-04-09T07:00:00Z"; VFloat NaN]
              (map VStr ["2002-07-05T00:00:00Z"; "2002-04-10T08:30:00Z"])
              1 (VFloat NaN) (VStr "2002-04-10T08:30:00Z")
              E eq_refl eq_refl eq_refl eq_refl)
    as (days & month & hour & Hd & Hm & _ & Hdays & Hmh).
  exists df', days, month.
  split; [reflexivity|]. split; [exact Hd|]. split; [exact Hm|].
  split; [exact (Hdays (or_introl eq_refl)) | exact (proj1 (Hmh eq_refl))].
Defined.

Lemma accident_month_hour_range_witness :
  exists month hour,
    lookup_col scenario_engineered "AccidentMonth" = Some month /\
    lookup_col scenario_engineered "AccidentHour" = Some hour /\
    (exists vm, nth_error month 0 = Some vm /\ as_float vm = Some (of_int 4)) /\
    (exists vh, nth_error hour 0 = Some vh /\ as_float vh = Some (of_int 7)).
Proof.
  destruct (accident_month_hour_range iso_datetime scenario_train
              scenario_engineered
              [VTime 1018335600000000000; VTime 1018431000000000000]
              0 1018335600000000000%Z eq_refl eq_refl eq_refl)
    as (month & hour & vm & vh & Hm & Hh & Hvm & Hvh & Hfm & Hfh & _).
  exists month, hour. split; [exact Hm|]. split; [exact Hh|]. split.
  - exists vm. split; [exact Hvm | exact Hfm].
  - exists vh. split; [exact Hvh | exact Hfh].
Defined.

Lemma missing_column_raises_witness :
  clean_and_engineer iso_datetime [("WeeklyWages", [VInt 600])]
  = Err (KeyError "DateTimeOfAccident").
Proof.
  apply (proj2 (missing_column_raises iso_datetime
                  [("WeeklyWages", [VInt 600])] "DateTimeOfAccident"
                  (or_introl eq_refl) eq_refl)).
  reflexivity.
Defined.

(** ** The shape of the engineered table *)

Lemma to_datetime_fixed (parse_datetime : cell -> option Z) (c c' : column) :
  to_datetime parse_datetime c = Ok c' -> to_datetime parse_datetime c' = Ok c'.
Proof.
  unfold to_datetime. revert c'. induction c as [|h t IH]; intros c' H;
    simpl in H; inv_result; [reflexivity|].
  simpl. rewrite (IH _ E0).
  destruct (to_datetime_cell_parsed _ _ _ E) as [->|[ts ->]]; reflexivity.
Qed.

Section EngineeredShape.

Variable parse_datetime : cell -> option Z.

Variable df : DataFrame.
Variables acc rep days month hour wph total : column.
Hypothesis df_nonempty : df <> [].
Hypothesis lengths :
  Forall (fun v => List.length v = nrows df)
    [acc; rep; days; month; hour; wph; total].

Lemma nrows_engineered :
  nrows (engineered df acc rep days month hour wph total) = nrows df.
Proof.
  unfold engineered.
  repeat match goal with
    | H : Forall _ (_ :: _) |- _ => inversion H; subst; clear H
    end.
  assert (S1 : forall d c v, d <> [] -> nrows d = nrows df ->
             List.length v = nrows df ->
             put_col d c v <> [] /\ nrows (put_col d c v) = nrows df).
  { intros d c v Nd Ed Lv. split; [apply put_col_nonempty|].
    rewrite nrows_put_col; congruence. }
  destruct (S1 df "DateTimeOfAccident" acc df_nonempty eq_refl)
    as (N1 & E1); [assumption|].
  destruct (S1 _ "DateReported" rep N1 E1) as (N2 & E2); [assumption|].
  destruct (S1 _ "ReportDelayDays" days N2 E2) as (N3 & E3); [assumption|].
  destruct (S1 _ "AccidentMonth" month N3 E3) as (N4 & E4); [assumption|].
  destruct (S1 _ "AccidentHour" hour N4 E4) as (N5 & E5); [assumption|].
  destruct (S1 _ "WagePerHour" wph N5 E5) as (N6 & E6); [assumption|].
  destruct (S1 _ "DependentsTotal" total N6 E6) as (_ & E7); assumption.
Qed.

Lemma rectangular_engineered :
  rectangular df ->
  rectangular (engineered df acc rep days month hour wph total).
Proof.
  intros R. unfold engineered.
  repeat match goal with
    | H : Forall _ (_ :: _) |- _ => inversion H; subst; clear H
    end.
  assert (S1 : forall d c v, rectangular d -> d <> [] -> nrows d = nrows df ->
             List.length v = nrows df ->
             rectangular (put_col d c v) /\ put_col d c v <> [] /\
             nrows (put_col d c v) = nrows df).
  { intros d c v Rd Nd Ed Lv. split; [|split].
    - apply rectangular_put_col; congruence.
    - apply put_col_nonempty.
    - rewrite nrows_put_col; congruence. }
  destruct (S1 df "DateTimeOfAccident" acc R df_nonempty eq_refl)
    as (R1 & N1 & E1); [assumption|].
  destruct (S1 _ "DateReported" rep R1 N1 E1) as (R2 & N2 & E2); [assumption|].
  destruct (S1 _ "ReportDelayDays" days R2 N2 E2) as (R3 & N3 & E3); [assumption|].
  destruct (S1 _ "AccidentMonth" month R3 N3 E3) as (R4 & N4 & E4); [assumption|].
  destruct (S1 _ "AccidentHour" hour R4 N4 E4) as (R5 & N5 & E5); [assumption|].
  destruct (S1 _ "WagePerHour" wph R5 N5 E5) as (R6 & N6 & E6); [assumption|].
  destruct (S1 _ "DependentsTotal" total R6 N6 E6) as (R7 & _ & _); assumption.
Qed.

Lemma columns_engineered :
  In "DateTimeOfAccident" (columns df) ->
  In "DateReported" (columns df) ->
  (forall col, In col derived_columns -> ~ In col (columns df)) ->
  columns (engineered df acc rep days month hour wph total)
  = columns df ++ derived_columns.
Proof.
  intros Ia Ir N. unfold engineered.
  assert (C1 : columns (put_col df "DateTimeOfAccident" acc) = columns df)
    by (apply columns_put_col; exact Ia).
  set (d1 := put_col df "DateTimeOfAccident" acc) in *.
  assert (C2 : columns (put_col d1 "DateReported" rep) = columns df)
    by (rewrite columns_put_col; rewrite C1; auto).
  set (d2 := put_col d1 "DateReported" rep) in *.
  assert (C3 : columns (put_col d2 "ReportDelayDays" days)
               = columns df ++ ["ReportDelayDays"]).
  { rewrite columns_put_col_new, C2; [reflexivity|].
    rewrite C2. apply N. simpl. tauto. }
  set (d3 := put_col d2 "ReportDelayDays" days) in *.
  assert (C4 : columns (put_col d3 "AccidentMonth" month)
               = columns df ++ ["ReportDelayDays"; "AccidentMonth"]).
  { rewrite columns_put_col_new, C3; [rewrite <- app_assoc; reflexivity|].
    rewrite C3, in_app_iff. intros [H|[H|[]]]; [|discriminate H].
    revert H. apply N. simpl. tauto. }
  set (d4 := put_col d3 "AccidentMonth" month) in *.
  assert (C5 : columns (put_col d4 "AccidentHour" hour)
               = columns df ++ ["ReportDelayDays"; "AccidentMonth";
                                "AccidentHour"]).
  { rewrite columns_put_col_new, C4; [rewrite <- app_assoc; reflexivity|].
    rewrite C4, in_app_iff. intros [H|[H|[H|[]]]]; try discriminate H.
    revert H. apply N. simpl. tauto. }
  set (d5 := put_col d4 "AccidentHour" hour) in *.
  assert (C6 : columns (put_col d5 "WagePerHour" wph)
               = columns df ++ ["ReportDelayDays"; "AccidentMonth";
                                "AccidentHour"; "WagePerHour"]).
  { rewrite columns_put_col_new, C5; [rewrite <- app_assoc; reflexivity|].
    rewrite C5, in_app_iff. intros [H|[H|[H|[H|[]]]]]; try discriminate H.
    revert H. apply N. simpl. tauto. }
  set (d6 := put_col d5 "WagePerHour" wph) in *.
  rewrite columns_put_col_new, C6; [rewrite <- app_assoc; reflexivity|].
  rewrite C6, in_app_iff. intros [H|[H|[H|[H|[H|[]]]]]]; try discriminate H.
  revert H. apply N. simpl. tauto.
Qed.

End EngineeredShape.

Section EngineerShapeFacts.

Variable parse_datetime : cell -> option Z.

(** X5.  The engineered table has as many rows as the argument, every
    column that the function does not assign is unchanged, the two
    timestamp columns and the five derived columns are present with one
    entry per row, a rectangular argument gives a rectangular result, and
    when the five derived names are new they are appended after the
    argument's columns in the order of the assignments. *)
Theorem clean_and_engineer_shape (df df' : DataFrame) :
  clean_and_engineer parse_datetime df = Ok df' ->
  nrows df' = nrows df /\
  (forall col, ~ In col assigned_columns ->
     lookup_col df' col = lookup_col df col) /\
  (forall col, In col assigned_columns ->
     exists c, lookup_col df' col = Some c /\ List.length c = nrows df) /\
  (rectangular df -> rectangular df') /\
  ((forall col, In col derived_columns -> ~ In col (columns df)) ->
   columns df' = columns df ++ derived_columns).
Proof.
  intros Hrun.
  destruct (clean_and_engineer_steps _ _ _ Hrun)
    as (acc0 & acc & rep0 & rep & delta & days & month & hour & wages &
        hours & wph & children & others & total & Hacc0 & _ & Hrep0 & _ & _ &
        _ & _ & _ & _ & _ & _ & _ & _ & _ & -> & HL).
  pose proof (lookup_col_nonempty _ _ _ Hacc0) as Hne.
  split; [apply nrows_engineered; assumption|].
  split.
  { intros col Hn. rewrite lookup_engineered.
    repeat match goal with
      | |- context [String.eqb ?c col] =>
          destruct (String.eqb_spec c col) as [<-|_];
          [exfalso; apply Hn; simpl; tauto|]
      end.
    reflexivity. }
  split.
  { intros col Hin. rewrite lookup_engineered.
    repeat match goal with
      | H : Forall _ (_ :: _) |- _ => inversion H; subst; clear H
      end.
    simpl in Hin.
    destruct Hin as [<-|[<-|[<-|[<-|[<-|[<-|[<-|[]]]]]]]]; cbn; eauto. }
  split; [apply rectangular_engineered; assumption|].
  apply columns_engineered; eapply lookup_col_In_columns; eassumption.
Qed.

(** X6.  Engineering an engineered table changes nothing: applied to its
    own result, the function succeeds and returns that table. *)
Theorem clean_and_engineer_idempotent (df df' : DataFrame) :
  clean_and_engineer parse_datetime df = Ok df' ->
  clean_and_engineer parse_datetime df' = Ok df'.
Proof.
  intros Hrun.
  destruct (clean_and_engineer_steps _ _ _ Hrun)
    as (acc0 & acc & rep0 & rep & delta & days & month & hour & wages &
        hours & wph & children & others & total & Hacc0 & Hacc & Hrep0 &
        Hrep & Hsub & Hdays & Hmonth & Hhour & Hw & Hh & Hdiv & Hc & Ho &
        Hadd & -> & HL).
  pose proof (lookup_col_nonempty _ _ _ Hacc0) as Hne.
  pose proof (nrows_engineered df acc rep days month hour wph total Hne HL) as Hn.
  pose proof (lookup_engineered df acc rep days month hour wph total) as L.
  repeat match goal with
    | H : Forall _ (_ :: _) |- _ => inversion H; subst; clear H
    end.
  set (E := engineered df acc rep days month hour wph total) in *.
  assert (LA : lookup_col E "DateTimeOfAccident" = Some acc) by (rewrite L; reflexivity).
  assert (LR : lookup_col E "DateReported" = Some rep) by (rewrite L; reflexivity).
  assert (LD : lookup_col E "ReportDelayDays" = Some days) by (rewrite L; reflexivity).
  assert (LM : lookup_col E "AccidentMonth" = Some month) by (rewrite L; reflexivity).
  assert (LH : lookup_col E "AccidentHour" = Some hour) by (rewrite L; reflexivity).
  assert (LP : lookup_col E "WagePerHour" = Some wph) by (rewrite L; reflexivity).
  assert (LT : lookup_col E "DependentsTotal" = Some total) by (rewrite L; reflexivity).
  assert (LW : lookup_col E "WeeklyWages" = Some wages) by (rewrite L; exact Hw).
  assert (LHo : lookup_col E "HoursWorkedPerWeek" = Some hours) by (rewrite L; exact Hh).
  assert (LC : lookup_col E "DependentChildren" = Some children) by (rewrite L; exact Hc).
  assert (LO : lookup_col E "DependentsOther" = Some others) by (rewrite L; exact Ho).
  assert (SA : setitem E "DateTimeOfAccident" acc = Ok E)
    by (apply setitem_same; [assumption | rewrite Hn; assumption]).
  assert (SR : setitem E "DateReported" rep = Ok E)
    by (apply setitem_same; [assumption | rewrite Hn; assumption]).
  assert (SD : setitem E "ReportDelayDays" days = Ok E)
    by (apply setitem_same; [assumption | rewrite Hn; assumption]).
  assert (SM : setitem E "AccidentMonth" month = Ok E)
    by (apply setitem_same; [assumption | rewrite Hn; assumption]).
  assert (SH : setitem E "AccidentHour" hour = Ok E)
    by (apply setitem_same; [assumption | rewrite Hn; assumption]).
  assert (SP : setitem E "WagePerHour" wph = Ok E)
    by (apply setitem_same; [assumption | rewrite Hn; assumption]).
  assert (ST : setitem E "DependentsTotal" total = Ok E)
    by (apply setitem_same; [assumption | rewrite Hn; assumption]).
  pose proof (to_datetime_fixed _ _ _ Hacc) as Facc.
  pose proof (to_datetime_fixed _ _ _ Hrep) as Frep.
  clearbody E. clear L.
  unfold clean_and_engineer, getitem.
  repeat (first [ rewrite LA | rewrite LR | rewrite LW | rewrite LHo
                | rewrite LC | rewrite LO
                | rewrite Facc | rewrite Frep | rewrite Hsub | rewrite Hdays
                | rewrite Hmonth | rewrite Hhour | rewrite Hdiv | rewrite Hadd
                | rewrite SA | rewrite SR | rewrite SD | rewrite SM
                | rewrite SH | rewrite SP | rewrite ST ];
          cbn [rbind]).
  reflexivity.
Qed.

End EngineerShapeFacts.

Lemma clean_and_engineer_shape_witness :
  nrows scenario_engineered = 2 /\
  columns scenario_engineered = columns scenario_train ++ derived_columns /\
  rectangular scenario_engineered.
Proof.
  destruct (clean_and_engineer_shape iso_datetime scenario_train
              scenario_engineered eq_refl) as (Hn & _ & _ & Hr & Hc).
  split; [exact Hn|]. split.
  - apply Hc. intros col Hin Hcol. simpl in Hin, Hcol.
    repeat match goal with
      | H : _ \/ _ |- _ => destruct H as [H|H]
      end;
      try contradiction; subst; discriminate.
  - apply Hr. repeat constructor.
Defined.

Lemma clean_and_engineer_idempotent_witness :
  clean_and_engineer iso_datetime scenario_engineered = Ok scenario_engineered.
Proof.
  exact (clean_and_engineer_idempotent iso_datetime scenario_train
           scenario_engineered eq_refl).
Defined.

(** ** Codes of the label encoder *)

Lemma index_of_nth (s : string) (classes : list string) (i : nat) :
  index_of s classes = Some i -> nth_error classes i = Some s.
Proof.
  revert i; induction classes as [|h t IH]; intros i; simpl; [discriminate|].
  destruct (String.eqb_spec h s) as [->|Hne].
  - intros [= <-]. reflexivity.
  - destruct (index_of s t) as [k|]; [|discriminate].
    intros [= <-]. simpl. apply IH. reflexivity.
Qed.

Lemma index_of_complete (s : string) (classes : list string) :
  In s classes -> exists i, index_of s classes = Some i.
Proof.
  induction classes as [|h t IH]; simpl; [intros []|].
  intros Hin. destruct (String.eqb_spec h s) as [->|Hne]; [eauto|].
  destruct Hin as [E|Hin]; [contradiction|].
  destruct (IH Hin) as [i ->]. eauto.
Qed.

(** In a strictly increasing list, positions are ordered as the values. *)
Lemma sorted_nth_lt (l : list string) (i j : nat) (s t : string) :
  StronglySorted String_as_OT.lt l ->
  nth_error l i = Some s -> nth_error l j = Some t ->
  i < j -> String_as_OT.lt s t.
Proof.
  intros St; revert i j. induction St as [|h tl St IH Hall]; intros i j Hi Hj Hlt.
  - destruct i; discriminate.
  - destruct j as [|j]; [lia|]. simpl in Hj. destruct i as [|i]; simpl in Hi.
    + injection Hi as <-. rewrite Forall_forall in Hall.
      apply Hall. eapply nth_error_In; eauto.
    + eapply IH; eauto. lia.
Qed.

Lemma code_of_seen (classes : list string) (s : string) :
  In s classes ->
  exists k, index_of s classes = Some k /\ code_of classes s = VInt (Z.of_nat k).
Proof.
  intros Hin. destruct (index_of_complete _ _ Hin) as [k Hk].
  exists k. split; [exact Hk|]. unfold code_of. rewrite Hk. reflexivity.
Qed.

Lemma fit_transform_nth (y : list string) (i : nat) (s : string) :
  nth_error y i = Some s ->
  exists k,
    nth_error (snd (fit_transform y)) i = Some (VInt (Z.of_nat k)) /\
    index_of s (classes_ (fst (fit_transform y))) = Some k.
Proof.
  intros Hi. cbn [fit_transform fst snd].
  assert (Hin : In s (classes_ (fit y))).
  { apply np_unique_In. eapply nth_error_In; eauto. }
  destruct (code_of_seen _ _ Hin) as (k & Hk & Hc).
  exists k. split; [|exact Hk].
  rewrite nth_error_map, Hi. simpl. f_equal. exact Hc.
Qed.

Lemma transform_nth (le : LabelEncoder) (y : list string) (codes : column)
    (i : nat) (s : string) :
  transform le y = Ok codes ->
  nth_error y i = Some s ->
  exists k,
    nth_error codes i = Some (VInt (Z.of_nat k)) /\
    index_of s (classes_ le) = Some k.
Proof.
  intros Ht Hi. unfold transform in Ht.
  destruct (mapM_nth _ _ _ Ht _ _ Hi) as (v & Hv & Hc).
  destruct (index_of s (classes_ le)) as [k|]; [|discriminate].
  injection Hc as <-. eauto.
Qed.

(** X7.  The code of a category is its position in [classes_], the sorted
    list of the distinct training categories: decoding a training code
    gives back the category, the codes lie below the number of classes, two
    training values have the same code exactly when they are the same text,
    and the codes are ordered as the texts. *)
Theorem label_codes_round_trip (y : list string) (i j : nat) (s t : string) :
  nth_error y i = Some s ->
  nth_error y j = Some t ->
  exists ks kt,
    nth_error (snd (fit_transform y)) i = Some (VInt (Z.of_nat ks)) /\
    nth_error (snd (fit_transform y)) j = Some (VInt (Z.of_nat kt)) /\
    nth_error (classes_ (fst (fit_transform y))) ks = Some s /\
    nth_error (classes_ (fst (fit_transform y))) kt = Some t /\
    ks < List.length (classes_ (fst (fit_transform y))) /\
    (ks = kt <-> s = t) /\
    (ks < kt <-> String_as_OT.lt s t).
Proof.
  intros Hi Hj.
  destruct (fit_transform_nth _ _ _ Hi) as (ks & Hci & Hki).
  destruct (fit_transform_nth _ _ _ Hj) as (kt & Hcj & Hkj).
  pose proof (index_of_nth _ _ _ Hki) as Ni.
  pose proof (index_of_nth _ _ _ Hkj) as Nj.
  pose proof (np_unique_sorted y) as St.
  change (np_unique y) with (classes_ (fst (fit_transform y))) in St.
  exists ks, kt. repeat (split; [assumption|]).
  split; [eapply nth_error_lt; eauto|].
  split.
  - split; [intros ->; congruence | intros ->; congruence].
  - split.
    + intros Hlt. eapply sorted_nth_lt; eauto.
    + intros Hlt.
      destruct (Nat.lt_trichotomy ks kt) as [L|[E|G]]; [exact L| |].
      * subst kt. assert (s = t) by congruence. subst t.
        exfalso. exact (irreflexivity (R := String_as_OT.lt) Hlt).
      * exfalso. apply (irreflexivity (R := String_as_OT.lt) (x := s)).
        etransitivity; [exact Hlt|]. eapply sorted_nth_lt; eauto.
Qed.

Lemma label_codes_round_trip_witness :
  exists ks kt,
    nth_error (snd (fit_transform ["M"; "F"; "M"])) 0 = Some (VInt (Z.of_nat ks)) /\
    nth_error (snd (fit_transform ["M"; "F"; "M"])) 1 = Some (VInt (Z.of_nat kt)) /\
    nth_error (classes_ (fst (fit_transform ["M"; "F"; "M"]))) ks = Some "M" /\
    kt < ks.
Proof.
  destruct (label_codes_round_trip ["M"; "F"; "M"] 1 0 "F" "M" eq_refl eq_refl)
    as (kt & ks & Hct & Hcs & _ & Hds & _ & _ & Hord).
  exists ks, kt. split; [exact Hcs|]. split; [exact Hct|]. split; [exact Hds|].
  apply Hord. reflexivity.
Defined.

(** ** The encoded tables *)

Lemma fill0_codes (codes : column) :
  forallb is_code codes = true -> map fill0 codes = codes.
Proof.
  induction codes as [|v t IH]; simpl; [reflexivity|].
  intros H. apply andb_true_iff in H. destruct H as [Hv Ht].
  rewrite (IH Ht). destruct v; try discriminate Hv. reflexivity.
Qed.

Section EncodedTables.

Variable py_str : cell -> string.

(** With two distinct arguments, the loop leaves in every categorical
    column of the training table the codes of [fit_transform] on the
    original column, and in the test table the codes of [transform]. *)
Lemma encode_loop_codes (a b : ref) (Hab : a <> b) (cols : list string) :
  NoDup cols ->
  forall w w' ta tb,
    for_each cols (encode_col py_str a b) w = (Ok tt, w') ->
    nth_error (heap w) a = Some ta ->
    nth_error (heap w) b = Some tb ->
    forall col, In col cols ->
    exists c c' codes' ta' tb',
      lookup_col ta col = Some c /\
      lookup_col tb col = Some c' /\
      transform (fst (fit_transform (astype_str py_str c)))
        (astype_str py_str c') = Ok codes' /\
      nth_error (heap w') a = Some ta' /\
      nth_error (heap w') b = Some tb' /\
      lookup_col ta' col = Some (snd (fit_transform (astype_str py_str c))) /\
      lookup_col tb' col = Some codes'.
Proof.
  induction 1 as [|c0 cs Hnotin Hnd IH]; intros w w' ta tb Hrun Ha Hb col Hin.
  - destruct Hin.
  - simpl in Hrun. inv_M. destruct x.
    destruct (encode_col_inv _ _ _ _ _ _ E)
      as (ta0 & c & tb0 & c' & codes' & Ha0 & Hc & Hb0 & Hc' & Htr & Hw1).
    rewrite nth_update_ne in Hb0 by exact Hab.
    assert (ta0 = ta) by congruence. assert (tb0 = tb) by congruence.
    subst ta0 tb0.
    set (ta1 := put_col ta c0 (snd (fit_transform (astype_str py_str c)))) in *.
    set (tb1 := put_col tb c0 codes') in *.
    assert (Ha1 : nth_error (heap w0) a = Some ta1).
    { subst w0. cbn [heap]. rewrite nth_update_ne by congruence.
      eapply nth_update_eq; eauto. }
    assert (Hb1 : nth_error (heap w0) b = Some tb1).
    { subst w0. cbn [heap]. eapply nth_update_eq.
      rewrite nth_update_ne by exact Hab. eauto. }
    destruct (encode_loop_effect _ _ _ _ _ _ Hrun) as (_ & _ & _ & St).
    destruct Hin as [<-|Hin].
    + destruct (St _ _ Ha1) as (ta' & Ha' & _ & Ca & _).
      destruct (St _ _ Hb1) as (tb' & Hb' & _ & Cb & _).
      exists c, c', codes', ta', tb'.
      repeat (split; [assumption|]).
      rewrite (Ca _ Hnotin), (Cb _ Hnotin). subst ta1 tb1.
      rewrite !lookup_put_col, String.eqb_refl. auto.
    + assert (Hne : c0 <> col) by (intros ->; contradiction).
      destruct (IH w0 w' ta1 tb1 Hrun Ha1 Hb1 col Hin)
        as (x & x' & cd & ta' & tb' & Hx & Hx' & Ht & Ha' & Hb' & La & Lb).
      subst ta1 tb1. rewrite lookup_put_col in Hx, Hx'.
      apply String.eqb_neq in Hne. rewrite Hne in Hx, Hx'.
      exists x, x', cd, ta', tb'. repeat (split; [assumption|]). exact Lb.
Qed.

Lemma cats_NoDup : NoDup cats.
Proof.
  repeat constructor; simpl; intuition discriminate.
Qed.

(** X8.  With two distinct arguments, the two returned tables hold, in
    every categorical column, the label codes of the original columns, and
    the codes are consistent between the tables: a training cell and a test
    cell have the same code exactly when their values are the same text, as
    have two training cells. *)
Theorem encoding_is_consistent (a b ra rb : ref) (w w' : world)
    (ta tb : DataFrame) (col : string) (c c' : column) :
  encode_and_impute py_str a b w = (Ok (ra, rb), w') ->
  a <> b ->
  nth_error (heap w) a = Some ta ->
  nth_error (heap w) b = Some tb ->
  In col cats ->
  lookup_col ta col = Some c ->
  lookup_col tb col = Some c' ->
  exists Xa Xb codes codes',
    nth_error (heap w') ra = Some Xa /\
    nth_error (heap w') rb = Some Xb /\
    lookup_col Xa col = Some codes /\
    lookup_col Xb col = Some codes' /\
    List.length codes = List.length c /\
    List.length codes' = List.length c' /\
    (forall i j x y,
       nth_error c i = Some x -> nth_error c' j = Some y ->
       exists u v,
         nth_error codes i = Some (VInt u) /\
         nth_error codes' j = Some (VInt v) /\
         (u = v <-> astype_str_cell py_str x = astype_str_cell py_str y)) /\
    (forall i j x y,
       nth_error c i = Some x -> nth_error c j = Some y ->
       exists u v,
         nth_error codes i = Some (VInt u) /\
         nth_error codes j = Some (VInt v) /\
         (u = v <-> astype_str_cell py_str x = astype_str_cell py_str y)).
Proof.
  intros Hrun Hab Ha Hb Hin Hc Hc'.
  destruct (encode_and_impute_inv _ _ _ _ _ _ _ Hrun)
    as (w1 & ea & eb & Hloop & Hea & Heb & -> & -> & ->).
  destruct (encode_loop_codes a b Hab cats cats_NoDup _ _ _ _ Hloop Ha Hb col Hin)
    as (x & x' & codes' & ta' & tb' & Hx & Hx' & Htr & Ha' & Hb' & La & Lb).
  assert (x = c) by congruence. assert (x' = c') by congruence. subst x x'.
  assert (ta' = ea) by congruence. assert (tb' = eb) by congruence. subst ta' tb'.
  set (codes := snd (fit_transform (astype_str py_str c))) in *.
  exists (fillna0 ea), (fillna0 eb), codes, codes'. cbn [heap].
  split.
  { rewrite nth_error_app2 by lia. rewrite Nat.sub_diag. reflexivity. }
  split.
  { rewrite nth_error_app2 by lia.
    replace (S (List.length (heap w1)) - List.length (heap w1)) with 1 by lia.
    reflexivity. }
  split.
  { rewrite lookup_fillna0, La. cbn [option_map].
    rewrite fill0_codes by apply fit_transform_codes. reflexivity. }
  split.
  { rewrite lookup_fillna0, Lb. cbn [option_map].
    rewrite fill0_codes by (eapply transform_codes; eauto). reflexivity. }
  split.
  { subst codes. simpl. unfold astype_str. rewrite !length_map. reflexivity. }
  split.
  { unfold transform in Htr. apply mapM_length in Htr.
    unfold astype_str in Htr. rewrite length_map in Htr. exact Htr. }
  assert (Hstr : forall (l : column) i x, nth_error l i = Some x ->
            nth_error (astype_str py_str l) i = Some (astype_str_cell py_str x)).
  { intros l i x H. unfold astype_str. rewrite nth_error_map, H. reflexivity. }
  split.
  - intros i j x y Hi Hj.
    destruct (fit_transform_nth _ _ _ (Hstr _ _ _ Hi)) as (k & Hk & Ik).
    destruct (transform_nth _ _ _ _ _ Htr (Hstr _ _ _ Hj)) as (k' & Hk' & Ik').
    exists (Z.of_nat k), (Z.of_nat k'). split; [exact Hk|]. split; [exact Hk'|].
    split.
    + intros E. apply Nat2Z.inj in E. subst.
      apply index_of_nth in Ik. apply index_of_nth in Ik'. congruence.
    + intros E. rewrite E in Ik. f_equal. congruence.
  - intros i j x y Hi Hj.
    destruct (fit_transform_nth _ _ _ (Hstr _ _ _ Hi)) as (k & Hk & Ik).
    destruct (fit_transform_nth _ _ _ (Hstr _ _ _ Hj)) as (k' & Hk' & Ik').
    exists (Z.of_nat k), (Z.of_nat k'). split; [exact Hk|]. split; [exact Hk'|].
    split.
    + intros E. apply Nat2Z.inj in E. subst.
      apply index_of_nth in Ik. apply index_of_nth in Ik'. congruence.
    + intros E. rewrite E in Ik. f_equal. congruence.
Qed.

End EncodedTables.

Lemma encoding_is_consistent_witness :
  exists Xa Xb,
    nth_error
      (heap (snd (encode_and_impute decimal_str 0 1 scenario_heap))) 2 = Some Xa /\
    nth_error
      (heap (snd (encode_and_impute decimal_str 0 1 scenario_heap))) 3 = Some Xb /\
    lookup_col Xa "Gender" = Some [VInt 1; VInt 0] /\
    lookup_col Xb "Gender" = Some [VInt 0].
Proof.
  destruct (encoding_is_consistent decimal_str 0 1 2 3 scenario_heap
              (snd (encode_and_impute decimal_str 0 1 scenario_heap))
              scenario_X scenario_X_test "Gender"
              [VStr "M"; VStr "F"] [VStr "F"]
              eq_refl ltac:(discriminate) eq_refl eq_refl
              (or_introl eq_refl) eq_refl eq_refl)
    as (Xa & Xb & codes & codes' & Ha & Hb & La & Lb & _).
  exists Xa, Xb. split; [exact Ha|]. split; [exact Hb|].
  injection Ha as <-. injection Hb as <-. split; reflexivity.
Defined.

(** X9.  A training column with a single distinct category gets the
    one-entry encoding: [classes_] is that category, every training code is
    0, and a test column with the same single category is encoded to zeros
    without an error. *)
Theorem single_category_encoding (y : list string) (s : string) :
  y <> [] ->
  (forall x, In x y -> x = s) ->
  fit_transform y = ({| classes_ := [s] |}, repeat (VInt 0) (List.length y)) /\
  forall t, (forall x, In x t -> x = s) ->
    transform (fst (fit_transform y)) t = Ok (repeat (VInt 0) (List.length t)).
Proof.
  intros Hne Hall.
  assert (Hu : np_unique y = [s]).
  { apply sorted_same_elements.
    - apply np_unique_sorted.
    - repeat constructor.
    - intros x. rewrite np_unique_In. split.
      + intros Hx. left. symmetry. apply Hall, Hx.
      + intros [<-|[]]. destruct y as [|h t]; [congruence|].
        left. apply Hall. left; reflexivity. }
  assert (Hcode : forall l, (forall x, In x l -> x = s) ->
            map (code_of [s]) l = repeat (VInt 0) (List.length l)).
  { induction l as [|h t IH]; intros Hl; [reflexivity|].
    simpl. rewrite IH by (intros x Hx; apply Hl; right; exact Hx).
    rewrite (Hl h (or_introl eq_refl)).
    unfold code_of. simpl. rewrite String.eqb_refl. reflexivity. }
  split.
  - unfold fit_transform, fit. rewrite Hu. cbn [classes_].
    rewrite (Hcode y Hall). reflexivity.
  - intros t Ht. unfold fit_transform, fit, transform. cbn [fst classes_].
    rewrite Hu. induction t as [|h tl IH]; [reflexivity|].
    cbn [mapM List.length repeat].
    rewrite IH by (intros x Hx; apply Ht; right; exact Hx).
    rewrite (Ht h (or_introl eq_refl)). cbn [index_of].
    rewrite String.eqb_refl. reflexivity.
Qed.

Lemma single_category_encoding_witness :
  fit_transform ["F"; "F"; "F"]
  = ({| classes_ := ["F"] |}, [VInt 0; VInt 0; VInt 0]) /\
  transform (fst (fit_transform ["F"; "F"; "F"])) ["F"] = Ok [VInt 0].
Proof.
  destruct (single_category_encoding ["F"; "F"; "F"] "F") as [Hf Ht].
  - discriminate.
  - intros x [<-|[<-|[<-|[]]]]; reflexivity.
  - split; [exact Hf|]. apply (Ht ["F"]).
    intros x [<-|[]]; reflexivity.
Defined.

(** ** Effects on the world *)

Lemma preserves_bind {A B} (R : world -> world -> Prop)
    (m : M A) (k : A -> M B) :
  (forall w1 w2 w3, R w1 w2 -> R w2 w3 -> R w1 w3) ->
  preserves R m -> (forall a, preserves R (k a)) ->
  preserves R (mbind m k).
Proof.
  intros Tr Hm Hk w r w'. unfold mbind.
  destruct (m w) as [[a|e] w1] eqn:E.
  - intros H. eapply Tr; [eapply Hm; eauto | eapply Hk; eauto].
  - intros [= <- <-]. eapply Hm; eauto.
Qed.

Lemma preserves_pure {A} (R : world -> world -> Prop) (m : M A) :
  (forall w, R w w) ->
  (forall w r w', m w = (r, w') -> w' = w) ->
  preserves R m.
Proof. intros Rf Hm w r w' H. rewrite (Hm _ _ _ H). apply Rf. Qed.

Lemma deref_pure (x : ref) (w : world) (r : result DataFrame) (w' : world) :
  deref x w = (r, w') -> w' = w.
Proof. unfold deref. destruct (nth_error (heap w) x); intros [= _ <-]; reflexivity. Qed.

Lemma lift_pure {A} (x : result A) (w : world) (r : result A) (w' : world) :
  lift x w = (r, w') -> w' = w.
Proof. unfold lift. intros [= _ <-]. reflexivity. Qed.

Lemma mret_pure {A} (x : A) (w : world) (r : result A) (w' : world) :
  mret x w = (r, w') -> w' = w.
Proof. unfold mret. intros [= _ <-]. reflexivity. Qed.

Lemma frame_except_refl (P : ref -> Prop) (w : world) : frame_except P w w.
Proof. repeat split. Qed.

Lemma frame_except_trans (P : ref -> Prop) (w1 w2 w3 : world) :
  frame_except P w1 w2 -> frame_except P w2 w3 -> frame_except P w1 w3.
Proof.
  intros (F1 & L1 & N1) (F2 & L2 & N2). repeat split; try congruence.
  intros x Hx. rewrite (N2 x Hx). apply N1, Hx.
Qed.

Lemma assign_frame (P : ref -> Prop) (x : ref) (df : DataFrame) :
  P x -> preserves (frame_except P) (assign x df).
Proof.
  intros Px w r w'. unfold assign. intros [= _ <-].
  repeat split; cbn [heap files].
  - apply update_length.
  - intros y Hy. apply nth_update_ne. intros ->. contradiction.
Qed.

Lemma df_setitem_frame (P : ref -> Prop) (x : ref) (col : string) (v : column) :
  P x -> preserves (frame_except P) (df_setitem x col v).
Proof.
  intros Px. unfold df_setitem.
  apply preserves_bind; [apply frame_except_trans | |intros df].
  - apply preserves_pure; [apply frame_except_refl | apply deref_pure].
  - apply preserves_bind; [apply frame_except_trans | |intros df'].
    + apply preserves_pure; [apply frame_except_refl | apply lift_pure].
    + apply assign_frame, Px.
Qed.

Lemma df_getitem_frame (P : ref -> Prop) (x : ref) (col : string) :
  preserves (frame_except P) (df_getitem x col).
Proof.
  unfold df_getitem.
  apply preserves_bind; [apply frame_except_trans | |intros df].
  - apply preserves_pure; [apply frame_except_refl | apply deref_pure].
  - apply preserves_pure; [apply frame_except_refl | apply lift_pure].
Qed.

Lemma for_each_preserves {A} (R : world -> world -> Prop)
    (l : list A) (body : A -> M unit) :
  (forall w, R w w) ->
  (forall w1 w2 w3, R w1 w2 -> R w2 w3 -> R w1 w3) ->
  (forall a, preserves R (body a)) ->
  preserves R (for_each l body).
Proof.
  intros Rf Tr Hb. induction l as [|a l IH]; simpl.
  - apply preserves_pure; [exact Rf | apply mret_pure].
  - apply preserves_bind; auto.
Qed.

Section EncodeFailure.

Variable py_str : cell -> string.

Lemma encode_col_frame (a b : ref) (col : string) :
  preserves (frame_except (fun x => x = a \/ x = b))
    (encode_col py_str a b col).
Proof.
  unfold encode_col.
  apply preserves_bind; [apply frame_except_trans | apply df_getitem_frame |].
  intros c. destruct (fit_transform (astype_str py_str c)) as [le codes].
  apply preserves_bind; [apply frame_except_trans | |intros _].
  { apply df_setitem_frame. left; reflexivity. }
  apply preserves_bind; [apply frame_except_trans | apply df_getitem_frame |].
  intros c'.
  apply preserves_bind; [apply frame_except_trans | |intros codes'].
  { apply preserves_pure; [apply frame_except_refl | apply lift_pure]. }
  apply df_setitem_frame. right; reflexivity.
Qed.

Lemma encode_loop_frame (a b : ref) (cols : list string) :
  preserves (frame_except (fun x => x = a \/ x = b))
    (for_each cols (encode_col py_str a b)).
Proof.
  apply for_each_preserves;
    [apply frame_except_refl | apply frame_except_trans |].
  intros col. apply encode_col_frame.
Qed.

(** X10.  A call that raises has created no object: the heap has the same
    objects, the files and every object other than the two arguments are
    as before the call. *)
Theorem failed_encoding_creates_nothing (a b : ref) (w w' : world) (e : exn) :
  encode_and_impute py_str a b w = (Err e, w') ->
  files w' = files w /\
  List.length (heap w') = List.length (heap w) /\
  forall x, x <> a -> x <> b -> nth_error (heap w') x = nth_error (heap w) x.
Proof.
  unfold encode_and_impute, mbind. intros H.
  destruct (for_each cats (encode_col py_str a b) w) as [[[]|e0] w1] eqn:E.
  - exfalso.
    destruct (encode_loop_effect _ _ _ _ _ _ E) as (_ & L & B & _).
    destruct B as [La Lb]; [discriminate|].
    unfold deref, new in H.
    destruct (nth_error (heap w1) a) as [ta|] eqn:Ea;
      [|apply nth_error_None in Ea; lia].
    cbn [heap files] in H.
    destruct (nth_error (heap w1 ++ [fillna0 ta]) b) as [tb|] eqn:Eb;
      [discriminate H|].
    apply nth_error_None in Eb. rewrite length_app in Eb. simpl in Eb. lia.
  - injection H as <- <-.
    destruct (encode_loop_frame a b cats _ _ _ E) as (F & L & N).
    split; [exact F|]. split; [exact L|].
    intros x Na Nb. apply N. intros [?|?]; contradiction.
Qed.


(** X11.  When the test Gender column holds a value that the training
    Gender column does not, the call raises after the training table's
    Gender column has been overwritten with its codes: the exception leaves
    the training argument half encoded, and the test argument and
    everything else untouched. *)
Theorem unseen_gender_leaves_training_encoded (a b : ref) (w : world)
    (ta tb : DataFrame) (c c' : column) (v : string) :
  a <> b ->
  nth_error (heap w) a = Some ta ->
  nth_error (heap w) b = Some tb ->
  lookup_col ta "Gender" = Some c ->
  List.length c = nrows ta ->
  lookup_col tb "Gender" = Some c' ->
  In v (astype_str py_str c') ->
  ~ In v (astype_str py_str c) ->
  exists u,
    encode_and_impute py_str a b w =
    (Err (ValueError_unseen u),
     mkWorld
       (update (heap w) a
          (put_col ta "Gender" (snd (fit_transform (astype_str py_str c)))))
       (files w)).
Proof.
  intros Hab Ha Hb Hc Lc Hc' Hv Hn.
  assert (Sa : setitem ta "Gender" (snd (fit_transform (astype_str py_str c)))
               = Ok (put_col ta "Gender"
                       (snd (fit_transform (astype_str py_str c))))).
  { unfold setitem. destruct ta as [|p ta]; [discriminate|].
    simpl. unfold astype_str. rewrite !length_map, Lc. simpl.
    rewrite Nat.eqb_refl. reflexivity. }
  destruct (transform (fst (fit_transform (astype_str py_str c)))
              (astype_str py_str c')) as [codes'|e] eqn:Etr.
  { exfalso. apply Hn. apply (fit_transform_classes (astype_str py_str c)).
    eapply transform_seen; eauto. }
  destruct (transform_Err _ _ _ Etr) as (u & -> & _).
  exists u.
  unfold encode_and_impute, cats. cbn [for_each].
  unfold encode_col, df_getitem, df_setitem, mbind, deref, lift, assign.
  rewrite Ha. apply getitem_Ok in Hc. rewrite Hc.
  destruct (fit_transform (astype_str py_str c)) as [le codes] eqn:Efit.
  cbn [fst snd] in *. cbn [heap files]. rewrite Ha, Sa. cbn [heap files].
  rewrite nth_update_ne by exact Hab. rewrite Hb.
  apply getitem_Ok in Hc'. rewrite Hc', Etr. reflexivity.
Qed.

End EncodeFailure.

Lemma failed_encoding_creates_nothing_witness :
  List.length
    (heap (snd (encode_and_impute decimal_str 0 1 scenario_heap_unseen))) = 2.
Proof.
  destruct (failed_encoding_creates_nothing decimal_str 0 1
              scenario_heap_unseen
              (snd (encode_and_impute decimal_str 0 1 scenario_heap_unseen))
              (ValueError_unseen "U") eq_refl) as (_ & L & _).
  exact L.
Defined.

Lemma unseen_gender_leaves_training_encoded_witness :
  exists u t,
    encode_and_impute decimal_str 0 1 scenario_heap_unseen
    = (Err (ValueError_unseen u),
       mkWorld [t; scenario_X_test_unseen] []) /\
    lookup_col t "Gender" = Some [VInt 1; VInt 0].
Proof.
  destruct (unseen_gender_leaves_training_encoded decimal_str 0 1
              scenario_heap_unseen scenario_X scenario_X_test_unseen
              [VStr "M"; VStr "F"] [VStr "U"] "U"
              ltac:(discriminate) eq_refl eq_refl eq_refl eq_refl eq_refl
              (or_introl eq_refl)
              (fun H => match H with
                        | or_introl E => ltac:(discriminate E)
                        | or_intror (or_introl E) => ltac:(discriminate E)
                        | or_intror (or_intror F) => F
                        end))
    as (u & Hrun).
  exists u. eexists. split; [exact Hrun | reflexivity].
Defined.

Lemma nrows_put_col_same_length (df : DataFrame) (col : string) (c v : column) :
  lookup_col df col = Some c -> List.length v = List.length c ->
  nrows (put_col df col v) = nrows df.
Proof.
  destruct df as [|[n c0] df]; simpl; [discriminate|].
  destruct (String.eqb n col); simpl; [|reflexivity].
  intros [= ->]. auto.
Qed.

Lemma columns_fillna0 (df : DataFrame) : columns (fillna0 df) = columns df.
Proof.
  unfold columns, fillna0. rewrite map_map. apply map_ext.
  intros [n c]; reflexivity.
Qed.

Lemma nrows_fillna0 (df : DataFrame) : nrows (fillna0 df) = nrows df.
Proof.
  destruct df as [|[n c] df]; [reflexivity|]. simpl. apply length_map.
Qed.

Section EncodedShape.

Variable py_str : cell -> string.

Lemma encode_col_shape (a b : ref) (col : string) (w w' : world) :
  encode_col py_str a b col w = (Ok tt, w') ->
  forall r t, nth_error (heap w) r = Some t ->
    exists t', nth_error (heap w') r = Some t' /\
      columns t' = columns t /\ nrows t' = nrows t.
Proof.
  intros H.
  destruct (encode_col_inv _ _ _ _ _ _ H)
    as (ta & c & tb & c' & codes' & Ha & Hc & Hb & Hc' & Htr & ->).
  cbn [heap].
  assert (Lc : List.length (snd (fit_transform (astype_str py_str c)))
               = List.length c).
  { simpl. unfold astype_str. rewrite !length_map. reflexivity. }
  assert (Lc' : List.length codes' = List.length c').
  { unfold transform in Htr. apply mapM_length in Htr.
    unfold astype_str in Htr. rewrite length_map in Htr. exact Htr. }
  set (ta1 := put_col ta col (snd (fit_transform (astype_str py_str c)))) in *.
  assert (Sa : columns ta1 = columns ta /\ nrows ta1 = nrows ta).
  { split; [apply columns_put_col; eapply lookup_col_In_columns; eauto|].
    eapply nrows_put_col_same_length; eauto. }
  assert (Sb : columns (put_col tb col codes') = columns tb /\
               nrows (put_col tb col codes') = nrows tb).
  { split; [apply columns_put_col; eapply lookup_col_In_columns; eauto|].
    eapply nrows_put_col_same_length; eauto. }
  intros r t Hr.
  destruct (Nat.eq_dec r b) as [->|Nb].
  - rewrite (nth_update_eq _ _ _ _ Hb). eexists; split; [reflexivity|].
    destruct (Nat.eq_dec a b) as [->|Nab].
    + rewrite (nth_update_eq _ _ _ _ Ha) in Hb. injection Hb as <-.
      assert (t = ta) by congruence. subst t.
      destruct Sa, Sb. split; congruence.
    + rewrite nth_update_ne in Hb by exact Nab.
      assert (t = tb) by congruence. subst t. exact Sb.
  - rewrite nth_update_ne by congruence.
    destruct (Nat.eq_dec r a) as [->|Na].
    + rewrite (nth_update_eq _ _ _ _ Ha). assert (t = ta) by congruence.
      subst t. eexists; split; [reflexivity | exact Sa].
    + rewrite nth_update_ne by congruence. eauto.
Qed.

Lemma encode_loop_shape (a b : ref) (cols : list string) :
  forall w w',
  for_each cols (encode_col py_str a b) w = (Ok tt, w') ->
  forall r t, nth_error (heap w) r = Some t ->
    exists t', nth_error (heap w') r = Some t' /\
      columns t' = columns t /\ nrows t' = nrows t.
Proof.
  induction cols as [|c cs IH]; intros w w' H r t Hr.
  - simpl in H. inv_M. eauto.
  - simpl in H. inv_M. destruct x.
    destruct (encode_col_shape _ _ _ _ _ E _ _ Hr) as (t1 & Hr1 & C1 & N1).
    destruct (IH _ _ H _ _ Hr1) as (t2 & Hr2 & C2 & N2).
    exists t2. split; [exact Hr2|]. split; congruence.
Qed.

(** The two results of a successful call against the two arguments as
    they were before it. *)
Lemma encode_and_impute_tables (a b ra rb : ref) (w w' : world)
    (ta tb : DataFrame) :
  encode_and_impute py_str a b w = (Ok (ra, rb), w') ->
  nth_error (heap w) a = Some ta ->
  nth_error (heap w) b = Some tb ->
  exists Xa Xb,
    nth_error (heap w') ra = Some Xa /\
    nth_error (heap w') rb = Some Xb /\
    columns Xa = columns ta /\ columns Xb = columns tb /\
    nrows Xa = nrows ta /\ nrows Xb = nrows tb /\
    (forall name col v, In (name, col) Xa -> In v col -> isna v = false) /\
    (forall name col v, In (name, col) Xb -> In v col -> isna v = false) /\
    (forall col, ~ In col cats ->
       lookup_col Xa col = option_map (map fill0) (lookup_col ta col) /\
       lookup_col Xb col = option_map (map fill0) (lookup_col tb col)) /\
    (forall col, In col cats ->
       exists ca cb,
         lookup_col Xa col = Some ca /\ lookup_col Xb col = Some cb /\
         forallb is_code ca = true /\ forallb is_code cb = true).
Proof.
  intros Hrun Ha Hb.
  destruct (encode_and_impute_inv _ _ _ _ _ _ _ Hrun)
    as (w1 & ea & eb & Hloop & Hea & Heb & -> & -> & ->).
  destruct (encode_loop_shape _ _ _ _ _ Hloop _ _ Ha) as (ea' & Hea' & Ca & Na).
  destruct (encode_loop_shape _ _ _ _ _ Hloop _ _ Hb) as (eb' & Heb' & Cb & Nb).
  assert (ea' = ea) by congruence. assert (eb' = eb) by congruence. subst.
  destruct (encode_loop_effect _ _ _ _ _ _ Hloop) as (_ & _ & _ & St).
  destruct (St _ _ Ha) as (ea2 & Hea2 & _ & Fa & Ia).
  destruct (St _ _ Hb) as (eb2 & Heb2 & _ & Fb & Ib).
  assert (ea2 = ea) by congruence. assert (eb2 = eb) by congruence. subst.
  exists (fillna0 ea), (fillna0 eb). cbn [heap].
  split.
  { rewrite nth_error_app2 by lia. rewrite Nat.sub_diag. reflexivity. }
  split.
  { rewrite nth_error_app2 by lia.
    replace (S (List.length (heap w1)) - List.length (heap w1)) with 1 by lia.
    reflexivity. }
  rewrite !columns_fillna0, !nrows_fillna0.
  repeat (split; [assumption|]).
  split; [apply fillna0_no_missing|]. split; [apply fillna0_no_missing|].
  split.
  - intros col Hn. rewrite !lookup_fillna0, (Fa _ Hn), (Fb _ Hn). auto.
  - intros col Hin.
    destruct (Ia (or_introl eq_refl) col Hin) as (ca & Lca & Cca).
    destruct (Ib (or_intror eq_refl) col Hin) as (cb & Lcb & Ccb).
    exists ca, cb. rewrite !lookup_fillna0, Lca, Lcb. cbn [option_map].
    rewrite !fill0_codes by assumption. auto.
Qed.

(** X12.  The two returned tables have the column names, the column
    order and the number of rows of the two arguments as they were before
    the call, and outside the three categorical columns every cell is the
    argument's cell, with zero in place of a missing one. *)
Theorem encode_and_impute_shape (a b ra rb : ref) (w w' : world)
    (ta tb : DataFrame) :
  encode_and_impute py_str a b w = (Ok (ra, rb), w') ->
  nth_error (heap w) a = Some ta ->
  nth_error (heap w) b = Some tb ->
  exists Xa Xb,
    nth_error (heap w') ra = Some Xa /\
    nth_error (heap w') rb = Some Xb /\
    columns Xa = columns ta /\ columns Xb = columns tb /\
    nrows Xa = nrows ta /\ nrows Xb = nrows tb /\
    (forall col, ~ In col cats ->
       lookup_col Xa col = option_map (map fill0) (lookup_col ta col) /\
       lookup_col Xb col = option_map (map fill0) (lookup_col tb col)).
Proof.
  intros Hrun Ha Hb.
  destruct (encode_and_impute_tables _ _ _ _ _ _ _ _ Hrun Ha Hb)
    as (Xa & Xb & H1 & H2 & H3 & H4 & H5 & H6 & _ & _ & H7 & _).
  exists Xa, Xb. repeat (split; [assumption|]). exact H7.
Qed.

End EncodedShape.

Lemma encode_and_impute_shape_witness :
  exists Xa,
    nth_error
      (heap (snd (encode_and_impute decimal_str 0 1 scenario_heap))) 2 = Some Xa /\
    columns Xa = FEATURES /\ nrows Xa = 2 /\
    lookup_col Xa "Age" = Some [VInt 30; VInt 45].
Proof.
  destruct (encode_and_impute_shape decimal_str 0 1 2 3 scenario_heap
              (snd (encode_and_impute decimal_str 0 1 scenario_heap))
              scenario_X scenario_X_test eq_refl eq_refl eq_refl)
    as (Xa & Xb & Ha & _ & Ca & _ & Na & _ & Hpass).
  exists Xa. split; [exact Ha|]. split; [exact Ca|]. split; [exact Na|].
  rewrite (proj1 (Hpass "Age"
                    ltac:(simpl; intuition discriminate))).
  reflexivity.
Defined.

(** ** Model selection for arbitrary metric values *)

Lemma foldM_app {A S} (f : S -> A -> result S) (l1 l2 : list A) (s : S) :
  foldM f (l1 ++ l2) s = rbind (foldM f l1 s) (foldM f l2).
Proof.
  revert s; induction l1 as [|a l1 IH]; intros s; simpl; [reflexivity|].
  destruct (f s a) as [s'|e]; simpl; [apply IH | reflexivity].
Qed.

Section ModelSelectorMore.

Variable fitted : Type.
Variable GridSearchCV_fit :
  estimator -> param_grid -> DataFrame -> column -> result fitted.
Variable predict : fitted -> DataFrame -> result (list float64).
Variable root_mean_squared_error : column -> list float64 -> result float64.

Variable X_tr : DataFrame.
Variable y_tr : column.
Variable X_val : DataFrame.
Variable y_val : column.

Let evaluate_def (def : string * (estimator * param_grid))
  : result (fitted * float64) :=
  evaluate fitted GridSearchCV_fit predict root_mean_squared_error
    X_tr y_tr X_val y_val (fst (snd def)) (snd (snd def)).

Let step :=
  compare_step fitted GridSearchCV_fit predict root_mean_squared_error
    X_tr y_tr X_val y_val.

Lemma compare_step_inv (st st' : best_state fitted)
    (def : string * (estimator * param_grid)) :
  step st def = Ok st' ->
  exists m r,
    evaluate_def def = Ok (m, r) /\
    ((f_ltb r (fst (fst st)) = true /\ st' = (r, Some m, Some (fst def))) \/
     (f_ltb r (fst (fst st)) = false /\ st' = st)).
Proof.
  unfold step, compare_step, evaluate_def.
  destruct st as [[br bm] bn], def as [name [est grid]]. cbn [fst snd].
  intros H. inv_result. destruct x as [m r]. exists m, r.
  split; [assumption|].
  destruct (f_ltb r br); injection H as <-; auto.
Qed.

(** The loop from any running best, for any metric values. *)
Lemma compare_loop_any (defs : list (string * (estimator * param_grid))) :
  forall st st',
  foldM step defs st = Ok st' ->
  (forall def, In def defs ->
     exists m r, evaluate_def def = Ok (m, r) /\
                 f_ltb r (fst (fst st')) = false) /\
  (f_ltb (fst (fst st')) (fst (fst st)) = true \/
   fst (fst st') = fst (fst st)) /\
  (st' = st \/
   exists def m,
     In def defs /\ snd (fst st') = Some m /\
     evaluate_def def = Ok (m, fst (fst st')) /\
     f_ltb (fst (fst st')) (fst (fst st)) = true).
Proof.
  induction defs as [|def defs IH]; intros st st' H.
  - simpl in H. injection H as <-. split; [intros d []|]. split; auto.
  - simpl in H. inv_result.
    destruct (compare_step_inv _ _ _ E) as (m0 & r0 & Hev & Hcase).
    destruct (IH _ _ H) as (Hall & Hmono & Hres).
    destruct Hcase as [[Hlt ->]|[Hge ->]]; cbn [fst snd] in *.
    + split; [|split].
      * intros d [<-|Hd]; [|auto].
        exists m0, r0. split; [exact Hev|].
        destruct Hmono as [Hm|Hm]; [|rewrite Hm; apply f_ltb_irrefl].
        destruct (f_ltb r0 (fst (fst st'))) eqn:Ex; [|reflexivity].
        rewrite <- (f_ltb_irrefl r0). symmetry.
        eapply f_ltb_trans; eauto.
      * left. destruct Hmono as [Hm|Hm]; [|rewrite Hm; exact Hlt].
        eapply f_ltb_trans; eauto.
      * right. destruct Hres as [->|(d & m & Hd & Hm & Hevd & Hltd)].
        -- exists def, m0. cbn [fst snd]. repeat split; auto. left; reflexivity.
        -- exists d, m. repeat split; auto; [right; exact Hd|].
           eapply f_ltb_trans; eauto.
    + split; [|split].
      * intros d [<-|Hd]; [|auto].
        exists m0, r0. split; [exact Hev|].
        eapply f_ltb_not_below; eauto.
      * exact Hmono.
      * destruct Hres as [->|(d & m & Hd & Hm & Hevd & Hltd)]; [left; reflexivity|].
        right. exists d, m. repeat split; auto. right; exact Hd.
Qed.

(** X13.  Whatever the metric returns (infinities and NaN included), a
    returned estimator is the best estimator of one of the three families
    together with that family's own RMSE, which is below the initial
    infinity, and no family has an RMSE strictly below the returned one;
    [None] is returned, with infinity, exactly when no family was below
    infinity. *)
Theorem compare_models_result (best_model : option fitted) (best_rmse : float64) :
  compare_models fitted GridSearchCV_fit predict root_mean_squared_error
    X_tr y_tr X_val y_val = Ok (best_model, best_rmse) ->
  (forall def, In def model_defs ->
     exists m r, evaluate_def def = Ok (m, r) /\ f_ltb r best_rmse = false) /\
  ((best_model = None /\ best_rmse = inf) \/
   (exists def m,
      In def model_defs /\ best_model = Some m /\
      evaluate_def def = Ok (m, best_rmse) /\
      f_ltb best_rmse inf = true)).
Proof.
  unfold compare_models, compare_loop. fold step. intros H. inv_result.
  destruct x as [[br bm] bn]. injection H as <- <-.
  destruct (compare_loop_any _ _ _ E) as (Hall & _ & Hres).
  cbn [fst snd] in *. split; [exact Hall|].
  destruct Hres as [[= -> -> ->]|(d & m & Hd & Hm & Hev & Hlt)]; [left; auto|].
  right. exists d, m. auto.
Qed.

(** X14.  When the evaluation of one family raises, [compare_models]
    raises that exception, also when families evaluated before it
    succeeded: no best-so-far estimator is returned. *)
Theorem compare_models_propagates_failure
    (before after : list (string * (estimator * param_grid)))
    (def : string * (estimator * param_grid)) (e : exn) :
  model_defs = before ++ def :: after ->
  (forall d, In d before -> exists ev, evaluate_def d = Ok ev) ->
  evaluate_def def = Err e ->
  compare_models fitted GridSearchCV_fit predict root_mean_squared_error
    X_tr y_tr X_val y_val = Err e.
Proof.
  intros Hsplit Hbefore Hfail.
  unfold compare_models, compare_loop. fold step. rewrite Hsplit, foldM_app.
  assert (Hpre : forall st, exists st', foldM step before st = Ok st').
  { clear Hsplit. induction before as [|d ds IH]; intros st; simpl; [eauto|].
    destruct (Hbefore d (or_introl eq_refl)) as [[m r] Hev].
    assert (Hs : exists s1, step st d = Ok s1).
    { unfold step, compare_step. destruct st as [[br bm] bn].
      destruct d as [name [est grid]]. unfold evaluate_def in Hev.
      cbn [fst snd] in Hev. rewrite Hev. cbn [rbind].
      destruct (f_ltb r br); eauto. }
    destruct Hs as [s1 ->]. cbn [rbind].
    apply IH. intros d' Hd'. apply Hbefore. right; exact Hd'. }
  destruct (Hpre (inf, None, None)) as [st' ->]. cbn [rbind foldM].
  unfold step at 1, compare_step. destruct st' as [[br bm] bn].
  destruct def as [name [est grid]]. unfold evaluate_def in Hfail.
  cbn [fst snd] in Hfail. rewrite Hfail. reflexivity.
Qed.

End ModelSelectorMore.

Lemma compare_models_result_witness :
  exists def m,
    In def model_defs /\
    evaluate const_model (const_search levels) const_predict exact_rmse
      toy_X toy_y toy_X_val toy_y_val (fst (snd def)) (snd (snd def))
    = Ok (m, Finite 1) /\
    m = (RandomForestRegressor, 10%Q).
Proof.
  destruct (compare_models_result const_model (const_search levels)
              const_predict exact_rmse toy_X toy_y toy_X_val toy_y_val
              (Some (RandomForestRegressor, 10%Q)) (Finite 1) eq_refl)
    as (_ & [[H _]|(def & m & Hin & Hm & Hev & _)]); [discriminate H|].
  exists def, m. split; [exact Hin|]. split; [exact Hev|].
  injection Hm as <-. reflexivity.
Defined.

(** Every family at infinity: nothing is selected. *)
Lemma compare_models_overflow_example :
  compare_models const_model (const_search levels) const_predict
    overflowed_rmse toy_X toy_y toy_X_val toy_y_val = Ok (None, inf).
Proof. reflexivity. Qed.

Lemma compare_models_propagates_failure_witness :
  compare_models const_model (forest_fails levels) const_predict exact_rmse
    toy_X toy_y toy_X_val toy_y_val = Err LibraryError.
Proof.
  apply (compare_models_propagates_failure const_model (forest_fails levels)
           const_predict exact_rmse toy_X toy_y toy_X_val toy_y_val
           [nth 0 model_defs ("", ({| algo := CatBoostRegressor;
                                      random_state := 0 |}, []))]
           [nth 2 model_defs ("", ({| algo := CatBoostRegressor;
                                      random_state := 0 |}, []))]
           (nth 1 model_defs ("", ({| algo := CatBoostRegressor;
                                      random_state := 0 |}, [])))).
  - reflexivity.
  - intros d [<-|[]]. eexists. reflexivity.
  - reflexivity.
Defined.

(** ** Files and objects of the pipeline *)

Lemma same_files_refl (w : world) : same_files w w.
Proof. reflexivity. Qed.

Lemma same_files_trans (w1 w2 w3 : world) :
  same_files w1 w2 -> same_files w2 w3 -> same_files w1 w3.
Proof. unfold same_files. congruence. Qed.

Lemma frame_same_files {A} (P : ref -> Prop) (m : M A) :
  preserves (frame_except P) m -> preserves same_files m.
Proof. intros H w r w' E. exact (proj1 (H w r w' E)). Qed.

Lemma new_same_files (df : DataFrame) : preserves same_files (new df).
Proof. intros w r w'. unfold new. intros [= _ <-]. reflexivity. Qed.

Lemma read_csv_same_files (path : string) : preserves same_files (read_csv path).
Proof.
  intros w r w'. unfold read_csv.
  destruct (find_content (files w) path) as [[df|e]|].
  - apply new_same_files.
  - intros [= _ <-]. reflexivity.
  - intros [= _ <-]. reflexivity.
Qed.

Lemma deref_same_files (x : ref) : preserves same_files (deref x).
Proof. apply preserves_pure; [apply same_files_refl | apply deref_pure]. Qed.

Lemma lift_same_files {A} (x : result A) : preserves same_files (lift x).
Proof. apply preserves_pure; [apply same_files_refl | apply lift_pure]. Qed.

Lemma mret_same_files {A} (x : A) : preserves same_files (mret x).
Proof. apply preserves_pure; [apply same_files_refl | apply mret_pure]. Qed.

Lemma load_data_same_files (p1 p2 p3 : string) :
  preserves same_files (load_data p1 p2 p3).
Proof.
  unfold load_data.
  repeat (apply preserves_bind;
          [exact same_files_trans | apply read_csv_same_files | intros ?]).
  apply mret_same_files.
Qed.

Lemma encode_and_impute_same_files (py_str : cell -> string) (a b : ref) :
  preserves same_files (encode_and_impute py_str a b).
Proof.
  unfold encode_and_impute.
  apply preserves_bind; [exact same_files_trans | |intros _].
  { eapply frame_same_files. apply encode_loop_frame. }
  apply preserves_bind; [exact same_files_trans | apply deref_same_files |intros tr].
  apply preserves_bind; [exact same_files_trans | apply new_same_files |intros ra].
  apply preserves_bind; [exact same_files_trans | apply deref_same_files |intros te].
  apply preserves_bind; [exact same_files_trans | apply new_same_files |intros rb].
  apply mret_same_files.
Qed.

Lemma library_call_Ok {A} (writes : file_system -> file_system)
    (r : result A) (w w' : world) (a : A) :
  library_call writes r w = (Ok a, w') ->
  r = Ok a /\ w' = mkWorld (heap w) (writes (files w)).
Proof. unfold library_call. intros [= -> <-]. auto. Qed.

Lemma find_file_written (fs : file_system) (path : string) (df : DataFrame) :
  find_file ((path, Table df) :: fs) path = Some df.
Proof. unfold find_file. cbn [find_content]. rewrite String.eqb_refl. reflexivity. Qed.

(** ** Loading the files *)

Lemma read_csv_Err (path : string) (w w' : world) (e : exn) :
  read_csv path w = (Err e, w') ->
  w' = w /\
  ((find_content (files w) path = None /\ e = FileNotFoundError path) \/
   find_content (files w) path = Some (Unreadable e)).
Proof.
  unfold read_csv. destruct (find_content (files w) path) as [[df|e0]|].
  - unfold new. discriminate.
  - intros [= <- <-]. auto.
  - intros [= <- <-]. auto.
Qed.

Lemma find_file_content (fs : file_system) (path : string) (df : DataFrame) :
  find_file fs path = Some df <-> find_content fs path = Some (Table df).
Proof.
  unfold find_file. destruct (find_content fs path) as [[t|e]|];
    split; congruence.
Qed.

(** X16.  [load_data] returns exactly when the three paths name files that
    [pd.read_csv] reads as tables.  The three returned DataFrames are then
    three new objects holding the files' tables, distinct from each other
    (also when two paths are the same) and from every existing object,
    which is left as it was.  Otherwise the call raises for the first of
    the three paths, in the order train, test, submission, that it cannot
    read: [FileNotFoundError] when the path names no file, the parser's
    exception when the file is not readable as a table; the objects
    created for the paths before it stay behind.  In both cases no file is
    changed. *)
Theorem load_data_outcome (train_path test_path submission_path : string)
    (w w' : world) (r : result (ref * ref * ref)) :
  load_data train_path test_path submission_path w = (r, w') ->
  files w' = files w /\
  match r with
  | Ok (a, b, c) =>
      exists ta tb tc,
        find_file (files w) train_path = Some ta /\
        find_file (files w) test_path = Some tb /\
        find_file (files w) submission_path = Some tc /\
        a = List.length (heap w) /\ b = S a /\ c = S (S a) /\
        heap w' = heap w ++ [ta; tb; tc]
  | Err e =>
      exists before path after tables,
        [train_path; test_path; submission_path] = before ++ path :: after /\
        Forall2 (fun p t => find_file (files w) p = Some t) before tables /\
        ((find_content (files w) path = None /\ e = FileNotFoundError path) \/
         find_content (files w) path = Some (Unreadable e)) /\
        heap w' = heap w ++ tables
  end.
Proof.
  intros H. split; [exact (load_data_same_files _ _ _ _ _ _ H)|].
  revert H. unfold load_data, mbind.
  destruct (read_csv train_path w) as [[a|e1] w1] eqn:E1.
  2:{ intros [= <- <-]. apply read_csv_Err in E1. destruct E1 as (-> & N).
      exists [], train_path, [test_path; submission_path], [].
      split; [reflexivity|]. split; [constructor|]. split; [exact N|].
      rewrite app_nil_r. reflexivity. }
  apply read_csv_Ok in E1. destruct E1 as (ta & Fa & -> & ->).
  destruct (read_csv test_path _) as [[b|e2] w2] eqn:E2.
  2:{ intros [= <- <-]. apply read_csv_Err in E2. destruct E2 as (-> & N).
      cbn [files heap] in *.
      exists [train_path], test_path, [submission_path], [ta].
      split; [reflexivity|]. split; [repeat constructor; exact Fa|].
      split; [exact N | reflexivity]. }
  apply read_csv_Ok in E2. destruct E2 as (tb & Fb & -> & ->).
  cbn [heap files] in *.
  destruct (read_csv submission_path _) as [[c|e3] w3] eqn:E3.
  2:{ intros [= <- <-]. apply read_csv_Err in E3. destruct E3 as (-> & N).
      cbn [files heap] in *.
      exists [train_path; test_path], submission_path, [], [ta; tb].
      split; [reflexivity|]. split; [repeat constructor; assumption|].
      split; [exact N|]. rewrite <- app_assoc. reflexivity. }
  apply read_csv_Ok in E3. destruct E3 as (tc & Fc & -> & ->).
  cbn [heap files] in *.
  unfold mret. intros [= <- <-].
  exists ta, tb, tc. cbn [heap].
  rewrite !length_app. simpl.
  repeat split; auto; try lia.
  rewrite <- !app_assoc. reflexivity.
Qed.

Lemma load_data_outcome_witness :
  heap (snd (load_data "train.csv" "train.csv" "sample_submission.csv"
               scenario_world))
  = [scenario_train_file; scenario_train_file; scenario_submission] /\
  load_data "train.csv" "test.csv" "sample_submission.csv" no_test_world
  = (Err (FileNotFoundError "test.csv"), mkWorld [scenario_train_file] (files no_test_world)) /\
  load_data "train.csv" "test.csv" "sample_submission.csv" empty_test_world
  = (Err EmptyDataError, mkWorld [scenario_train_file] (files empty_test_world)).
Proof.
  split; [|split].
  - destruct (load_data_outcome "train.csv" "train.csv" "sample_submission.csv"
                scenario_world
                (snd (load_data "train.csv" "train.csv" "sample_submission.csv"
                        scenario_world))
                (Ok (0, 1, 2)) eq_refl)
      as (_ & ta & tb & tc & Fa & Fb & Fc & _ & _ & _ & Hh).
    injection Fa as <-. injection Fb as <-. injection Fc as <-. exact Hh.
  - destruct (load_data_outcome "train.csv" "test.csv" "sample_submission.csv"
                no_test_world
                (snd (load_data "train.csv" "test.csv" "sample_submission.csv"
                        no_test_world))
                (Err (FileNotFoundError "test.csv")) eq_refl)
      as (_ & before & path & after & tables & _ & _ & _ & _).
    reflexivity.
  - destruct (load_data_outcome "train.csv" "test.csv" "sample_submission.csv"
                empty_test_world
                (snd (load_data "train.csv" "test.csv" "sample_submission.csv"
                        empty_test_world))
                (Err EmptyDataError) eq_refl)
      as (_ & before & path & after & tables & _ & _ & _ & _).
    reflexivity.
Defined.

(** ** The pipeline driver, step by step *)

Ltac open_pairs :=
  repeat match goal with
    | H : context [let (_, _) := ?p in _] |- _ => destruct p
    | u : unit |- _ => destruct u
    end.

Ltac resolve_nth H :=
  first
    [ rewrite nth_error_app_last in H; injection H as H
    | rewrite nth_error_app1 in H by (rewrite ?length_app; simpl; lia) ].

Ltac inv_library :=
  repeat match goal with
    | H : library_call _ _ _ = (Ok _, _) |- _ =>
        apply library_call_Ok in H; destruct H as [H ?]; subst
    end.

Lemma select_inv (df df' : DataFrame) (cols : list string) :
  select df cols = Ok df' ->
  columns df' = cols /\
  forall col, In col cols ->
    exists c, lookup_col df col = Some c /\ lookup_col df' col = Some c.
Proof.
  unfold select. revert df'.
  induction cols as [|h cols IH]; intros df' H; simpl in H; inv_result.
  - split; [reflexivity | intros col []].
  - destruct (IH _ E0) as [Hc Hl].
    match goal with
    | G : getitem df h = Ok ?c |- _ => apply getitem_Ok in G; rename G into Hh
    end.
    split; [simpl; f_equal; exact Hc|].
    intros col Hin. simpl.
    destruct (String.eqb_spec h col) as [<-|Hne]; [eauto|].
    destruct Hin as [->|Hin]; [contradiction | auto].
Qed.

(** The selection has as many rows as its first column has entries. *)
Lemma select_nrows (df df' : DataFrame) (col : string) (cols : list string)
    (c : column) :
  select df (col :: cols) = Ok df' ->
  lookup_col df col = Some c ->
  nrows df' = List.length c.
Proof.
  unfold select. intros H Hc. simpl in H. apply getitem_Ok in Hc.
  rewrite Hc in H. simpl in H. inv_result. reflexivity.
Qed.

Lemma rectangular_lookup (df : DataFrame) (col : string) (c : column) :
  rectangular df -> lookup_col df col = Some c -> List.length c = nrows df.
Proof.
  unfold rectangular. intros R.
  generalize (nrows df) R. clear R. intros n R.
  induction R as [|[name c0] df' Hc R IH]; simpl; [discriminate|].
  destruct (String.eqb name col); [intros [= <-]; exact Hc | exact IH].
Qed.

Lemma train_test_split_lengths (shuffle_split : nat -> option (list nat * list nat))
    (X X_tr X_val : DataFrame) (y y_tr y_val : column) :
  train_test_split shuffle_split X y = Ok (X_tr, X_val, y_tr, y_val) ->
  List.length y = nrows X.
Proof.
  unfold train_test_split.
  destruct (Nat.eqb_spec (List.length y) (nrows X)); [auto | discriminate].
Qed.

Section PipelineMore.

Variable parse_datetime : cell -> option Z.
Variable py_str : cell -> string.
Variable fitted : Type.
Variable GridSearchCV_fit :
  estimator -> param_grid -> DataFrame -> column -> result fitted.
Variable predict : fitted -> DataFrame -> result (list float64).
Variable root_mean_squared_error : column -> list float64 -> result float64.
Variable refit : fitted -> DataFrame -> column -> result fitted.
Variable shuffle_split : nat -> option (list nat * list nat).
Variable search_writes : file_system -> file_system.
Variable refit_writes : file_system -> file_system.

(** The steps of a run that returns. *)
Lemma main_inv (w w' : world) (model : fitted) :
  main parse_datetime py_str fitted GridSearchCV_fit predict
    root_mean_squared_error refit shuffle_split search_writes refit_writes w
  = (Ok model, w') ->
  exists train test sub train' test' X0 Xt0 y w1 w2 a b ra rb X X_test
         X_tr X_val y_tr y_val best rmse y_hat,
    find_file (files w) "train.csv" = Some train /\
    find_file (files w) "test.csv" = Some test /\
    find_file (files w) "sample_submission.csv" = Some sub /\
    clean_and_engineer parse_datetime train = Ok train' /\
    clean_and_engineer parse_datetime test = Ok test' /\
    select train' FEATURES = Ok X0 /\
    getitem train' target = Ok y /\
    select test' FEATURES = Ok Xt0 /\
    nth_error (heap w1) a = Some X0 /\
    nth_error (heap w1) b = Some Xt0 /\
    encode_and_impute py_str a b w1 = (Ok (ra, rb), w2) /\
    nth_error (heap w2) ra = Some X /\
    nth_error (heap w2) rb = Some X_test /\
    train_test_split shuffle_split X y = Ok (X_tr, X_val, y_tr, y_val) /\
    compare_models fitted GridSearchCV_fit predict root_mean_squared_error
      X_tr y_tr X_val y_val = Ok (Some best, rmse) /\
    refit best X y = Ok model /\
    predict model X_test = Ok y_hat /\
    setitem sub target (map VFloat y_hat)
    = Ok (put_col sub target (map VFloat y_hat)) /\
    files w' = ("submission.csv", Table (put_col sub target (map VFloat y_hat)))
               :: refit_writes (search_writes (files w)).
Proof.
  unfold main, load_data, call_clean_and_engineer, df_select, df_getitem.
  intros H. inv_M. open_pairs. inv_M. open_pairs. inv_M. open_pairs.
  inv_library. inv_M. open_pairs.
  match goal with
  | H : context [match ?o with Some _ => _ | None => _ end] |- _ =>
      destruct o as [best|]; [|unfold lift in H; discriminate H]
  end.
  inv_M. open_pairs. inv_library. inv_M. open_pairs.
  repeat match goal with
    | H : to_csv _ _ _ = (Ok _, _) |- _ =>
        apply to_csv_Ok in H; destruct H as (out & Hout & ->)
    | H : df_setitem _ _ _ _ = (Ok _, _) |- _ =>
        apply df_setitem_Ok in H; destruct H as (sub' & Hsub' & Hset & ->)
    end.
  repeat match goal with
    | H : read_csv _ _ = (Ok _, _) |- _ =>
        let df := fresh "file" in
        let F := fresh "F" in
        apply read_csv_Ok in H; destruct H as (df & F & -> & ->)
    end.
  cbn [heap files] in *.
  repeat match goal with
    | H : nth_error (_ ++ [_]) _ = Some _ |- _ => repeat resolve_nth H; subst
    end.
  match goal with
  | He : encode_and_impute _ _ _ _ = (Ok _, ?w2) |- _ =>
      destruct (encode_and_impute_frame _ _ _ _ _ _ _ He) as [Ffiles Fr];
      cbn [heap files] in Ffiles, Fr
  end.
  match goal with
  | Fs : find_file _ "sample_submission.csv" = Some ?s |- _ =>
      match type of Hsub' with
      | nth_error ?h ?n = _ => assert (Hs : nth_error h n = Some s)
      end
  end.
  { apply Fr; [rewrite !length_app; simpl; lia | rewrite !length_app; simpl; lia |].
    repeat first [apply nth_error_app_last | apply nth_error_app_old]. }
  rewrite Hs in Hsub'. injection Hsub' as <-.
  rewrite (nth_update_eq _ _ _ _ Hs) in Hout. injection Hout as <-.
  repeat match goal with
    | H1 : nth_error ?l ?n = Some ?u, H2 : nth_error ?l ?n = Some ?v |- _ =>
        rewrite H1 in H2; injection H2 as <-
    end.
  match goal with
  | Ft : find_file _ "train.csv" = Some ?train,
    Fe : find_file _ "test.csv" = Some ?test,
    Fs : find_file _ "sample_submission.csv" = Some ?sub,
    Ct : clean_and_engineer _ ?train = Ok ?train',
    Ce : clean_and_engineer _ ?test = Ok ?test',
    St : select ?train' FEATURES = Ok ?X0,
    Gy : getitem ?train' target = Ok ?y,
    Se : select ?test' FEATURES = Ok ?Xt0,
    En : encode_and_impute _ ?a ?b ?w1 = (Ok (?ra, ?rb), ?w2),
    HX : nth_error (heap ?w2) ?ra = Some ?X,
    HT : nth_error (heap ?w2) ?rb = Some ?Xt,
    Sp : train_test_split _ ?X ?y = Ok (?X_tr, ?X_val, ?y_tr, ?y_val),
    Cm : compare_models _ _ _ _ _ _ _ _ = Ok (Some ?b', ?rm),
    Pr : predict model ?Xt = Ok ?yh |- _ =>
      exists train, test, sub, train', test', X0, Xt0, y, w1, w2, a, b, ra, rb,
             X, Xt, X_tr, X_val, y_tr, y_val, b', rm, yh
  end.
  do 8 (split; [assumption|]).
  split.
  { cbn [heap]. repeat first [apply nth_error_app_last | apply nth_error_app_old]. }
  split.
  { cbn [heap]. repeat first [apply nth_error_app_last | apply nth_error_app_old]. }
  do 8 (split; [assumption|]).
  rewrite Ffiles. reflexivity.
Qed.

(** X17.  In a run that returns, the matrix the selected estimator is
    refitted on and the matrix it predicts for have exactly the columns of
    [FEATURES], in that order, and no missing cell.  Their nine numeric
    columns are the engineered columns of the cleaned training and test
    files with every missing value replaced by 0, their three categorical
    columns hold label codes, and the target has one entry per row of the
    training matrix. *)
Theorem main_feature_matrices (w w' : world) (model : fitted) :
  main parse_datetime py_str fitted GridSearchCV_fit predict
    root_mean_squared_error refit shuffle_split search_writes refit_writes w
  = (Ok model, w') ->
  exists train test train' test' y best X X_test y_hat,
    find_file (files w) "train.csv" = Some train /\
    find_file (files w) "test.csv" = Some test /\
    clean_and_engineer parse_datetime train = Ok train' /\
    clean_and_engineer parse_datetime test = Ok test' /\
    lookup_col train' target = Some y /\
    refit best X y = Ok model /\
    predict model X_test = Ok y_hat /\
    columns X = FEATURES /\ columns X_test = FEATURES /\
    List.length y = nrows X /\
    (forall name col v, In (name, col) X -> In v col -> isna v = false) /\
    (forall name col v, In (name, col) X_test -> In v col -> isna v = false) /\
    (forall col, In col FEATURES -> ~ In col cats ->
       exists c ct,
         lookup_col train' col = Some c /\
         lookup_col test' col = Some ct /\
         lookup_col X col = Some (map fill0 c) /\
         lookup_col X_test col = Some (map fill0 ct)) /\
    (forall col, In col cats ->
       exists ca cb,
         lookup_col X col = Some ca /\ lookup_col X_test col = Some cb /\
         forallb is_code ca = true /\ forallb is_code cb = true).
Proof.
  intros H.
  destruct (main_inv _ _ _ H)
    as (train & test & sub & train' & test' & X0 & Xt0 & y & w1 & w2 & a & b &
        ra & rb & X & X_test & X_tr & X_val & y_tr & y_val & best & rmse &
        y_hat & Ft & Fe & _ & Ct & Ce & St & Gy & Se & Ha & Hb & En & HX & HT &
        Sp & _ & Rf & Pr & _).
  destruct (encode_and_impute_tables _ _ _ _ _ _ _ _ _ En Ha Hb)
    as (Xa & Xb & HXa & HXb & Ca & Cb & _ & _ & Ma & Mb & Hnum & Hcat).
  assert (Xa = X) by congruence. assert (Xb = X_test) by congruence. subst.
  destruct (select_inv _ _ _ St) as [Cs Ls].
  destruct (select_inv _ _ _ Se) as [Cse Lse].
  exists train, test, train', test', y, best, X, X_test, y_hat.
  do 4 (split; [assumption|]).
  split; [apply getitem_Ok; exact Gy|].
  do 2 (split; [assumption|]).
  split; [congruence|]. split; [congruence|].
  split; [eapply train_test_split_lengths; eauto|].
  split; [exact Ma|]. split; [exact Mb|].
  split; [|exact Hcat].
  intros col Hf Hn.
  destruct (Ls col Hf) as (c & Lc & Lc0).
  destruct (Lse col Hf) as (ct & Lt & Lt0).
  destruct (Hnum col Hn) as [Na Nb].
  rewrite Lc0 in Na. rewrite Lt0 in Nb.
  exists c, ct. auto.
Qed.

(** X18.  The estimator [main] returns is a refit of the grid-search
    winner of one of the three families: all three were evaluated without
    an exception, the chosen one had a hold-out RMSE strictly below
    infinity, and no family had a strictly lower one.  With no RMSE below
    infinity a run cannot return. *)
Theorem main_model_comes_from_family (w w' : world) (model : fitted) :
  main parse_datetime py_str fitted GridSearchCV_fit predict
    root_mean_squared_error refit shuffle_split search_writes refit_writes w
  = (Ok model, w') ->
  exists def X y X_tr y_tr X_val y_val best rmse,
    In def model_defs /\
    evaluate fitted GridSearchCV_fit predict root_mean_squared_error
      X_tr y_tr X_val y_val (fst (snd def)) (snd (snd def)) = Ok (best, rmse) /\
    f_ltb rmse inf = true /\
    refit best X y = Ok model /\
    forall other, In other model_defs ->
      exists m r,
        evaluate fitted GridSearchCV_fit predict root_mean_squared_error
          X_tr y_tr X_val y_val (fst (snd other)) (snd (snd other)) = Ok (m, r) /\
        f_ltb r rmse = false.
Proof.
  intros H.
  destruct (main_inv _ _ _ H)
    as (train & test & sub & train' & test' & X0 & Xt0 & y & w1 & w2 & a & b &
        ra & rb & X & X_test & X_tr & X_val & y_tr & y_val & best & rmse &
        y_hat & _ & _ & _ & _ & _ & _ & _ & _ & _ & _ & _ & _ & _ &
        _ & Cm & Rf & _).
  unfold compare_models, compare_loop in Cm. inv_result.
  destruct x as [[br bm] bn]. injection Cm as -> ->.
  pose proof (compare_loop_any _ _ _ _ _ _ _ _ _ _ _ E) as K.
  cbv beta zeta in K. cbn [fst snd] in K.
  destruct K as (Hall & _ & [Heq|(d & m & Hd & Hm & Hev & Hlt)]);
    [discriminate Heq|].
  injection Hm as <-.
  exists d, X, y, X_tr, y_tr, X_val, y_val, best, rmse.
  auto.
Qed.

End PipelineMore.

Section PipelineContract.

Variable parse_datetime : cell -> option Z.
Variable py_str : cell -> string.
Variable fitted : Type.
Variable GridSearchCV_fit :
  estimator -> param_grid -> DataFrame -> column -> result fitted.
Variable predict : fitted -> DataFrame -> result (list float64).
Variable root_mean_squared_error : column -> list float64 -> result float64.
Variable refit : fitted -> DataFrame -> column -> result fitted.
Variable shuffle_split : nat -> option (list nat * list nat).
Variable search_writes : file_system -> file_system.
Variable refit_writes : file_system -> file_system.

(** An estimator predicts one value per row. *)
Hypothesis predict_rows :
  forall m X y_hat, predict m X = Ok y_hat -> List.length y_hat = nrows X.

(** The split puts every position on exactly one side. *)
Hypothesis shuffle_split_partition :
  forall n ind_train ind_test,
    shuffle_split n = Some (ind_train, ind_test) ->
    Permutation (ind_train ++ ind_test) (seq 0 n).

(** C6.  A successful [main] refits the selected estimator on the whole
    feature matrix [X] and the whole target column [y] of the training
    file, the matrix and target whose rows the hold-out split divided into
    the training and the validation side, and predicts with the refitted
    estimator for the feature matrix [X_test] of the test file.  [X] and
    [X_test] are the [FEATURES] columns of the cleaned training and test
    files, encoded and zero-filled, with one row per row of their file, so
    there is one prediction per test row.  The file it writes is the
    submission template with the target column replaced by the
    predictions: every other column, the column order and the number of
    rows are those of the template. *)
Theorem main_refits_on_all_rows_and_fills_target (w w' : world) (model : fitted) :
  main parse_datetime py_str fitted GridSearchCV_fit predict
    root_mean_squared_error refit shuffle_split search_writes refit_writes w
  = (Ok model, w') ->
  exists train test sub train' test' X y X_test X_tr X_val y_tr y_val
         best rmse y_hat out,
    find_file (files w) "train.csv" = Some train /\
    find_file (files w) "test.csv" = Some test /\
    find_file (files w) "sample_submission.csv" = Some sub /\
    clean_and_engineer parse_datetime train = Ok train' /\
    clean_and_engineer parse_datetime test = Ok test' /\
    lookup_col train target = Some y /\
    columns X = FEATURES /\ columns X_test = FEATURES /\
    (forall col, In col FEATURES -> ~ In col cats ->
       exists c ct,
         lookup_col train' col = Some c /\
         lookup_col test' col = Some ct /\
         lookup_col X col = Some (map fill0 c) /\
         lookup_col X_test col = Some (map fill0 ct)) /\
    (forall col, In col cats ->
       exists ca cb,
         lookup_col X col = Some ca /\ lookup_col X_test col = Some cb /\
         forallb is_code ca = true /\ forallb is_code cb = true) /\
    (exists age age_test,
       lookup_col train "Age" = Some age /\
       lookup_col test "Age" = Some age_test /\
       nrows X = List.length age /\ nrows X_test = List.length age_test) /\
    (rectangular train -> nrows X = nrows train) /\
    (rectangular test -> nrows X_test = nrows test) /\
    List.length y = nrows X /\
    train_test_split shuffle_split X y = Ok (X_tr, X_val, y_tr, y_val) /\
    Permutation (y_tr ++ y_val) y /\
    (forall name c, lookup_col X name = Some c -> List.length c = nrows X ->
       exists c1 c2,
         lookup_col X_tr name = Some c1 /\ lookup_col X_val name = Some c2 /\
         Permutation (c1 ++ c2) c) /\
    compare_models fitted GridSearchCV_fit predict root_mean_squared_error
      X_tr y_tr X_val y_val = Ok (Some best, rmse) /\
    refit best X y = Ok model /\
    predict model X_test = Ok y_hat /\
    List.length y_hat = nrows X_test /\
    (rectangular test -> List.length y_hat = nrows test) /\
    find_file (files w') "submission.csv" = Some out /\
    out = put_col sub target (map VFloat y_hat) /\
    lookup_col out target = Some (map VFloat y_hat) /\
    (forall col, col <> target -> lookup_col out col = lookup_col sub col) /\
    (sub <> [] -> List.length y_hat = nrows sub /\ nrows out = nrows sub) /\
    (In target (columns sub) -> columns out = columns sub).
Proof.
  intros H.
  destruct (main_inv _ _ _ _ _ _ _ _ _ _ _ _ _ H)
    as (train & test & sub & train' & test' & X0 & Xt0 & y & w1 & w2 & a & b &
        ra & rb & X & X_test & X_tr & X_val & y_tr & y_val & best & rmse &
        y_hat & Ft & Fe & Fs & Ct & Ce & St & Gy & Se & Ha & Hb & En & HX & HT &
        Sp & Cm & Rf & Pr & Hset & Hfiles).
  destruct (encode_and_impute_tables _ _ _ _ _ _ _ _ _ En Ha Hb)
    as (Xa & Xb & HXa & HXb & Ca & Cb & Na & Nb & _ & _ & Hnum & Hcat).
  assert (Xa = X) by congruence. assert (Xb = X_test) by congruence. subst.
  destruct (select_inv _ _ _ St) as [Cs Ls].
  destruct (select_inv _ _ _ Se) as [Cse Lse].
  destruct (train_test_split_partition _ shuffle_split_partition _ _ _ _ _ _ Sp)
    as [Py PX].
  assert (Hage : In "Age" FEATURES) by (simpl; tauto).
  destruct (Ls _ Hage) as (age & La & _).
  destruct (Lse _ Hage) as (age_test & Lt & _).
  pose proof (select_nrows _ _ _ _ _ St La) as Ra.
  pose proof (select_nrows _ _ _ _ _ Se Lt) as Rt.
  rewrite (clean_and_engineer_frame _ _ _ "Age" Ct) in La
    by (simpl; intuition discriminate).
  rewrite (clean_and_engineer_frame _ _ _ "Age" Ce) in Lt
    by (simpl; intuition discriminate).
  apply getitem_Ok in Gy.
  rewrite (clean_and_engineer_frame _ _ _ target Ct) in Gy
    by (simpl; intuition discriminate).
  pose proof (predict_rows _ _ _ Pr) as Lp.
  exists train, test, sub, train', test', X, y, X_test, X_tr, X_val, y_tr, y_val,
         best, rmse, y_hat, (put_col sub target (map VFloat y_hat)).
  do 6 (split; [assumption|]).
  split; [congruence|]. split; [congruence|].
  split.
  { intros col Hf Hn.
    destruct (Ls col Hf) as (c & Lc & Lc0).
    destruct (Lse col Hf) as (ct & Lct & Lct0).
    destruct (Hnum col Hn) as [Hna Hnb].
    rewrite Lc0 in Hna. rewrite Lct0 in Hnb.
    exists c, ct. auto. }
  split; [exact Hcat|].
  split; [exists age, age_test; repeat split; congruence|].
  split; [intros R; rewrite <- (rectangular_lookup _ _ _ R La); congruence|].
  split; [intros R; rewrite <- (rectangular_lookup _ _ _ R Lt); congruence|].
  split; [eapply train_test_split_lengths; eauto|].
  do 6 (split; [assumption|]).
  split; [exact Lp|].
  split; [intros R; rewrite <- (rectangular_lookup _ _ _ R Lt); congruence|].
  split; [rewrite Hfiles; apply find_file_written|].
  split; [reflexivity|].
  split; [rewrite lookup_put_col, String.eqb_refl; reflexivity|].
  split.
  { intros col Hne. rewrite lookup_put_col.
    destruct (String.eqb_spec target col); [congruence | reflexivity]. }
  split.
  { intros Hnil. pose proof (setitem_length _ _ _ _ Hset Hnil) as L.
    rewrite length_map in L. split; [exact L|].
    apply nrows_put_col; [exact Hnil|]. rewrite length_map. exact L. }
  apply columns_put_col.
Qed.

End PipelineContract.

(** The run of the scenario: one prediction for the one test row, and the
    written file is the template with its target column predicted and its
    other column untouched. *)
Lemma main_refits_on_all_rows_and_fills_target_witness :
  exists out y_hat,
    find_file
      (files (snd (main iso_datetime decimal_str const_model
                     (const_search levels) const_predict exact_rmse
                     const_refit head_split catboost_writes catboost_writes
                     scenario_world)))
      "submission.csv" = Some out /\
    out = put_col scenario_submission target (map VFloat y_hat) /\
    List.length y_hat = nrows scenario_test /\
    List.length y_hat = nrows scenario_submission /\
    lookup_col out "ClaimNumber" = Some [VStr "WC0001"].
Proof.
  destruct (main_refits_on_all_rows_and_fills_target iso_datetime decimal_str
              const_model (const_search levels) const_predict exact_rmse
              const_refit head_split catboost_writes catboost_writes
              const_predict_rows head_split_partition
              scenario_world
              (snd (main iso_datetime decimal_str const_model
                      (const_search levels) const_predict exact_rmse
                      const_refit head_split catboost_writes catboost_writes
                      scenario_world))
              (RandomForestRegressor, 10%Q) eq_refl)
    as (train & test & sub & train' & test' & X & y & X_test & X_tr & X_val &
        y_tr & y_val & best & rmse & y_hat & out &
        _ & Ftest & Hsub & _ & _ & _ & _ & _ & _ & _ & _ & _ & _ & _ & _ & _ &
        _ & _ & _ & _ & _ & Hrows_test & Hout & Heq & _ & Hother & Hrows & _).
  injection Hsub as <-. injection Ftest as <-.
  exists out, y_hat. split; [exact Hout|]. split; [exact Heq|]. split; [|split].
  - apply Hrows_test. repeat constructor.
  - apply Hrows. discriminate.
  - rewrite Hother by discriminate. reflexivity.
Defined.

(** ** What a run writes *)

Lemma kept_refl (lib : string -> Prop) (fs : file_system) : kept lib fs fs.
Proof. intros p _. reflexivity. Qed.

Lemma kept_trans (lib : string -> Prop) (fs1 fs2 fs3 : file_system) :
  kept lib fs1 fs2 -> kept lib fs2 fs3 -> kept lib fs1 fs3.
Proof. intros H1 H2 p Hp. rewrite (H2 p Hp). apply H1, Hp. Qed.

Lemma same_files_kept {A} (lib : string -> Prop) (m : M A) :
  preserves same_files m -> preserves (keeps_files lib) m.
Proof.
  intros H w r w' E. unfold keeps_files. rewrite (H w r w' E). apply kept_refl.
Qed.

Lemma library_call_kept {A} (lib : string -> Prop)
    (writes : file_system -> file_system) (r : result A) :
  (forall fs, kept lib fs (writes fs)) ->
  preserves (keeps_files lib) (library_call writes r).
Proof.
  intros H w r' w'. unfold library_call. intros [= _ <-]. apply H.
Qed.

Lemma file_effect_bind {A B} (lib : string -> Prop) (path : string)
    (m : M A) (k : A -> M B) :
  preserves (keeps_files lib) m ->
  (forall a, file_effect (writes_on_success lib path) (k a)) ->
  file_effect (writes_on_success lib path) (mbind m k).
Proof.
  intros Hm Hk w r w'. unfold mbind.
  destruct (m w) as [[a|e] w1] eqn:E; pose proof (Hm _ _ _ E) as F;
    unfold keeps_files in F.
  - intros H. pose proof (Hk a _ _ _ H) as Q. destruct r as [b|e]; cbn in *.
    + destruct Q as [Hout Hother]. split; [exact Hout|].
      intros p Hp Hne. rewrite (Hother p Hp Hne). apply F, Hp.
    + eapply kept_trans; eauto.
  - intros [= <- <-]. exact F.
Qed.

Lemma to_csv_file_effect {A} (lib : string -> Prop) (x : ref) (path : string)
    (a : A) :
  file_effect (writes_on_success lib path)
    (mbind (to_csv x path) (fun _ => mret a)).
Proof.
  intros w r w'. unfold to_csv, mbind, deref, mret.
  destruct (nth_error (heap w) x) as [df|]; intros [= <- <-]; cbn.
  - split.
    + exists df. rewrite String.eqb_refl. reflexivity.
    + intros p _ Hne.
      destruct (String.eqb_spec path p); [congruence | reflexivity].
  - apply kept_refl.
Qed.

Section PipelineEffects.

Variable parse_datetime : cell -> option Z.
Variable py_str : cell -> string.
Variable fitted : Type.
Variable GridSearchCV_fit :
  estimator -> param_grid -> DataFrame -> column -> result fitted.
Variable predict : fitted -> DataFrame -> result (list float64).
Variable root_mean_squared_error : column -> list float64 -> result float64.
Variable refit : fitted -> DataFrame -> column -> result fitted.
Variable shuffle_split : nat -> option (list nat * list nat).
Variable search_writes : file_system -> file_system.
Variable refit_writes : file_system -> file_system.

(** The paths that the estimator libraries write to. *)
Variable lib : string -> Prop.

Hypothesis search_writes_lib : forall fs, kept lib fs (search_writes fs).
Hypothesis refit_writes_lib : forall fs, kept lib fs (refit_writes fs).

Lemma call_clean_and_engineer_same_files (x : ref) :
  preserves same_files (call_clean_and_engineer parse_datetime x).
Proof.
  unfold call_clean_and_engineer.
  apply preserves_bind; [exact same_files_trans | apply deref_same_files |intros df].
  apply preserves_bind; [exact same_files_trans | apply lift_same_files |intros df'].
  apply new_same_files.
Qed.

Lemma df_select_same_files (x : ref) (cols : list string) :
  preserves same_files (df_select x cols).
Proof.
  unfold df_select.
  apply preserves_bind; [exact same_files_trans | apply deref_same_files |intros df].
  apply preserves_bind; [exact same_files_trans | apply lift_same_files |intros df'].
  apply new_same_files.
Qed.

Lemma main_file_effect :
  file_effect (writes_on_success lib "submission.csv")
    (main parse_datetime py_str fitted GridSearchCV_fit predict
       root_mean_squared_error refit shuffle_split search_writes refit_writes).
Proof.
  unfold main.
  apply file_effect_bind;
    [apply same_files_kept, load_data_same_files |].
  intros [[train test] submission].
  apply file_effect_bind;
    [apply same_files_kept, call_clean_and_engineer_same_files | intros train'].
  apply file_effect_bind;
    [apply same_files_kept, call_clean_and_engineer_same_files | intros test'].
  apply file_effect_bind; [apply same_files_kept, df_select_same_files | intros X].
  apply file_effect_bind;
    [apply same_files_kept; eapply frame_same_files;
     apply (df_getitem_frame (fun _ => False))
    | intros y].
  apply file_effect_bind;
    [apply same_files_kept, df_select_same_files | intros X_test].
  apply file_effect_bind;
    [apply same_files_kept, encode_and_impute_same_files | intros [X' X_test']].
  apply file_effect_bind; [apply same_files_kept, deref_same_files | intros Xd].
  apply file_effect_bind;
    [apply same_files_kept, lift_same_files | intros [[[X_tr X_val] y_tr] y_val]].
  apply file_effect_bind;
    [apply library_call_kept, search_writes_lib | intros [best_model best_rmse]].
  destruct best_model as [best|].
  - apply file_effect_bind; [apply same_files_kept, deref_same_files | intros Xd'].
    apply file_effect_bind;
      [apply library_call_kept, refit_writes_lib | intros model].
    apply file_effect_bind; [apply same_files_kept, deref_same_files | intros Xt].
    apply file_effect_bind; [apply same_files_kept, lift_same_files | intros y_hat].
    apply file_effect_bind; [| intros _].
    { apply same_files_kept. eapply frame_same_files.
      apply (df_setitem_frame (fun _ => True)). exact I. }
    apply to_csv_file_effect.
  - intros w r w'. unfold lift. intros [= <- <-]. apply kept_refl.
Qed.

(** X15.  Whatever the estimator libraries write on their own (CatBoost
    logs every fit to disk, also in a run that raises later), among the
    other paths [main] writes a file only when it returns: after a run
    that raises, at whatever step, every file outside the libraries' paths
    is as before the run; after a run that returns, [submission.csv] is the
    only such file that has changed.  The three input files are never
    rewritten by the notebook. *)
Theorem main_writes_only_on_success (w w' : world) (r : result fitted) :
  main parse_datetime py_str fitted GridSearchCV_fit predict
    root_mean_squared_error refit shuffle_split search_writes refit_writes w
  = (r, w') ->
  (forall path, ~ lib path -> path <> "submission.csv" ->
     find_content (files w') path = find_content (files w) path) /\
  match r with
  | Ok _ => exists out, find_file (files w') "submission.csv" = Some out
  | Err _ =>
      forall path, ~ lib path ->
        find_content (files w') path = find_content (files w) path
  end.
Proof.
  intros H. pose proof (main_file_effect _ _ _ H) as Q.
  unfold writes_on_success in Q. destruct r as [model|e].
  - destruct Q as [[out Hout] Hother]. split; [exact Hother|].
    exists out. apply find_file_content. exact Hout.
  - split; [|exact Q]. intros path Hp _. apply Q, Hp.
Qed.

End PipelineEffects.

Lemma catboost_writes_kept (fs : file_system) :
  kept (fun path => path = catboost_log) fs (catboost_writes fs).
Proof.
  intros path Hp. unfold catboost_writes. cbn [find_content].
  destruct (String.eqb_spec catboost_log path); [congruence | reflexivity].
Qed.

(** A run that returns has written the submission; a run that stops at
    [best_model.fit], after the grid searches have left their log, has
    left the training file as it was and written no submission. *)
Lemma main_writes_only_on_success_witness :
  (exists out,
     find_file
       (files (snd (main iso_datetime decimal_str const_model
                      (const_search levels) const_predict exact_rmse
                      const_refit head_split catboost_writes catboost_writes
                      scenario_world)))
       "submission.csv" = Some out) /\
  (forall path, path <> catboost_log ->
     find_content
       (files (snd (main iso_datetime decimal_str const_model
                      (const_search levels) const_predict overflowed_rmse
                      const_refit head_split catboost_writes catboost_writes
                      scenario_world)))
       path = find_content (files scenario_world) path) /\
  find_content
    (files (snd (main iso_datetime decimal_str const_model
                   (const_search levels) const_predict overflowed_rmse
                   const_refit head_split catboost_writes catboost_writes
                   scenario_world)))
    catboost_log = Some (Unreadable ParserError).
Proof.
  split; [|split].
  - exact (proj2 (main_writes_only_on_success iso_datetime decimal_str
                    const_model (const_search levels) const_predict exact_rmse
                    const_refit head_split catboost_writes catboost_writes
                    (fun path => path = catboost_log)
                    catboost_writes_kept catboost_writes_kept
                    scenario_world
                    (snd (main iso_datetime decimal_str const_model
                            (const_search levels) const_predict exact_rmse
                            const_refit head_split catboost_writes
                            catboost_writes scenario_world))
                    (Ok (RandomForestRegressor, 10%Q)) eq_refl)).
  - exact (proj2 (main_writes_only_on_success iso_datetime decimal_str
                    const_model (const_search levels) const_predict
                    overflowed_rmse
                    const_refit head_split catboost_writes catboost_writes
                    (fun path => path = catboost_log)
                    catboost_writes_kept catboost_writes_kept
                    scenario_world
                    (snd (main iso_datetime decimal_str const_model
                            (const_search levels) const_predict overflowed_rmse
                            const_refit head_split catboost_writes
                            catboost_writes scenario_world))
                    (Err AttributeError) eq_refl)).
  - reflexivity.
Defined.

Lemma main_feature_matrices_witness :
  exists X X_test,
    const_refit (RandomForestRegressor, 10%Q) X [VInt 9; VInt 14]
    = Ok (RandomForestRegressor, 10%Q) /\
    columns X = FEATURES /\ columns X_test = FEATURES /\ nrows X = 2 /\
    (exists c, lookup_col X "WagePerHour" = Some (map fill0 c)) /\
    (exists ca, lookup_col X "Gender" = Some ca /\ forallb is_code ca = true).
Proof.
  destruct (main_feature_matrices iso_datetime decimal_str const_model
              (const_search levels) const_predict exact_rmse
              const_refit head_split catboost_writes catboost_writes
              scenario_world
              (snd (main iso_datetime decimal_str const_model
                      (const_search levels) const_predict exact_rmse
                      const_refit head_split catboost_writes catboost_writes
                      scenario_world))
              (RandomForestRegressor, 10%Q) eq_refl)
    as (train & test & train' & test' & y & best & X & X_test & y_hat &
        Ft & _ & Ct & _ & Ly & Rf & _ & CX & CT & Ln & _ & _ & Hnum & Hcat).
  injection Ft as <-.
  assert (Hy : y = [VInt 9; VInt 14]).
  { vm_compute in Ct. injection Ct as <-. vm_compute in Ly. congruence. }
  subst y.
  assert (Hb : best = (RandomForestRegressor, 10%Q)).
  { unfold const_refit in Rf. congruence. }
  subst best.
  exists X, X_test.
  split; [exact Rf|]. split; [exact CX|]. split; [exact CT|].
  split; [symmetry; exact Ln|].
  split.
  - destruct (Hnum "WagePerHour") as (c & ct & _ & _ & Hc & _).
    + simpl; tauto.
    + simpl. intuition discriminate.
    + eauto.
  - destruct (Hcat "Gender") as (ca & cb & Hca & _ & Cca & _).
    + simpl; tauto.
    + eauto.
Defined.

Lemma main_model_comes_from_family_witness :
  exists def best rmse,
    In def model_defs /\ f_ltb rmse inf = true /\
    best = (RandomForestRegressor, 10%Q).
Proof.
  destruct (main_model_comes_from_family iso_datetime decimal_str const_model
              (const_search levels) const_predict exact_rmse
              const_refit head_split catboost_writes catboost_writes
              scenario_world
              (snd (main iso_datetime decimal_str const_model
                      (const_search levels) const_predict exact_rmse
                      const_refit head_split catboost_writes catboost_writes
                      scenario_world))
              (RandomForestRegressor, 10%Q) eq_refl)
    as (def & X & y & X_tr & y_tr & X_val & y_val & best & rmse &
        Hd & _ & Hlt & Rf & _).
  exists def, best, rmse. split; [exact Hd|]. split; [exact Hlt|].
  unfold const_refit in Rf. injection Rf as ->. reflexivity.
Defined.

(** With every score at infinity the run stops at [best_model.fit]. *)
Lemma main_overflow_example :
  fst (main iso_datetime decimal_str const_model (const_search levels)
         const_predict overflowed_rmse const_refit head_split
         catboost_writes catboost_writes scenario_world)
  = Err AttributeError.
Proof. reflexivity. Qed.
